(** * Thermal rating of layered cables: a shallow embedding

    This development embeds the numeric core of the calculators in
    [Calculator/Waermeleitfaehigkeit]:

    - [cable_model_iec60287.py]: [CableLayer], [CableConfiguration] with
      the fixed-point conductor-temperature solver, the temperature
      profile and the ampacity bisection;
    - [enhanced_cable_model.py]: the direct-current part of
      [calculate_enhanced_losses];
    - [cable_spacing_optimization.py]: the mutual thermal resistance and
      the mutual heating matrix of a cable group;
    - [thermal_calculator.py] and [material_database.py]: the material
      table, Fourier's law, the U-value and the temperature distribution
      of a planar wall, the heating time and the dew point;
    - [advanced_thermal_physics.py]: radiation, skin and proximity effect,
      shield losses, installation factors and the transient response.

    Number model.  Python's [float] is modelled by the real numbers [R]:
    rounding, overflow, infinities produced by overflow and NaN are out of
    the model.  The exceptions Python raises where real arithmetic is
    undefined are kept: [x / 0.0] raises [ZeroDivisionError] and
    [math.log x] raises [ValueError] for [x <= 0].  Where the source
    produces an infinity on purpose ([float('inf')] in
    [calculate_u_value], [calculate_cooling_heating_time] and
    [calculate_skin_depth]) it is modelled by an explicit constructor,
    and the arithmetic [calculate_temperature_distribution] does on it by
    a type with both infinities and NaN.

    Effects.  Methods of a mutable object are functions from the object's
    state to a result (a value or a raised exception) and the new state. *)

From Stdlib Require Import Reals Lra Lia.
From stdpp Require Import gmap strings.

Open Scope R_scope.

(** ** Python values, exceptions and control flow *)

Module Py.

(** The exceptions the embedded code can raise; messages are not kept. *)
Inductive exn : Type :=
| ValueError
| ZeroDivisionError
| IndexError.

Inductive result (A : Type) : Type :=
| Ok (a : A)
| Raise (e : exn).

Arguments Ok {A} a.
Arguments Raise {A} e.

Definition rbind {A B : Type} (c : result A) (k : A -> result B) : result B :=
  match c with
  | Ok a => k a
  | Raise e => Raise e
  end.

(** Comparisons of floats, as booleans. *)
Definition le (x y : R) : bool := if Rle_dec x y then true else false.
Definition lt (x y : R) : bool := if Rlt_dec x y then true else false.
Definition gt (x y : R) : bool := lt y x.

(** [x / y]: true division raises on a zero divisor. *)
Definition truediv (x y : R) : result R :=
  if Req_dec_T y 0 then Raise ZeroDivisionError else Ok (x / y).

(** [math.log(x)]: the natural logarithm, a domain error outside [x > 0]. *)
Definition math_log (x : R) : result R :=
  if Rlt_dec 0 x then Ok (ln x) else Raise ValueError.

Definition math_pi : R := PI.

(** [max(a, b)]: the first argument unless the second is greater. *)
Definition max (a b : R) : R := if gt b a then b else a.

(** [abs(x)]. *)
Definition abs (x : R) : R := Rabs x.

(** A float that may be the [float('inf')] the source writes out. *)
Inductive xfloat : Type :=
| Finite (x : R)
| PlusInfinity.

(** A method of an object whose mutable state has type [S]: the state is
    threaded, and survives a raised exception. *)
Definition method (S A : Type) : Type := S -> result A * S.

Definition ret {S A : Type} (a : A) : method S A := fun s => (Ok a, s).

Definition raise {S A : Type} (e : exn) : method S A := fun s => (Raise e, s).

Definition bind {S A B : Type} (c : method S A) (k : A -> method S B)
  : method S B :=
  fun s =>
    match c s with
    | (Ok a, s') => k a s'
    | (Raise e, s') => (Raise e, s')
    end.

(** A call of a function that has no access to the object. *)
Definition lift {S A : Type} (c : result A) : method S A := fun s => (c, s).

(** Reading an attribute of [self]. *)
Definition gets {S A : Type} (f : S -> A) : method S A := fun s => (Ok (f s), s).

(** Assigning to [self]. *)
Definition modify {S : Type} (f : S -> S) : method S unit :=
  fun s => (Ok tt, f s).

(** [for x in xs: body], with [break]: the body maps the local variables to
    their new values and says whether the loop goes on. *)
Inductive flow : Type := Next | Break.

Fixpoint for_in {S X L : Type} (xs : list X)
  (body : X -> L -> method S (flow * L)) (locals : L) : method S L :=
  match xs with
  | [] => ret locals
  | x :: xs' =>
      bind (body x locals) (fun r =>
        match r with
        | (Break, locals') => ret locals'
        | (Next, locals') => for_in xs' body locals'
        end)
  end.

(** A method keeps a relation between the state before and after it,
    whether it returns or raises. *)
Definition keeps {S A : Type} (rel : S -> S -> Prop) (c : method S A) : Prop :=
  forall s : S, rel s (snd (c s)).

(** [range(n)]. *)
Definition range (n : nat) : list nat := seq 0 n.

End Py.

Import Py.

Declare Scope py_scope.
Delimit Scope py_scope with py.
Notation "x <- c ;; k" := (bind c (fun x => k))
  (at level 100, c at next level, right associativity) : py_scope.
Notation "c ;;; k" := (bind c (fun _ => k))
  (at level 100, right associativity) : py_scope.
Notation "'let*' x := c 'in' k" := (rbind c (fun x => k))
  (at level 100, x name, c at next level, right associativity) : py_scope.
Open Scope py_scope.

(** ** cable_model_iec60287.py *)

Module CableModel.

(** [@dataclass class CableLayer]; radii in mm. *)
Record CableLayer : Type := mkCableLayer {
  name : string;
  material : string;
  inner_radius : R;
  outer_radius : R;
  thermal_conductivity : R;
  resistivity : R;
  temp_coefficient : R
}.

(** [CableLayer.get_thermal_resistance(self, length=1.0)]. *)
Definition get_thermal_resistance (self : CableLayer) (length : R) : result R :=
  if le (inner_radius self) 0 || le (outer_radius self) (inner_radius self)
  then Ok 0
  else
    let* rho_thermal := truediv 1 (thermal_conductivity self) in
    let* ratio := truediv (outer_radius self) (inner_radius self) in
    let* lg := math_log ratio in
    let* r_thermal := truediv (rho_thermal * lg) (2 * math_pi) in
    Ok r_thermal.

(** [CableLayer.get_electrical_resistance(self, length=1.0, temperature=20.0)]. *)
Definition get_electrical_resistance (self : CableLayer)
  (length temperature : R) : result R :=
  if le (resistivity self) 0 then Ok 0
  else
    let area := math_pi * ((outer_radius self) ^ 2 - (inner_radius self) ^ 2) in
    if le area 0 then Ok 0
    else
      let* r_20 := truediv (resistivity self * length) area in
      let r_temp := r_20 * (1 + temp_coefficient self * (temperature - 20)) in
      Ok r_temp.

(** The attributes of [CableConfiguration]. *)
Record CableConfiguration : Type := mkCableConfiguration {
  cfg_name : string;
  layers : list CableLayer;
  external_layers : list CableLayer;
  current : R;
  ambient_temp : R;
  max_conductor_temp : R
}.

Definition set_current (i : R) (self : CableConfiguration) : CableConfiguration :=
  mkCableConfiguration (cfg_name self) (layers self) (external_layers self)
    i (ambient_temp self) (max_conductor_temp self).

(** [CableConfiguration.__init__]. *)
Definition init (name : string) : CableConfiguration :=
  mkCableConfiguration name [] [] 0 20 90.

Definition add_layer (layer : CableLayer) : method CableConfiguration unit :=
  modify (fun self =>
    mkCableConfiguration (cfg_name self) (layers self ++ [layer])
      (external_layers self) (current self) (ambient_temp self)
      (max_conductor_temp self)).

Definition add_external_layer (layer : CableLayer)
  : method CableConfiguration unit :=
  modify (fun self =>
    mkCableConfiguration (cfg_name self) (layers self)
      (external_layers self ++ [layer]) (current self) (ambient_temp self)
      (max_conductor_temp self)).

Definition get_conductor_layer : method CableConfiguration CableLayer :=
  ls <- gets layers ;;
  match ls with
  | [] => raise ValueError
  | conductor :: _ => ret conductor
  end.

(** [calculate_conductor_losses(self, temperature=None)]. *)
Definition calculate_conductor_losses (temperature : option R)
  : method CableConfiguration R :=
  temperature <- match temperature with
                 | None => gets max_conductor_temp
                 | Some t => ret t
                 end ;;
  conductor <- get_conductor_layer ;;
  r_conductor <- lift (get_electrical_resistance conductor 1 temperature) ;;
  i <- gets current ;;
  ret (i ^ 2 * r_conductor).

(** The body of both loops of [get_total_thermal_resistance]:
    [r_total += layer.get_thermal_resistance()]. *)
Definition add_resistance (layer : CableLayer) (r_total : R)
  : method CableConfiguration (flow * R) :=
  r <- lift (get_thermal_resistance layer 1) ;;
  ret (Next, r_total + r).

Definition get_total_thermal_resistance : method CableConfiguration R :=
  ls <- gets layers ;;
  r_total <- for_in ls add_resistance 0 ;;
  es <- gets external_layers ;;
  r_total <- for_in es add_resistance r_total ;;
  ret r_total.

(** The [details] dictionary of the solvers; [max_current_A] is the key
    only [calculate_max_current] adds. *)
Record Details : Type := mkDetails {
  conductor_temp_C : R;
  ambient_temp_C : R;
  losses_W_per_m : R;
  thermal_resistance_K_m_W : R;
  current_A : R;
  iterations : nat;
  max_allowed_temp_C : R;
  max_current_A : option R
}.

(** The local variables of [calculate_conductor_temperature] that live
    across iterations. *)
Record TempLocals : Type := mkTempLocals {
  t_conductor : R;
  losses : R;
  r_thermal : R;
  iteration : nat
}.

(** One pass of [for iteration in range(10)]. *)
Definition temperature_step (i : nat) (v : TempLocals)
  : method CableConfiguration (flow * TempLocals) :=
  losses <- calculate_conductor_losses (Some (t_conductor v)) ;;
  r_thermal <- get_total_thermal_resistance ;;
  ambient <- gets ambient_temp ;;
  let t_new := ambient + losses * r_thermal in
  if lt (abs (t_new - t_conductor v)) 0.1
  then ret (Break, mkTempLocals (t_conductor v) losses r_thermal i)
  else ret (Next, mkTempLocals t_new losses r_thermal i).

Definition calculate_conductor_temperature
  : method CableConfiguration (R * Details) :=
  t0 <- gets max_conductor_temp ;;
  v <- for_in (range 10) temperature_step (mkTempLocals t0 0 0 0) ;;
  ambient <- gets ambient_temp ;;
  i <- gets current ;;
  t_max <- gets max_conductor_temp ;;
  ret (t_conductor v,
       mkDetails (t_conductor v) ambient (losses v) (r_thermal v) i
         (iteration v + 1) t_max None).

(** The local variables of the loop of [calculate_temperature_profile]. *)
Record ProfileLocals : Type := mkProfileLocals {
  profile : list (R * R * string);
  current_temp : R
}.

Definition profile_step (losses : R) (layer : CableLayer) (v : ProfileLocals)
  : method CableConfiguration (flow * ProfileLocals) :=
  let profile1 := profile v ++ [(inner_radius layer, current_temp v, name layer)] in
  r <- lift (get_thermal_resistance layer 1) ;;
  let delta_t := losses * r in
  let current_temp' := current_temp v - delta_t in
  ret (Next,
       mkProfileLocals
         (profile1 ++ [(outer_radius layer, current_temp', name layer)])
         current_temp').

Definition calculate_temperature_profile
  : method CableConfiguration (list (R * R * string)) :=
  r <- calculate_conductor_temperature ;;
  let t_conductor := fst r in
  losses <- calculate_conductor_losses (Some t_conductor) ;;
  ls <- gets layers ;;
  v <- for_in ls (profile_step losses) (mkProfileLocals [] t_conductor) ;;
  ret (profile v).

(** The bracket of the bisection of [calculate_max_current]. *)
Record SearchLocals : Type := mkSearchLocals {
  i_min : R;
  i_max : R
}.

(** One pass of [for _ in range(20)]. *)
Definition search_step (_ : nat) (v : SearchLocals)
  : method CableConfiguration (flow * SearchLocals) :=
  let i_test := (i_min v + i_max v) / 2 in
  modify (set_current i_test) ;;;
  r <- calculate_conductor_temperature ;;
  let t_conductor := fst r in
  t_max <- gets max_conductor_temp ;;
  if lt (abs (t_conductor - t_max)) 0.5
  then ret (Break, v)
  else if gt t_conductor t_max
       then ret (Next, mkSearchLocals (i_min v) i_test)
       else ret (Next, mkSearchLocals i_test (i_max v)).

(** The loop of [calculate_max_current], with its final bracket. *)
Definition max_current_search : method CableConfiguration SearchLocals :=
  for_in (range 20) search_step (mkSearchLocals 0 10000).

Definition set_max_current_A (i : R) (d : Details) : Details :=
  mkDetails (conductor_temp_C d) (ambient_temp_C d) (losses_W_per_m d)
    (thermal_resistance_K_m_W d) (current_A d) (iterations d)
    (max_allowed_temp_C d) (Some i).

Definition calculate_max_current : method CableConfiguration (R * Details) :=
  max_current_search ;;;
  r <- calculate_conductor_temperature ;;
  i <- gets current ;;
  let details := set_max_current_A i (snd r) in
  i' <- gets current ;;
  ret (i', details).

End CableModel.

(** ** enhanced_cable_model.py *)

Module Enhanced.
Import CableModel.

(** The first statements of [calculate_enhanced_losses(self, current,
    temperature)]: [conductor = self.layers[0]], then
    [r_dc = conductor.get_electrical_resistance(temperature)] and
    [results['losses_dc'] = current**2 * r_dc].  The call passes
    [temperature] as the first positional parameter, which is [length];
    the parameter [temperature] keeps its default [20.0].  The attributes
    read here are the ones inherited from [CableConfiguration].  The
    result is the pair of [r_dc] and [losses_dc]. *)
Definition enhanced_losses_dc (current temperature : R)
  : method CableConfiguration (R * R) :=
  ls <- gets layers ;;
  match ls with
  | [] => raise IndexError
  | conductor :: _ =>
      r_dc <- lift (get_electrical_resistance conductor temperature 20) ;;
      let losses_dc := current ^ 2 * r_dc in
      ret (r_dc, losses_dc)
  end.

End Enhanced.

(** ** cable_spacing_optimization.py *)

Module Spacing.

(** [MutualHeatingModel.calculate_mutual_thermal_resistance(distance,
    depth, soil_resistivity=1.0)], a static method. *)
Definition calculate_mutual_thermal_resistance
  (distance depth soil_resistivity : R) : result R :=
  if le distance 0 then Ok 0
  else
    let* a := truediv soil_resistivity (2 * math_pi) in
    let* ratio := truediv (2 * depth) distance in
    let* lg := math_log ratio in
    let R_mutual := a * lg in
    Ok (Py.max 0 R_mutual).

End Spacing.

(** ** material_database.py and thermal_calculator.py *)

Module Thermal.

(** An entry of [MaterialDatabase.MATERIALS]. *)
Record Material : Type := mkMaterial {
  lambda : R;
  density : R;
  specific_heat : R
}.

(** The class attribute [MATERIALS] is shared, mutable state: it is the
    state the methods below run in. *)
Abbreviation Database := (gmap string Material).

Definition MATERIALS : Database :=
  list_to_map [
    ("Beton (Normal)", mkMaterial 2.1 2400 1000);
    ("Beton (Leicht)", mkMaterial 0.8 1800 1000);
    ("Stahlbeton", mkMaterial 2.5 2500 1000);
    ("Mörtel", mkMaterial 1.2 1900 1000);
    ("Ziegel (Vollziegel)", mkMaterial 0.8 1800 1000);
    ("Ziegel (Hochlochziegel)", mkMaterial 0.35 800 1000);
    ("Porenbeton", mkMaterial 0.16 500 1000);
    ("Kalksandstein", mkMaterial 0.8 1800 1000);
    ("Mineralwolle", mkMaterial 0.04 100 840);
    ("Polystyrol (EPS)", mkMaterial 0.035 30 1500);
    ("Polystyrol (XPS)", mkMaterial 0.032 35 1500);
    ("Polyurethan (PUR)", mkMaterial 0.025 40 1400);
    ("Steinwolle", mkMaterial 0.045 150 840);
    ("Glaswolle", mkMaterial 0.04 100 840);
    ("Holz (Weich)", mkMaterial 0.13 500 1600);
    ("Holz (Hart)", mkMaterial 0.18 700 1600);
    ("Sperrholz", mkMaterial 0.15 600 1600);
    ("Spanplatte", mkMaterial 0.12 650 1600);
    ("Stahl", mkMaterial 50 7850 460);
    ("Aluminium", mkMaterial 160 2700 880);
    ("Kupfer", mkMaterial 380 8900 380);
    ("Zink", mkMaterial 110 7200 380);
    ("Kupferleiter", mkMaterial 380 8900 380);
    ("Aluminiumleiter", mkMaterial 230 2700 880);
    ("Glas (Normal)", mkMaterial 1 2500 840);
    ("Isolierglas (2-fach)", mkMaterial 0.3 2500 840);
    ("Isolierglas (3-fach)", mkMaterial 0.2 2500 840);
    ("Gips", mkMaterial 0.35 1200 1000);
    ("Gipskarton", mkMaterial 0.25 900 1000);
    ("Lehm", mkMaterial 0.8 1600 1000);
    ("Kork", mkMaterial 0.045 200 1800);
    ("Bitumen", mkMaterial 0.17 1050 1000);
    ("Kunststoff (PE)", mkMaterial 0.4 950 2300);
    ("XLPE (Vernetztes Polyethylen)", mkMaterial 0.286 920 2400);
    ("EPR (Ethylen-Propylen)", mkMaterial 0.4 1100 2000);
    ("PVC (Polyvinylchlorid)", mkMaterial 0.16 1400 1000);
    ("PE (Polyethylen)", mkMaterial 0.4 950 2300);
    ("Halbleitende XLPE", mkMaterial 0.286 920 2400);
    ("PE-Schutzrohr", mkMaterial 0.4 950 2300);
    ("PVC-Schutzrohr", mkMaterial 0.16 1400 1000);
    ("Stahlrohr", mkMaterial 50 7850 460);
    ("Erdreich (trocken)", mkMaterial 0.5 1600 1000);
    ("Erdreich (feucht)", mkMaterial 2 1800 1000);
    ("Sand (trocken)", mkMaterial 0.4 1500 800);
    ("Sand (feucht)", mkMaterial 1.5 1700 1000);
    ("Luftschicht (ruhend)", mkMaterial 0.026 1.2 1000)
  ]%string.

Definition get_material (name : string) : method Database (option Material) :=
  gets (fun db : Database => db !! name).

Definition get_lambda (name : string) : method Database (option R) :=
  material <- get_material name ;;
  ret (match material with
       | Some m => Some (lambda m)
       | None => None
       end).

Definition add_custom_material (name : string)
  (lambda_value density specific_heat : R) : method Database unit :=
  modify (fun db : Database =>
            <[name := mkMaterial lambda_value density specific_heat]> db).

(** The dictionary [calculate_heat_flow] returns. *)
Record HeatFlow : Type := mkHeatFlow {
  heat_flow_W : R;
  heat_flux_W_m2 : R;
  thermal_resistance_m2K_W : R;
  lambda_W_mK : R;
  hf_material : string
}.

(** [ThermalCalculator.calculate_heat_flow]; [material_name] is a string
    by its type, so that [isinstance] holds. *)
Definition calculate_heat_flow (material_name : string)
  (area thickness temp_diff : R) : method Database HeatFlow :=
  if String.eqb material_name "" then raise ValueError
  else if le area 0 then raise ValueError
  else if le thickness 0 then raise ValueError
  else
    lambda_value <- get_lambda material_name ;;
    match lambda_value with
    | None => raise ValueError
    | Some lambda_value =>
        if le lambda_value 0 then raise ValueError
        else
          heat_flow <- lift (truediv (lambda_value * area * temp_diff) thickness) ;;
          heat_flux <- (if gt area 0 then lift (truediv heat_flow area)
                        else ret 0) ;;
          thermal_resistance <- lift (truediv thickness lambda_value) ;;
          ret (mkHeatFlow heat_flow heat_flux thermal_resistance
                 lambda_value material_name)
    end.

(** An entry of the list under the key [layers] of the U-value result. *)
Record LayerDetail : Type := mkLayerDetail {
  ld_material : string;
  thickness_m : R;
  ld_lambda_W_mK : R;
  resistance_m2K_W : R
}.

(** The dictionary [calculate_u_value] returns. *)
Record UValue : Type := mkUValue {
  u_value_W_m2K : xfloat;
  total_resistance_m2K_W : R;
  R_si : R;
  R_se : R;
  uv_layers : list LayerDetail
}.

Record ULocals : Type := mkULocals {
  R_total : R;
  layer_details : list LayerDetail
}.

(** One pass of [for material_name, thickness in layers]. *)
Definition u_value_step (layer : string * R) (v : ULocals)
  : method Database (flow * ULocals) :=
  let material_name := fst layer in
  let thickness := snd layer in
  lambda_value <- get_lambda material_name ;;
  match lambda_value with
  | None => raise ValueError
  | Some lambda_value =>
      R <- lift (truediv thickness lambda_value) ;;
      ret (Next,
           mkULocals (R_total v + R)
             (layer_details v ++
                [mkLayerDetail material_name thickness lambda_value R]))
  end.

(** [ThermalCalculator.calculate_u_value(layers)]. *)
Definition calculate_u_value (layers : list (string * R))
  : method Database UValue :=
  match layers with
  | [] => raise ValueError
  | _ =>
      let R_si := 0.13 in
      let R_se := 0.04 in
      v <- for_in layers u_value_step (mkULocals (R_si + R_se) []) ;;
      u_value <- (if gt (R_total v) 0
                  then r <- lift (truediv 1 (R_total v)) ;; ret (Finite r)
                  else ret PlusInfinity) ;;
      ret (mkUValue u_value (R_total v) R_si R_se (layer_details v))
  end.

End Thermal.

(** ** Closed forms and the specified state machine

    The values the layer methods return when they return, and the
    fixed-point iteration as the specification words it; the theorems
    below relate them to the embedded code. *)

Module Spec.
Import CableModel.

(** A layer whose geometry passes the guard of [get_thermal_resistance]. *)
Definition valid_geometry (l : CableLayer) : Prop :=
  0 < inner_radius l /\ inner_radius l < outer_radius l.

(** A layer of a valid stack: valid geometry, positive conductivity. *)
Definition valid_layer (l : CableLayer) : Prop :=
  valid_geometry l /\ 0 < thermal_conductivity l.

(** A layer on which [get_thermal_resistance] divides by no zero: its
    conductivity is not zero, whenever its geometry passes the guard. *)
Definition conducting (l : CableLayer) : Prop :=
  valid_geometry l -> thermal_conductivity l <> 0.

(** The cylindrical-shell resistance, [ln(r_o / r_i) / (2 pi lambda)]. *)
Definition shell_resistance (l : CableLayer) : R :=
  ln (outer_radius l / inner_radius l) / (2 * PI * thermal_conductivity l).

(** What a layer contributes to the series resistance: nothing when the
    geometry does not pass the guard. *)
Definition layer_resistance (l : CableLayer) : R :=
  if le (inner_radius l) 0 || le (outer_radius l) (inner_radius l)
  then 0
  else shell_resistance l.

Definition series_resistance (ls : list CableLayer) : R :=
  fold_right (fun l acc => layer_resistance l + acc) 0 ls.

(** The resistance of one metre of conductor at the 20 degC reference:
    resistivity times length over cross-section. *)
Definition R_20 (l : CableLayer) : R :=
  resistivity l * 1 / (PI * ((outer_radius l) ^ 2 - (inner_radius l) ^ 2)).

(** [R(T) = R_20 (1 + alpha (T - 20))]. *)
Definition R_at (l : CableLayer) (T : R) : R :=
  R_20 l * (1 + temp_coefficient l * (T - 20)).

(** A conductor on which [get_electrical_resistance] takes neither of its
    early returns. *)
Definition resistive (l : CableLayer) : Prop :=
  0 < resistivity l /\
  0 < PI * ((outer_radius l) ^ 2 - (inner_radius l) ^ 2).

(** What [get_electrical_resistance] returns for one metre at [T],
    early returns included. *)
Definition conductor_resistance (l : CableLayer) (T : R) : R :=
  if le (resistivity l) 0 then 0
  else if le (PI * ((outer_radius l) ^ 2 - (inner_radius l) ^ 2)) 0 then 0
       else R_at l T.

Section FixedPoint.

Variables (current ambient_temp : R).
Variable R_el : R -> R.
Variable R_th : R.

(** One candidate update: [T_new = ambient_temp + P R_th] with
    [P = current^2 R(T)]. *)
Definition update (T : R) : R :=
  ambient_temp + current ^ 2 * R_el T * R_th.

(** The iteration as specified: with [budget] iterations left and [done]
    performed, compute [T_new]; stop when [|T_new - T| < 0.1], otherwise
    continue from [T_new].  The result is the final candidate and the
    number of iterations performed. *)
Fixpoint fixed_point (budget done : nat) (T : R) : R * nat :=
  match budget with
  | O => (T, done)
  | S budget' =>
      let T_new := update T in
      if lt (Rabs (T_new - T)) 0.1 then (T, S done)
      else fixed_point budget' (S done) T_new
  end.

(** The sequence of candidates when no test stops it. *)
Fixpoint iterate (n : nat) (T : R) : R :=
  match n with
  | O => T
  | S n' => iterate n' (update T)
  end.

(** No convergence test succeeds during the first [n] iterations. *)
Fixpoint never_converges (n : nat) (T : R) : Prop :=
  match n with
  | O => True
  | S n' => 0.1 <= Rabs (update T - T) /\ never_converges n' (update T)
  end.

End FixedPoint.

(** Two configurations that differ in [current] at most. *)
Definition same_but_current (s s' : CableConfiguration) : Prop :=
  cfg_name s' = cfg_name s /\
  layers s' = layers s /\
  external_layers s' = external_layers s /\
  ambient_temp s' = ambient_temp s /\
  max_conductor_temp s' = max_conductor_temp s.

(** The solver returns the temperature [t] when the configuration carries
    the current [i]. *)
Definition temperature_at (cfg : CableConfiguration) (i t : R) : Prop :=
  exists d : Details,
    calculate_conductor_temperature (set_current i cfg)
      = (Ok (t, d), set_current i cfg).

(** The temperatures of a profile, in order. *)
Definition temperatures (profile : list (R * R * string)) : list R :=
  map (fun p => snd (fst p)) profile.

(** Adjacent entries never increase. *)
Definition non_increasing (ts : list R) : Prop :=
  forall (i : nat) (a b : R),
    ts !! i = Some a -> ts !! S i = Some b -> b <= a.

(** The boundaries of a stack crossed by the heat flow [P], from the
    temperature [T] at the innermost boundary outward. *)
Fixpoint boundary_profile (P : R) (ls : list CableLayer) (T : R)
  : list (R * R * string) :=
  match ls with
  | [] => []
  | l :: ls' =>
      let T' := T - P * layer_resistance l in
      (inner_radius l, T, name l) :: (outer_radius l, T', name l)
        :: boundary_profile P ls' T'
  end.

(** The temperature at the outermost boundary. *)
Definition outer_temperature (P : R) (ls : list CableLayer) (T : R) : R :=
  fold_left (fun T l => T - P * layer_resistance l) ls T.

(** The wall resistance [0.13 + sum d_i / lambda_i + 0.04], for layers
    given as pairs of a thickness and a conductivity. *)
Definition wall_resistance (layers : list (R * R)) : R :=
  0.13 + fold_right (fun dl acc => fst dl / snd dl + acc) 0 layers + 0.04.

(** A layer of a wall whose material the database knows, with a positive
    conductivity. *)
Definition known_positive (db : Thermal.Database) (layer : string * R) : Prop :=
  exists m : Thermal.Material,
    db !! fst layer = Some m /\ 0 < Thermal.lambda m.

(** The thickness and the conductivity of each layer of a wall. *)
Definition wall_layers (db : Thermal.Database) (layers : list (string * R))
  : list (R * R) :=
  map (fun layer =>
         (snd layer,
          match db !! fst layer with
          | Some m => Thermal.lambda m
          | None => 0
          end)) layers.

End Spec.

(** ** Configurations *)

Module Cables.
Import CableModel.

(** The assignment [cable.ambient_temp = t]. *)
Definition set_ambient_temp (t : R) : method CableConfiguration unit :=
  modify (fun self =>
    mkCableConfiguration (cfg_name self) (layers self) (external_layers self)
      (current self) t (max_conductor_temp self)).

(** The assignment [cable.max_conductor_temp = t]. *)
Definition set_max_conductor_temp (t : R) : method CableConfiguration unit :=
  modify (fun self =>
    mkCableConfiguration (cfg_name self) (layers self) (external_layers self)
      (current self) (ambient_temp self) t).

(** The object a sequence of calls leaves behind, from a fresh
    [CableConfiguration(name)]. *)
Definition build (name : string) (calls : method CableConfiguration unit)
  : CableConfiguration :=
  snd (calls (init name)).

(** The conductor of the medium-voltage cable of the library. *)
Definition mv_conductor : CableLayer :=
  mkCableLayer "Conductor (Cu)" "Copper" 0 8.7 380 0.0175 0.00393.

(** [CableMaterialLibrary.create_mv_cable_240mm2_xlpe()]. *)
Definition create_mv_cable_240mm2_xlpe : CableConfiguration :=
  build "MV 240mm² Cu/XLPE 20kV"
    (add_layer mv_conductor ;;;
     add_layer (mkCableLayer "Conductor Screen" "Semiconducting XLPE" 8.7 9.4 0.286 0 0) ;;;
     add_layer (mkCableLayer "Insulation (XLPE)" "XLPE" 9.4 14.9 0.286 0 0) ;;;
     add_layer (mkCableLayer "Insulation Screen" "Semiconducting XLPE" 14.9 15.6 0.286 0 0) ;;;
     add_layer (mkCableLayer "Metallic Screen (Cu)" "Copper" 15.6 17.1 380 0 0) ;;;
     add_layer (mkCableLayer "Outer Sheath (PE)" "PE" 17.1 19.6 0.4 0 0) ;;;
     set_max_conductor_temp 90 ;;;
     add_external_layer (mkCableLayer "Soil (Earth)" "Soil" 19.6 1000 1 0 0)).

(** The conductor of [create_enhanced_mv_cable_in_air]. *)
Definition enhanced_conductor : CableLayer :=
  mkCableLayer "Leiter (Cu)" "Kupfer" 0 9.79 380 0.01724 0.00393.

(** The attributes of [create_enhanced_mv_cable_in_air(400, 25, 1.0)]
    that [CableConfiguration] declares.  The constructor of the dataclass
    sets the layers, the current and the ambient temperature; the name and
    the rated temperature, which it leaves unset and no method applied to
    this object below reads, have the defaults of the base class here. *)
Definition create_enhanced_mv_cable_in_air : CableConfiguration :=
  mkCableConfiguration "Custom Cable"
    [ enhanced_conductor;
      mkCableLayer "Leiter-Halbleiter" "XLPE" 9.79 11.29 0.286 0 0;
      mkCableLayer "Isolierung (XLPE)" "XLPE" 11.29 20.79 0.286 0 0;
      mkCableLayer "Isolierungs-Halbleiter" "XLPE" 20.79 22.29 0.286 0 0;
      mkCableLayer "Kupferschirm" "Kupfer" 22.29 23.29 380 0 0;
      mkCableLayer "Außenmantel (PVC)" "PVC" 23.29 25.79 0.16 0 0 ]
    [] 400 25 90.

(** A bare copper conductor in surroundings that are at the rated
    temperature already. *)
Definition bare_conductor : CableConfiguration :=
  build "Bare conductor" (add_layer mv_conductor ;;; set_ambient_temp 90).

(** The layer of the specification's example: 10 mm to 20 mm,
    1 W/(m K). *)
Definition reference_layer : CableLayer :=
  mkCableLayer "Insulation" "XLPE" 10 20 1 0 0.

(** A layer of zero thickness. *)
Definition thin_layer : CableLayer :=
  mkCableLayer "Insulation" "XLPE" 10 10 1 0 0.

(** A layer whose conductivity was entered negative. *)
Definition inverted_layer : CableLayer :=
  mkCableLayer "Insulation" "XLPE" 10 20 (-1) 0 0.

(** A single shell whose conductivity was entered as zero. *)
Definition zero_conductivity_cable : CableConfiguration :=
  build "Zero conductivity"
    (add_layer (mkCableLayer "Conductor (Cu)" "Copper" 1 2 0 0.0175 0.00393)).

(** A hollow copper conductor, no temperature coefficient, with the
    conductivity of a near-perfect insulator. *)
Definition insulated_conductor : CableLayer :=
  mkCableLayer "Conductor (Cu)" "Copper" 1 2 0.0000000001 0.0175 0.

Definition insulated_tube : CableConfiguration :=
  build "Insulated tube" (add_layer insulated_conductor).

(** A hollow copper conductor with the conductivity of XLPE, carrying
    1000 A. *)
Definition overloaded_conductor : CableLayer :=
  mkCableLayer "Conductor (Cu)" "Copper" 1 2 0.286 0.0175 0.00393.

Definition overloaded_tube : CableConfiguration :=
  build "Overloaded tube"
    (add_layer overloaded_conductor ;;; modify (set_current 1000)).

(** A hollow copper conductor, no temperature coefficient, under XLPE,
    carrying 100 A. *)
Definition hollow_cable : CableConfiguration :=
  build "Hollow cable"
    (add_layer (mkCableLayer "Conductor (Cu)" "Copper" 4 8.7 380 0.0175 0) ;;;
     add_layer (mkCableLayer "Insulation (XLPE)" "XLPE" 8.7 14.9 0.286 0 0) ;;;
     modify (set_current 100)).

End Cables.

(** ** material_database.py and thermal_calculator.py, continued *)

Module Calculator.
Import Thermal.

(** [MaterialDatabase.get_density]. *)
Definition get_density (name : string) : method Database (option R) :=
  material <- get_material name ;;
  ret (match material with
       | Some m => Some (density m)
       | None => None
       end).

(** [MaterialDatabase.get_specific_heat]. *)
Definition get_specific_heat (name : string) : method Database (option R) :=
  material <- get_material name ;;
  ret (match material with
       | Some m => Some (specific_heat m)
       | None => None
       end).

(** The dictionary [calculate_thermal_mass] returns. *)
Record ThermalMass : Type := mkThermalMass {
  thermal_mass_J_K : R;
  mass_kg : R;
  density_kg_m3 : R;
  specific_heat_J_kgK : R;
  volume_m3 : R
}.

(** [ThermalCalculator.calculate_thermal_mass(material_name, volume)]. *)
Definition calculate_thermal_mass (material_name : string) (volume : R)
  : method Database ThermalMass :=
  density <- get_density material_name ;;
  specific_heat <- get_specific_heat material_name ;;
  match density, specific_heat with
  | Some density, Some specific_heat =>
      let mass := density * volume in
      let thermal_mass := density * specific_heat * volume in
      ret (mkThermalMass thermal_mass mass density specific_heat volume)
  | _, _ => raise ValueError
  end.

(** [t / c] for a float [t] that may be [float('inf')] and a positive
    literal [c]: infinity stays infinity. *)
Definition div_literal (t : xfloat) (c : R) : result xfloat :=
  match t with
  | Finite x => let* q := truediv x c in Ok (Finite q)
  | PlusInfinity => Ok PlusInfinity
  end.

(** The dictionary [calculate_cooling_heating_time] returns. *)
Record HeatingTime : Type := mkHeatingTime {
  time_seconds : xfloat;
  time_minutes : xfloat;
  time_hours : xfloat;
  energy_required_J : R;
  energy_required_kWh : R;
  power_W : R;
  temp_change_K : R
}.

(** [ThermalCalculator.calculate_cooling_heating_time]. *)
Definition calculate_cooling_heating_time (material_name : string)
  (volume temp_change power : R) : method Database HeatingTime :=
  thermal_mass_result <- calculate_thermal_mass material_name volume ;;
  let thermal_mass := thermal_mass_J_K thermal_mass_result in
  let energy_required := thermal_mass * temp_change in
  time_seconds <- (if gt power 0
                   then q <- lift (truediv energy_required power) ;;
                        ret (Finite q)
                   else ret PlusInfinity) ;;
  time_hours <- lift (div_literal time_seconds 3600) ;;
  time_minutes <- lift (div_literal time_seconds 60) ;;
  energy_kWh <- lift (truediv energy_required 3600000) ;;
  ret (mkHeatingTime time_seconds time_minutes time_hours energy_required
         energy_kWh power temp_change).

(** The local function [saturation_pressure] of
    [calculate_condensation_risk] (Magnus formula).  [math.exp] is the
    real exponential: the theorems about it keep the temperature between
    -200 and 200 degC, where the float exponential neither overflows nor
    underflows. *)
Definition saturation_pressure (temp : R) : result R :=
  let* q := truediv (17.27 * temp) (237.3 + temp) in
  Ok (610.7 * exp q).

(** The local function [dew_point] of [calculate_condensation_risk]. *)
Definition dew_point (temp humidity : R) : result R :=
  let* ps := saturation_pressure temp in
  let pv := ps * humidity / 100 in
  let* ratio := truediv pv 610.7 in
  let* lg := math_log ratio in
  let* ratio' := truediv pv 610.7 in
  let* lg' := math_log ratio' in
  let* r := truediv (237.3 * lg) (17.27 - lg') in
  Ok r.

(** A float that may be infinite or not a number: what the arithmetic of
    [calculate_temperature_distribution] yields from the [float('inf')] of
    [calculate_u_value]. *)
Inductive efloat : Type :=
| Real (x : R)
| Inf (negative : bool)
| NaN.

Definition of_xfloat (u : xfloat) : efloat :=
  match u with
  | Finite x => Real x
  | PlusInfinity => Inf false
  end.

(** [a * b]: an infinity times zero is not a number. *)
Definition emul (a b : efloat) : efloat :=
  match a, b with
  | NaN, _ | _, NaN => NaN
  | Real x, Real y => Real (x * y)
  | Inf s, Inf s' => Inf (xorb s s')
  | Inf s, Real y | Real y, Inf s =>
      if Req_dec_T y 0 then NaN else Inf (xorb s (lt y 0))
  end.

(** [a - b]: the difference of equal infinities is not a number. *)
Definition esub (a b : efloat) : efloat :=
  match a, b with
  | NaN, _ | _, NaN => NaN
  | Real x, Real y => Real (x - y)
  | Inf s, Real _ => Inf s
  | Real _, Inf s => Inf (negb s)
  | Inf s, Inf s' => if Bool.eqb s s' then NaN else Inf s
  end.

(** [a / d] for a finite [d]: a zero divisor raises whatever [a] is. *)
Definition ediv (a : efloat) (d : R) : result efloat :=
  if Req_dec_T d 0 then Raise ZeroDivisionError
  else Ok (match a with
           | Real x => Real (x / d)
           | Inf s => Inf (xorb s (lt d 0))
           | NaN => NaN
           end).

(** What a call yields besides the exceptions of [Py.exn]: a value, or
    the [TypeError] of arithmetic on [None]. *)
Inductive typed (A : Type) : Type :=
| Value (a : A)
| RaiseTypeError.

Arguments Value {A} a.
Arguments RaiseTypeError {A}.

(** The dictionary [calculate_temperature_distribution] returns. *)
Record Distribution : Type := mkDistribution {
  positions_m : list R;
  temperatures_C : list efloat;
  heat_flux_W_m2 : efloat;
  td_u_value_W_m2K : xfloat;
  temp_drop_inside : efloat;
  temp_drop_outside : efloat
}.

(** The local variables of the loops of
    [calculate_temperature_distribution]; [type_error] is set when the
    body divides by a [lambda_value] that is [None]. *)
Record DLocals : Type := mkDLocals {
  temperatures : list efloat;
  positions : list R;
  current_position : R;
  type_error : bool
}.

(** One pass of the validation loop [for i, layer in enumerate(layers)];
    a layer is a triple by its type. *)
Definition validate_layer (layer : string * R * Z) (_ : unit)
  : method Database (flow * unit) :=
  let '(material, thickness, points) := layer in
  if le thickness 0 then raise ValueError
  else if Z.leb points 0 then raise ValueError
  else ret (Next, tt).

(** One pass of [for i in range(points)]. *)
Definition point_step (q : efloat) (thickness : R) (points : Z)
  (lambda_value : option R) (i : nat) (v : DLocals)
  : method Database (flow * DLocals) :=
  a <- lift (truediv (IZR (Z.of_nat i + 1)) (IZR points)) ;;
  let x := a * thickness in
  d <- lift (truediv thickness (IZR points)) ;;
  let current_position := current_position v + d in
  prev <- lift (match last (temperatures v) with
                | Some t => Ok t
                | None => Raise IndexError
                end) ;;
  match lambda_value with
  | None =>
      ret (Break,
           mkDLocals (temperatures v) (positions v) current_position true)
  | Some lambda_value =>
      t <- lift (ediv (emul q (Real x)) lambda_value) ;;
      let temp := esub prev t in
      ret (Next,
           mkDLocals (temperatures v ++ [temp])
             (positions v ++ [current_position]) current_position false)
  end.

(** One pass of [for material_name, thickness, points in layers]. *)
Definition distribution_step (q : efloat) (layer : string * R * Z)
  (v : DLocals) : method Database (flow * DLocals) :=
  let '(material_name, thickness, points) := layer in
  lambda_value <- get_lambda material_name ;;
  v' <- for_in (range (Z.to_nat points))
          (point_step q thickness points lambda_value) v ;;
  ret (if type_error v' then Break else Next, v').

(** [ThermalCalculator.calculate_temperature_distribution(layers,
    temp_inside, temp_outside)]. *)
Definition calculate_temperature_distribution
  (layers : list (string * R * Z)) (temp_inside temp_outside : R)
  : method Database (typed Distribution) :=
  match layers with
  | [] => raise ValueError
  | _ =>
      for_in layers validate_layer tt ;;;
      u_result <- calculate_u_value
                    (map (fun layer : string * R * Z =>
                            (fst (fst layer), snd (fst layer))) layers) ;;
      let u_value := u_value_W_m2K u_result in
      let q := emul (of_xfloat u_value) (Real (temp_inside - temp_outside)) in
      let R_si := 0.13 in
      let temp_surface_inside := esub (Real temp_inside) (emul q (Real R_si)) in
      v <- for_in layers (distribution_step q)
             (mkDLocals [Real temp_inside; temp_surface_inside] [0; 0] 0
                false) ;;
      if type_error v then ret RaiseTypeError
      else
        let R_se := 0.04 in
        prev <- lift (match last (temperatures v) with
                      | Some t => Ok t
                      | None => Raise IndexError
                      end) ;;
        let temp_surface_outside := esub prev (emul q (Real R_se)) in
        ret (Value
               (mkDistribution
                  (positions v ++ [current_position v])
                  (temperatures v ++ [Real temp_outside])
                  q u_value
                  (esub (Real temp_inside) temp_surface_inside)
                  (esub temp_surface_outside (Real temp_outside))))
  end.

(** A layer [calculate_temperature_distribution] accepts, of a material
    the database knows with a positive conductivity. *)
Definition valid_wall_layer (db : Database) (layer : string * R * Z) : Prop :=
  0 < snd (fst layer) /\ (0 < snd layer)%Z /\
  exists m : Material, db !! fst (fst layer) = Some m /\ 0 < lambda m.

(** The number of points computed inside the layers. *)
Definition total_points (layers : list (string * R * Z)) : nat :=
  fold_right (fun layer acc => (Z.to_nat (snd layer) + acc)%nat) 0%nat layers.

(** The conductivity the database has for a material, zero for an unknown
    one. *)
Definition lambda_of (db : Database) (material_name : string) : R :=
  match db !! material_name with
  | Some m => lambda m
  | None => 0
  end.

(** The series resistance [sum d_i / lambda_i] of the layers. *)
Definition layers_resistance (db : Database) (layers : list (string * R * Z))
  : R :=
  fold_right
    (fun layer acc =>
       snd (fst layer) / lambda_of db (fst (fst layer)) + acc) 0 layers.

(** The resistance counted beyond [d_i / lambda_i] by the points of the
    layers: [sum (d_i / lambda_i) (points_i - 1) / 2]. *)
Definition excess_resistance (db : Database)
  (layers : list (string * R * Z)) : R :=
  fold_right
    (fun layer acc =>
       snd (fst layer) / lambda_of db (fst (fst layer))
       * ((IZR (snd layer) - 1) / 2) + acc) 0 layers.

(** The thickness of the wall. *)
Definition total_thickness (layers : list (string * R * Z)) : R :=
  fold_right (fun layer acc => snd (fst layer) + acc) 0 layers.

(** The local variables of the layer loop when no [TypeError] was met:
    [n] temperatures and positions so far, of which the first temperature
    is [temp_inside] and the last one [t], at the position [cp]. *)
Definition profile_state (temp_inside : R) (v : DLocals) (n : nat)
  (t cp : R) : Prop :=
  type_error v = false /\
  length (temperatures v) = n /\ length (positions v) = n /\
  head (temperatures v) = Some (Real temp_inside) /\
  last (temperatures v) = Some (Real t) /\
  last (positions v) = Some cp /\
  current_position v = cp.

End Calculator.

(** ** advanced_thermal_physics.py *)

Module Physics.
Import CableModel.

(** [math.sqrt(x)]: a domain error below zero. *)
Definition math_sqrt (x : R) : result R :=
  if lt x 0 then Raise ValueError else Ok (sqrt x).

(** [@dataclass class RadiationParameters]. *)
Record RadiationParameters : Type := mkRadiationParameters {
  emissivity : R;
  surrounding_temp : R;
  view_factor : R;
  stefan_boltzmann : R
}.

(** [RadiationParameters()] with its defaults. *)
Definition default_radiation : RadiationParameters :=
  mkRadiationParameters 0.9 20 1 0.0000000567.

(** [RadiationModel.calculate_radiation_heat_flux]. *)
Definition calculate_radiation_heat_flux (params : RadiationParameters)
  (surface_temp surface_area : R) : R :=
  let t_surface_k := surface_temp + 273.15 in
  let t_surr_k := surrounding_temp params + 273.15 in
  emissivity params * stefan_boltzmann params * view_factor params
  * surface_area * (t_surface_k ^ 4 - t_surr_k ^ 4).

(** [SkinEffectModel.calculate_skin_depth(frequency, resistivity,
    mu_r=1.0)]. *)
Definition calculate_skin_depth (frequency resistivity mu_r : R)
  : result xfloat :=
  let mu_0 := 4 * math_pi * 0.0000001 in
  if lt frequency 0.1 then Ok PlusInfinity
  else
    let* q := truediv resistivity (math_pi * frequency * mu_0 * mu_r) in
    let* delta := math_sqrt q in
    Ok (Finite delta).

(** [SkinEffectModel.calculate_ac_resistance]; a finite radius over
    [float('inf')] is zero. *)
Definition calculate_ac_resistance
  (r_dc conductor_radius frequency resistivity : R) : result R :=
  let* delta := calculate_skin_depth frequency resistivity 1 in
  let* x := match delta with
            | Finite delta => truediv conductor_radius delta
            | PlusInfinity => Ok 0
            end in
  let* k_skin := (if lt x 1
                  then Ok (1 + x ^ 4 / 48)
                  else let* q := truediv 0.25 x in Ok (x / 2 * (1 + q))) in
  Ok (r_dc * k_skin).

(** [ProximityEffectModel.calculate_proximity_factor(conductor_radius,
    axis_distance, num_conductors=3)]. *)
Definition calculate_proximity_factor (conductor_radius axis_distance : R)
  (num_conductors : Z) : result R :=
  let axis_distance :=
    if lt axis_distance (2 * conductor_radius) then 2 * conductor_radius
    else axis_distance in
  let* s_d := truediv axis_distance (2 * conductor_radius) in
  if Z.eqb num_conductors 2 then
    let* q := truediv 1 (4 * s_d ^ 2) in Ok (1 + q)
  else if Z.eqb num_conductors 3 then
    let* q := truediv (2 * conductor_radius) axis_distance in
    Ok (1 + 0.312 * q ^ 2)
  else Ok 1.

(** [ShieldLossModel.calculate_shield_losses(conductor_current,
    shield_resistance, mutual_inductance, frequency=50)]. *)
Definition calculate_shield_losses
  (conductor_current shield_resistance mutual_inductance frequency : R)
  : result R :=
  let omega := 2 * math_pi * frequency in
  if lt shield_resistance 0.000000001 then Ok 0
  else
    let* i_shield := truediv (conductor_current * (omega * mutual_inductance))
                       shield_resistance in
    let w_shield := i_shield ^ 2 * shield_resistance in
    Ok w_shield.

(** [ShieldLossModel.calculate_mutual_inductance(conductor_radius,
    shield_radius, length=1.0)]. *)
Definition calculate_mutual_inductance
  (conductor_radius shield_radius length : R) : result R :=
  let mu_0 := 4 * math_pi * 0.0000001 in
  if le shield_radius conductor_radius then Ok 0
  else
    let* a := truediv mu_0 (2 * math_pi) in
    let* ratio := truediv shield_radius conductor_radius in
    let* lg := math_log ratio in
    let m := a * lg in
    Ok (m * length).

(** [InstallationFactors.get_grouping_factor(num_cables,
    spacing_ratio)]. *)
Definition get_grouping_factor (num_cables : Z) (spacing_ratio : R) : R :=
  if Z.eqb num_cables 1 then 1
  else
    let factors : gmap Z R :=
      if lt spacing_ratio 0.25
      then list_to_map [(2%Z, 0.75); (3%Z, 0.65); (4%Z, 0.60); (6%Z, 0.55)]
      else if lt spacing_ratio 0.5
           then list_to_map [(2%Z, 0.80); (3%Z, 0.70); (4%Z, 0.65); (6%Z, 0.60)]
           else list_to_map [(2%Z, 0.85); (3%Z, 0.75); (4%Z, 0.70); (6%Z, 0.65)] in
    default 0.5 (factors !! num_cables).

(** [InstallationFactors.get_soil_thermal_resistivity(soil_type,
    moisture=0.1)]. *)
Definition get_soil_thermal_resistivity (soil_type : string) (moisture : R)
  : R :=
  let base_values : gmap string R :=
    list_to_map [("sand", 1.2); ("clay", 1); ("gravel", 1.5); ("rock", 2.5);
                 ("peat", 2)]%string in
  let base := default 1 (base_values !! soil_type) in
  let moisture_factor := 1 - 0.5 * moisture in
  base * moisture_factor.

(** An object passed to [calculate_thermal_capacitance]: its radii, and
    the attributes [density] and [specific_heat] when it has them. *)
Record LayerObject : Type := mkLayerObject {
  obj_inner_radius : R;
  obj_outer_radius : R;
  obj_density : option R;
  obj_specific_heat : option R
}.

(** A [CableLayer] seen as such an object: the dataclass declares
    neither [density] nor [specific_heat]. *)
Definition of_cable_layer (l : CableLayer) : LayerObject :=
  mkLayerObject (inner_radius l) (outer_radius l) None None.

(** [TransientThermalModel.calculate_thermal_capacitance(layers,
    length=1.0)]; [hasattr] holds when the attribute is there. *)
Definition calculate_thermal_capacitance (layers : list LayerObject)
  (length : R) : R :=
  fold_left
    (fun c_total layer =>
       let volume := math_pi * ((obj_outer_radius layer) ^ 2
                                - (obj_inner_radius layer) ^ 2) * length in
       match obj_density layer, obj_specific_heat layer with
       | Some density, Some specific_heat =>
           let c_layer := density * specific_heat * volume in
           c_total + c_layer
       | _, _ => c_total
       end)
    layers 0.

(** [TransientThermalModel.calculate_time_constant]. *)
Definition calculate_time_constant
  (thermal_resistance thermal_capacitance : R) : R :=
  thermal_resistance * thermal_capacitance.

(** [TransientThermalModel.calculate_transient_temperature]; [math.exp]
    is the real exponential, the time is not negative in the theorems
    about it. *)
Definition calculate_transient_temperature
  (t_initial t_final time time_constant : R) : result R :=
  let* q := truediv (- time) time_constant in
  Ok (t_final + (t_initial - t_final) * exp q).

End Physics.

(** ** cable_spacing_optimization.py: the cable group *)

Module CableGroup.

(** [@dataclass class CablePosition]; [y] is the depth. *)
Record CablePosition : Type := mkCablePosition {
  x : R;
  y : R;
  cable_config : CableModel.CableConfiguration;
  load_factor : R
}.

(** [CablePosition.distance_to(self, other)]. *)
Definition distance_to (self other : CablePosition) : result R :=
  Physics.math_sqrt ((x self - x other) ^ 2 + (y self - y other) ^ 2).

(** The attributes of [CableGroupConfiguration]. *)
Record CableGroupConfiguration : Type := mkCableGroupConfiguration {
  cables : list CablePosition;
  soil_resistivity : R;
  ambient_temp : R;
  soil_temp_gradient : R
}.

(** [self.cables[i]]. *)
Definition cable_at (i : nat) : method CableGroupConfiguration CablePosition :=
  fun self =>
    match cables self !! i with
    | Some c => (Ok c, self)
    | None => (Raise IndexError, self)
    end.

(** [np.zeros((n, m))]. *)
Definition zeros (n m : nat) : list (list R) := replicate n (replicate m 0).

(** [R_matrix[i, j] = v] on an array. *)
Definition setitem (R_matrix : list (list R)) (i j : nat) (v : R)
  : result (list (list R)) :=
  match R_matrix !! i with
  | Some row =>
      if Nat.ltb j (length row) then Ok (<[i := <[j := v]> row]> R_matrix)
      else Raise IndexError
  | None => Raise IndexError
  end.

(** One pass of [for j in range(n)] in the row [i]. *)
Definition mutual_heating_entry (i j : nat) (R_matrix : list (list R))
  : method CableGroupConfiguration (flow * list (list R)) :=
  if negb (Nat.eqb i j) then
    self_i <- cable_at i ;;
    self_j <- cable_at j ;;
    distance <- lift (distance_to self_i self_j) ;;
    self_i <- cable_at i ;;
    let depth := y self_i in
    rho <- gets soil_resistivity ;;
    r <- lift (Spacing.calculate_mutual_thermal_resistance distance depth
                 rho) ;;
    R_matrix <- lift (setitem R_matrix i j r) ;;
    ret (Next, R_matrix)
  else ret (Next, R_matrix).

(** [CableGroupConfiguration.calculate_mutual_heating_matrix]. *)
Definition calculate_mutual_heating_matrix
  : method CableGroupConfiguration (list (list R)) :=
  n <- gets (fun self => length (cables self)) ;;
  for_in (range n)
    (fun i R_matrix =>
       R_matrix <- for_in (range n) (mutual_heating_entry i) R_matrix ;;
       ret (Next, R_matrix))
    (zeros n n).

(** The mutual thermal resistance of IEC 60287-2-1 between two cables,
    as the cable [a] sees it: zero for cables at the same place, and
    never below zero. *)
Definition mutual_resistance (rho : R) (a b : CablePosition) : R :=
  let d := sqrt ((x a - x b) ^ 2 + (y a - y b) ^ 2) in
  if le d 0 then 0
  else Py.max 0 (rho / (2 * math_pi) * ln (2 * y a / d)).

(** The rows before [i], and the columns before [s] of the row [i], of
    [R_matrix] are filled in, the other entries are zero. *)
Definition filled (self : CableGroupConfiguration) (i s : nat)
  (R_matrix : list (list R)) : Prop :=
  length R_matrix = length (cables self) /\
  forall (i' j' : nat) (a b : CablePosition),
    cables self !! i' = Some a -> cables self !! j' = Some b ->
    exists row : list R,
      R_matrix !! i' = Some row /\ length row = length (cables self) /\
      row !! j'
        = Some (if (Nat.ltb i' i || (Nat.eqb i' i && Nat.ltb j' s))
                   && negb (Nat.eqb i' j')
                then mutual_resistance (soil_resistivity self) a b
                else 0).

End CableGroup.

(** ** Walls *)

Module Walls.

(** A wall of 20 cm of concrete, computed at two points. *)
Definition concrete_wall : list (string * R * Z) :=
  [("Beton (Normal)"%string, 0.2, 2%Z)].

End Walls.

(** ** Cable groups *)

Module Groups.

(** Two medium-voltage cables side by side, half a metre apart and one
    metre deep, in a soil of 1 K m / W. *)
Definition pair_of_cables : CableGroup.CableGroupConfiguration :=
  CableGroup.mkCableGroupConfiguration
    [CableGroup.mkCablePosition 0 1 Cables.create_mv_cable_240mm2_xlpe 1;
     CableGroup.mkCablePosition 0.5 1 Cables.create_mv_cable_240mm2_xlpe 1]
    1 20 0.03.

End Groups.

Import CableModel Spec.

(** * Theorems *)

(** ** Python primitives *)

Lemma le_true (x y : R) : x <= y -> le x y = true.
Proof. intros H. unfold le. destruct (Rle_dec x y); [reflexivity | contradiction]. Qed.

Lemma le_false (x y : R) : y < x -> le x y = false.
Proof. intros H. unfold le. destruct (Rle_dec x y); [lra | reflexivity]. Qed.

Lemma lt_true (x y : R) : x < y -> lt x y = true.
Proof. intros H. unfold lt. destruct (Rlt_dec x y); [reflexivity | contradiction]. Qed.

Lemma lt_false (x y : R) : y <= x -> lt x y = false.
Proof. intros H. unfold lt. destruct (Rlt_dec x y); [lra | reflexivity]. Qed.

Lemma truediv_ok (x y : R) : y <> 0 -> truediv x y = Ok (x / y).
Proof. intros H. unfold truediv. destruct (Req_dec_T y 0); [contradiction | reflexivity]. Qed.

Lemma truediv_zero (x : R) : truediv x 0 = Raise ZeroDivisionError.
Proof. unfold truediv. destruct (Req_dec_T 0 0); [reflexivity | contradiction]. Qed.

Lemma math_log_ok (x : R) : 0 < x -> math_log x = Ok (ln x).
Proof. intros H. unfold math_log. destruct (Rlt_dec 0 x); [reflexivity | contradiction]. Qed.

Lemma two_pi_nonzero : 2 * math_pi <> 0.
Proof. unfold math_pi. pose proof PI_RGT_0. lra. Qed.

(** Writes the decimal literals of a goal as quotients of integers, the
    form [field] and [ring] know. *)
Ltac decimals := unfold Q2R; cbn [QArith_base.Qnum QArith_base.Qden].

(** Decides the comparisons of a goal on concrete numbers. *)
Ltac py_decide :=
  repeat first
    [ rewrite le_true by lra
    | rewrite le_false by lra
    | rewrite lt_true by lra
    | rewrite lt_false by lra
    | rewrite truediv_ok by lra ].

(** ** The layer: thermal resistance *)

Lemma guard_passes (l : CableLayer) :
  valid_geometry l ->
  le (inner_radius l) 0 || le (outer_radius l) (inner_radius l) = false.
Proof.
  intros [Hi Ho]. rewrite (le_false _ _ Hi), (le_false _ _ Ho). reflexivity.
Qed.

Lemma guard_fails (l : CableLayer) :
  inner_radius l <= 0 \/ outer_radius l <= inner_radius l ->
  le (inner_radius l) 0 || le (outer_radius l) (inner_radius l) = true.
Proof.
  intros [H | H]; rewrite (le_true _ _ H); [reflexivity | apply orb_true_r].
Qed.

Lemma ratio_above_one (l : CableLayer) :
  valid_geometry l -> 1 < outer_radius l / inner_radius l.
Proof.
  intros [Hi Ho].
  apply Rmult_lt_reg_r with (inner_radius l); [assumption |].
  unfold Rdiv. rewrite Rmult_assoc, Rinv_l by lra. lra.
Qed.

(** With valid geometry and a conductivity that is not zero the method
    returns the shell resistance. *)
Lemma get_thermal_resistance_shell (l : CableLayer) (length : R) :
  valid_geometry l -> thermal_conductivity l <> 0 ->
  get_thermal_resistance l length = Ok (shell_resistance l).
Proof.
  intros Hg Hk. pose proof (ratio_above_one l Hg) as Hr.
  unfold get_thermal_resistance. rewrite (guard_passes l Hg).
  rewrite (truediv_ok 1 _ Hk). cbn [rbind].
  rewrite truediv_ok by (destruct Hg; lra). cbn [rbind].
  rewrite math_log_ok by lra. cbn [rbind].
  rewrite (truediv_ok _ _ two_pi_nonzero). cbn [rbind].
  f_equal. unfold shell_resistance, math_pi. field.
  split; [assumption | pose proof PI_RGT_0; lra].
Qed.

(** C1: for a layer with [0 < inner_radius < outer_radius] and positive
    conductivity, [get_thermal_resistance] returns
    [ln(outer_radius / inner_radius) / (2 pi conductivity)]. *)
Theorem get_thermal_resistance_formula (self : CableLayer) (length : R) :
  0 < inner_radius self ->
  inner_radius self < outer_radius self ->
  0 < thermal_conductivity self ->
  get_thermal_resistance self length =
    Ok (ln (outer_radius self / inner_radius self)
        / (2 * PI * thermal_conductivity self)).
Proof.
  intros Hi Ho Hk.
  apply get_thermal_resistance_shell; [split; assumption | lra].
Qed.

(** The instance of the specification: radii 10 mm and 20 mm, conductivity
    1 W/(m K) give [ln 2 / (2 pi)]. *)
Lemma get_thermal_resistance_formula_witness :
  get_thermal_resistance Cables.reference_layer 1 = Ok (ln 2 / (2 * PI)).
Proof.
  rewrite get_thermal_resistance_formula; cbn; [| lra | lra | lra].
  f_equal. f_equal; [f_equal; lra | lra].
Defined.

(** Without a guard on the conductivity, a zero conductivity divides by
    zero and a negative one gives a negative resistance. *)
Lemma get_thermal_resistance_zero_conductivity (l : CableLayer) (length : R) :
  valid_geometry l -> thermal_conductivity l = 0 ->
  get_thermal_resistance l length = Raise ZeroDivisionError.
Proof.
  intros Hg Hk. unfold get_thermal_resistance.
  rewrite (guard_passes l Hg), Hk, truediv_zero. reflexivity.
Qed.

Lemma shell_resistance_sign (l : CableLayer) :
  valid_geometry l ->
  (0 < thermal_conductivity l -> 0 < shell_resistance l) /\
  (thermal_conductivity l < 0 -> shell_resistance l < 0).
Proof.
  intros Hg. pose proof (ratio_above_one l Hg) as Hr.
  assert (Hln : 0 < ln (outer_radius l / inner_radius l)).
  { rewrite <- ln_1. apply ln_increasing; lra. }
  pose proof PI_RGT_0 as Hpi. unfold shell_resistance. split; intros Hk.
  - apply Rdiv_lt_0_compat; [assumption | nra].
  - set (x := ln (outer_radius l / inner_radius l)) in *.
    assert (Hpos : 0 < x / (2 * PI * - thermal_conductivity l))
      by (apply Rdiv_lt_0_compat; [assumption | nra]).
    replace (x / (2 * PI * thermal_conductivity l))
      with (- (x / (2 * PI * - thermal_conductivity l)))
      by (field; split; lra).
    lra.
Qed.

Lemma calculate_heat_flow_thin (db : Thermal.Database) (material_name : string)
  (area thickness temp_diff : R) :
  thickness <= 0 ->
  Thermal.calculate_heat_flow material_name area thickness temp_diff db
    = (Raise ValueError, db).
Proof.
  intros Ht. unfold Thermal.calculate_heat_flow.
  destruct (String.eqb material_name ""); [reflexivity |].
  destruct (le area 0); [reflexivity |].
  rewrite (le_true _ _ Ht). reflexivity.
Qed.

Lemma calculate_heat_flow_bad_lambda (db : Thermal.Database)
  (material_name : string) (m : Thermal.Material)
  (area thickness temp_diff : R) :
  db !! material_name = Some m -> Thermal.lambda m <= 0 ->
  Thermal.calculate_heat_flow material_name area thickness temp_diff db
    = (Raise ValueError, db).
Proof.
  intros Hm Hl. unfold Thermal.calculate_heat_flow.
  destruct (String.eqb material_name ""); [reflexivity |].
  destruct (le area 0); [reflexivity |].
  destruct (le thickness 0); [reflexivity |].
  unfold Thermal.get_lambda, Thermal.get_material, bind, gets, ret.
  rewrite Hm, (le_true _ _ Hl). reflexivity.
Qed.

(** C2 (as the code has it): [get_thermal_resistance] raises no validation
    error.  A geometry that fails its guard gives [0.0]; with a geometry
    that passes it, a zero conductivity raises [ZeroDivisionError] and a
    negative conductivity gives the negative value
    [ln(outer_radius / inner_radius) / (2 pi thermal_conductivity)].  The
    planar [calculate_heat_flow] is the operation that raises
    [ValueError], for a thickness or a conductivity that is not
    positive. *)
Theorem get_thermal_resistance_unvalidated (self : CableLayer) (length : R) :
  (inner_radius self <= 0 \/ outer_radius self <= inner_radius self ->
   get_thermal_resistance self length = Ok 0) /\
  (valid_geometry self -> thermal_conductivity self = 0 ->
   get_thermal_resistance self length = Raise ZeroDivisionError) /\
  (valid_geometry self -> thermal_conductivity self < 0 ->
   get_thermal_resistance self length
     = Ok (ln (outer_radius self / inner_radius self)
           / (2 * PI * thermal_conductivity self)) /\
   ln (outer_radius self / inner_radius self)
     / (2 * PI * thermal_conductivity self) < 0) /\
  (forall db material_name m area thickness temp_diff,
     thickness <= 0 \/
     (db !! material_name = Some m /\ Thermal.lambda m <= 0) ->
     Thermal.calculate_heat_flow material_name area thickness temp_diff db
       = (Raise ValueError, db)).
Proof.
  split; [| split; [| split]].
  - intros H. unfold get_thermal_resistance.
    rewrite (guard_fails self H). reflexivity.
  - apply get_thermal_resistance_zero_conductivity.
  - intros Hg Hk. fold (shell_resistance self). split.
    + apply get_thermal_resistance_shell; [assumption | lra].
    + apply (shell_resistance_sign self Hg); assumption.
  - intros db material_name m area thickness temp_diff [Ht | [Hm Hl]].
    + apply calculate_heat_flow_thin; assumption.
    + eapply calculate_heat_flow_bad_lambda; eassumption.
Qed.

(** A zero-thickness layer at work: the result is [0.0]. *)
Lemma get_thermal_resistance_unvalidated_witness :
  get_thermal_resistance Cables.thin_layer 1 = Ok 0.
Proof.
  apply (get_thermal_resistance_unvalidated Cables.thin_layer 1).
  right. cbn. lra.
Defined.

(** C2, refuted as stated: a zero-thickness layer satisfies
    [outer_radius <= inner_radius], and the method returns zero instead of
    raising; a layer of negative conductivity returns a negative value. *)
Lemma zero_thickness_returns_zero :
  (outer_radius Cables.thin_layer <= inner_radius Cables.thin_layer /\
   get_thermal_resistance Cables.thin_layer 1 = Ok 0) /\
  (thermal_conductivity Cables.inverted_layer <= 0 /\
   exists r, get_thermal_resistance Cables.inverted_layer 1 = Ok r /\ r < 0).
Proof.
  split; split.
  - cbn. lra.
  - unfold get_thermal_resistance. cbn. py_decide. reflexivity.
  - cbn. lra.
  - assert (Hg : valid_geometry Cables.inverted_layer) by (split; cbn; lra).
    eexists. split.
    + apply get_thermal_resistance_shell; [exact Hg | cbn; lra].
    + apply (shell_resistance_sign _ Hg). cbn. lra.
Qed.

(** ** The layer: electrical resistance *)

(** The method never raises: its only division is guarded. *)
Lemma get_electrical_resistance_total (l : CableLayer) (length T : R) :
  get_electrical_resistance l length T =
    Ok (if le (resistivity l) 0 then 0
        else if le (PI * ((outer_radius l) ^ 2 - (inner_radius l) ^ 2)) 0 then 0
             else resistivity l * length
                  / (PI * ((outer_radius l) ^ 2 - (inner_radius l) ^ 2))
                  * (1 + temp_coefficient l * (T - 20))).
Proof.
  unfold get_electrical_resistance, math_pi.
  destruct (le (resistivity l) 0); [reflexivity |].
  set (area := PI * ((outer_radius l) ^ 2 - (inner_radius l) ^ 2)).
  unfold le. destruct (Rle_dec area 0) as [Ha | Ha]; [reflexivity |].
  rewrite truediv_ok by lra. reflexivity.
Qed.

Lemma get_electrical_resistance_conductor (l : CableLayer) (T : R) :
  get_electrical_resistance l 1 T = Ok (conductor_resistance l T).
Proof.
  rewrite get_electrical_resistance_total. reflexivity.
Qed.

Lemma conductor_resistance_resistive (l : CableLayer) (T : R) :
  resistive l -> conductor_resistance l T = R_at l T.
Proof.
  intros [Hr Ha]. unfold conductor_resistance.
  rewrite (le_false _ _ Hr), (le_false _ _ Ha). reflexivity.
Qed.

(** ** Running methods *)

Lemma bind_ok {S A B : Type} (c : method S A) (k : A -> method S B)
  (s s' : S) (a : A) :
  c s = (Ok a, s') -> bind c k s = k a s'.
Proof. intros H. unfold bind. rewrite H. reflexivity. Qed.

Lemma bind_raise {S A B : Type} (c : method S A) (k : A -> method S B)
  (s s' : S) (e : exn) :
  c s = (Raise e, s') -> bind c k s = (Raise e, s').
Proof. intros H. unfold bind. rewrite H. reflexivity. Qed.

Section Keeps.

Context {S : Type} (rel : S -> S -> Prop).
Hypothesis rel_refl : forall s, rel s s.
Hypothesis rel_trans : forall s1 s2 s3, rel s1 s2 -> rel s2 s3 -> rel s1 s3.

Lemma keeps_ret {A : Type} (a : A) : keeps rel (ret (S := S) a).
Proof. intros s. apply rel_refl. Qed.

Lemma keeps_raise {A : Type} (e : exn) : keeps rel (raise (S := S) (A := A) e).
Proof. intros s. apply rel_refl. Qed.

Lemma keeps_lift {A : Type} (c : result A) : keeps rel (lift (S := S) c).
Proof. intros s. apply rel_refl. Qed.

Lemma keeps_gets {A : Type} (f : S -> A) : keeps rel (gets f).
Proof. intros s. apply rel_refl. Qed.

Lemma keeps_bind {A B : Type} (c : method S A) (k : A -> method S B) :
  keeps rel c -> (forall a, keeps rel (k a)) -> keeps rel (bind c k).
Proof.
  intros Hc Hk s. unfold bind. specialize (Hc s).
  destruct (c s) as [[a | e] s1]; cbn in *.
  - apply rel_trans with s1; [assumption | apply Hk].
  - assumption.
Qed.

Lemma keeps_for_in {X L : Type} (xs : list X)
  (body : X -> L -> method S (flow * L)) :
  (forall x v, keeps rel (body x v)) ->
  forall v, keeps rel (for_in xs body v).
Proof.
  intros Hb. induction xs as [| x xs IH]; intros v; cbn [for_in].
  - apply keeps_ret.
  - apply keeps_bind; [apply Hb |].
    intros [[|] v']; [apply IH | apply keeps_ret].
Qed.

End Keeps.

(** ** What the methods change *)

Section Frame.

Variable rel : CableConfiguration -> CableConfiguration -> Prop.
Hypothesis rel_refl : forall s, rel s s.
Hypothesis rel_trans : forall s1 s2 s3, rel s1 s2 -> rel s2 s3 -> rel s1 s3.

Local Ltac frame :=
  repeat first
    [ apply (keeps_ret rel rel_refl)
    | apply (keeps_raise rel rel_refl)
    | apply (keeps_lift rel rel_refl)
    | apply (keeps_gets rel rel_refl)
    | apply (keeps_bind rel rel_trans)
    | apply (keeps_for_in rel rel_refl rel_trans)
    | intro ].

Lemma keeps_get_conductor_layer : keeps rel get_conductor_layer.
Proof.
  unfold get_conductor_layer. frame. destruct a; frame.
Qed.

Lemma keeps_calculate_conductor_losses (temperature : option R) :
  keeps rel (calculate_conductor_losses temperature).
Proof.
  unfold calculate_conductor_losses. apply (keeps_bind rel rel_trans).
  - destruct temperature; frame.
  - intros T. apply (keeps_bind rel rel_trans);
      [apply keeps_get_conductor_layer | frame].
Qed.

Lemma keeps_get_total_thermal_resistance :
  keeps rel get_total_thermal_resistance.
Proof. unfold get_total_thermal_resistance, add_resistance. frame. Qed.

Lemma keeps_temperature_step (i : nat) (v : TempLocals) :
  keeps rel (temperature_step i v).
Proof.
  unfold temperature_step. apply (keeps_bind rel rel_trans);
    [apply keeps_calculate_conductor_losses | intros P].
  apply (keeps_bind rel rel_trans);
    [apply keeps_get_total_thermal_resistance | intros r].
  frame. destruct (lt _ 0.1); frame.
Qed.

Lemma keeps_calculate_conductor_temperature :
  keeps rel calculate_conductor_temperature.
Proof.
  unfold calculate_conductor_temperature.
  apply (keeps_bind rel rel_trans); [frame | intros t0].
  apply (keeps_bind rel rel_trans); [| frame].
  apply (keeps_for_in rel rel_refl rel_trans). apply keeps_temperature_step.
Qed.

End Frame.

(** The solver reads the configuration and writes nothing. *)
Lemma calculate_conductor_temperature_read_only (cfg : CableConfiguration) :
  snd (calculate_conductor_temperature cfg) = cfg.
Proof.
  symmetry.
  apply (keeps_calculate_conductor_temperature eq (@eq_refl _) (@eq_trans _)).
Qed.

(** ** The configuration: losses and series resistance *)

Lemma le_false_inv (x y : R) : le x y = false -> y < x.
Proof. unfold le. destruct (Rle_dec x y); [discriminate | lra]. Qed.

Lemma guard_false_valid (l : CableLayer) :
  le (inner_radius l) 0 || le (outer_radius l) (inner_radius l) = false ->
  valid_geometry l.
Proof.
  intros H. apply orb_false_elim in H as [Hi Ho].
  split; apply le_false_inv; assumption.
Qed.

Lemma get_thermal_resistance_conducting (l : CableLayer) (length : R) :
  conducting l -> get_thermal_resistance l length = Ok (layer_resistance l).
Proof.
  intros Hc. unfold layer_resistance.
  destruct (le (inner_radius l) 0 || le (outer_radius l) (inner_radius l))
    eqn:Hguard.
  - unfold get_thermal_resistance. rewrite Hguard. reflexivity.
  - apply guard_false_valid in Hguard.
    apply get_thermal_resistance_shell; [assumption | apply Hc; assumption].
Qed.

Lemma valid_layer_conducting (l : CableLayer) : valid_layer l -> conducting l.
Proof. intros [_ Hk] _. lra. Qed.

Lemma layer_resistance_valid (l : CableLayer) :
  valid_layer l -> 0 < layer_resistance l.
Proof.
  intros [Hg Hk]. unfold layer_resistance. rewrite (guard_passes l Hg).
  apply (shell_resistance_sign l Hg). assumption.
Qed.

Lemma series_resistance_app (ls es : list CableLayer) :
  series_resistance (ls ++ es) = series_resistance ls + series_resistance es.
Proof.
  unfold series_resistance. induction ls as [| l ls IH]; cbn.
  - lra.
  - rewrite IH. lra.
Qed.

Lemma add_resistances (ls : list CableLayer) (cfg : CableConfiguration) :
  Forall conducting ls ->
  forall r : R,
    for_in ls add_resistance r cfg = (Ok (r + series_resistance ls), cfg).
Proof.
  induction 1 as [| l ls Hl _ IH]; intros r; cbn [for_in].
  - unfold ret, series_resistance. cbn. do 2 f_equal. lra.
  - unfold add_resistance at 1. unfold bind at 1 2, lift, ret.
    rewrite (get_thermal_resistance_conducting l 1 Hl).
    rewrite IH. do 2 f_equal. unfold series_resistance. cbn. lra.
Qed.

(** When no layer divides by a zero conductivity the accumulator returns
    the series resistance of the internal and external layers. *)
Lemma get_total_thermal_resistance_run (cfg : CableConfiguration) :
  Forall conducting (layers cfg ++ external_layers cfg) ->
  get_total_thermal_resistance cfg
    = (Ok (series_resistance (layers cfg ++ external_layers cfg)), cfg).
Proof.
  intros Hall. apply Forall_app in Hall as [Hl He].
  unfold get_total_thermal_resistance, bind, gets, ret.
  rewrite (add_resistances _ cfg Hl), (add_resistances _ cfg He).
  rewrite series_resistance_app. do 2 f_equal. lra.
Qed.

Section Configuration.

(** A configuration with a conductor, on which the accumulator returns
    [R_th]. *)
Variable cfg : CableConfiguration.
Variable conductor : CableLayer.
Variable rest : list CableLayer.
Variable R_th : R.
Hypothesis has_conductor : layers cfg = conductor :: rest.
Hypothesis total_run : get_total_thermal_resistance cfg = (Ok R_th, cfg).

Let R_el : R -> R := conductor_resistance conductor.

Lemma calculate_conductor_losses_run (T : R) :
  calculate_conductor_losses (Some T) cfg
    = (Ok ((current cfg) ^ 2 * R_el T), cfg).
Proof.
  unfold calculate_conductor_losses, get_conductor_layer, bind, gets, ret, lift.
  rewrite has_conductor, get_electrical_resistance_conductor. reflexivity.
Qed.

Let step : R -> R := update (current cfg) (ambient_temp cfg) R_el R_th.

Lemma temperature_step_run (i : nat) (v : TempLocals) :
  temperature_step i v cfg =
    (Ok (if lt (Rabs (step (t_conductor v) - t_conductor v)) 0.1
         then (Break, mkTempLocals (t_conductor v)
                        ((current cfg) ^ 2 * R_el (t_conductor v)) R_th i)
         else (Next, mkTempLocals (step (t_conductor v))
                       ((current cfg) ^ 2 * R_el (t_conductor v)) R_th i)),
     cfg).
Proof.
  unfold temperature_step.
  rewrite (bind_ok _ _ _ _ _ (calculate_conductor_losses_run (t_conductor v))).
  rewrite (bind_ok _ _ _ _ _ total_run).
  unfold bind, gets, abs, step, update.
  destruct (lt _ 0.1); reflexivity.
Qed.

Lemma temperature_loop_run (n : nat) :
  forall (a : nat) (v : TempLocals),
  exists P : R,
    for_in (seq a (S n)) temperature_step v cfg =
      (let fp := fixed_point (current cfg) (ambient_temp cfg) R_el R_th
                   (S n) a (t_conductor v) in
       (Ok (mkTempLocals (fst fp) P R_th (snd fp - 1)), cfg)).
Proof.
  induction n as [| n IH]; intros a v.
  - cbn [seq for_in fixed_point].
    rewrite (bind_ok _ _ _ _ _ (temperature_step_run a v)).
    fold step. destruct (lt _ 0.1); cbn; eexists;
      rewrite Nat.sub_0_r; reflexivity.
  - cbn [seq for_in].
    rewrite (bind_ok _ _ _ _ _ (temperature_step_run a v)).
    change (fixed_point _ _ _ _ (S (S n)) a (t_conductor v))
      with (if lt (Rabs (step (t_conductor v) - t_conductor v)) 0.1
            then (t_conductor v, S a)
            else fixed_point (current cfg) (ambient_temp cfg) R_el R_th
                   (S n) (S a) (step (t_conductor v))).
    destruct (lt _ 0.1).
    + cbn. eexists. rewrite Nat.sub_0_r. reflexivity.
    + destruct (IH (S a) (mkTempLocals (step (t_conductor v))
                            ((current cfg) ^ 2 * R_el (t_conductor v)) R_th a))
        as [P HP].
      exists P. exact HP.
Qed.

End Configuration.

(** ** The conductor-temperature solver *)

(** The specified iteration performs at least one and at most [budget]
    further iterations. *)
Lemma fixed_point_count (I amb : R) (R_el : R -> R) (R_th : R) (budget : nat) :
  forall (done : nat) (T : R),
    (done < snd (fixed_point I amb R_el R_th (S budget) done T)
          <= done + S budget)%nat.
Proof.
  induction budget as [| b IH]; intros done T.
  - cbn [fixed_point]. destruct (lt _ 0.1); cbn; lia.
  - change (fixed_point I amb R_el R_th (S (S b)) done T)
      with (if lt (Rabs (update I amb R_el R_th T - T)) 0.1
            then (T, S done)
            else fixed_point I amb R_el R_th (S b) (S done)
                   (update I amb R_el R_th T)).
    destruct (lt _ 0.1); cbn [snd]; [lia |].
    specialize (IH (S done) (update I amb R_el R_th T)). lia.
Qed.

(** When no test succeeds, the budget is used up and the last iterate is
    the result. *)
Lemma fixed_point_exhausted (I amb : R) (R_el : R -> R) (R_th : R) (n : nat) :
  forall (done : nat) (T : R),
    never_converges I amb R_el R_th n T ->
    fixed_point I amb R_el R_th n done T
      = (iterate I amb R_el R_th n T, (done + n)%nat).
Proof.
  induction n as [| n IH]; intros done T Hn; cbn [fixed_point iterate].
  - f_equal. lia.
  - destruct Hn as [Hfar Hn]. rewrite (lt_false _ _ Hfar), (IH _ _ Hn).
    f_equal. lia.
Qed.

(** When the first test succeeds, the initial candidate is the result. *)
Lemma fixed_point_immediate (I amb : R) (R_el : R -> R) (R_th : R)
  (budget done : nat) (T : R) :
  Rabs (update I amb R_el R_th T - T) < 0.1 ->
  fixed_point I amb R_el R_th (S budget) done T = (T, S done).
Proof. intros H. cbn [fixed_point]. rewrite (lt_true _ _ H). reflexivity. Qed.

(** The run of the solver on a configuration that has a conductor and on
    which the accumulator returns [R_th]: it returns the result of the
    specified iteration and leaves the configuration as it was. *)
Lemma calculate_conductor_temperature_iterates (cfg : CableConfiguration)
  (conductor : CableLayer) (rest : list CableLayer) (R_th : R) :
  layers cfg = conductor :: rest ->
  get_total_thermal_resistance cfg = (Ok R_th, cfg) ->
  let fp := fixed_point (current cfg) (ambient_temp cfg)
              (conductor_resistance conductor) R_th
              10 0 (max_conductor_temp cfg) in
  exists P : R,
    calculate_conductor_temperature cfg =
      (Ok (fst fp,
           mkDetails (fst fp) (ambient_temp cfg) P R_th (current cfg)
             (snd fp) (max_conductor_temp cfg) None),
       cfg).
Proof.
  intros Hc Htotal fp.
  destruct (temperature_loop_run cfg conductor rest R_th Hc Htotal 9 0%nat
              (mkTempLocals (max_conductor_temp cfg) 0 0 0)) as [P HP].
  exists P. unfold calculate_conductor_temperature, range.
  unfold bind at 1, gets at 1.
  rewrite (bind_ok _ _ _ _ _ HP). unfold bind, gets, ret. cbn [t_conductor
    CableModel.losses r_thermal iteration].
  fold fp.
  pose proof (fixed_point_count (current cfg) (ambient_temp cfg)
                (conductor_resistance conductor) R_th 9 0
                (max_conductor_temp cfg)) as Hcount.
  fold fp in Hcount.
  replace (snd fp - 1 + 1)%nat with (snd fp) by lia. reflexivity.
Qed.

Lemma calculate_conductor_temperature_run (cfg : CableConfiguration)
  (conductor : CableLayer) (rest : list CableLayer) :
  layers cfg = conductor :: rest ->
  Forall conducting (layers cfg ++ external_layers cfg) ->
  let R_th := series_resistance (layers cfg ++ external_layers cfg) in
  let fp := fixed_point (current cfg) (ambient_temp cfg)
              (conductor_resistance conductor) R_th
              10 0 (max_conductor_temp cfg) in
  exists P : R,
    calculate_conductor_temperature cfg =
      (Ok (fst fp,
           mkDetails (fst fp) (ambient_temp cfg) P R_th (current cfg)
             (snd fp) (max_conductor_temp cfg) None),
       cfg).
Proof.
  intros Hc Hall.
  exact (calculate_conductor_temperature_iterates cfg conductor rest _ Hc
           (get_total_thermal_resistance_run cfg Hall)).
Qed.

(** Without a layer, [get_conductor_layer] raises in the first pass. *)
Lemma calculate_conductor_temperature_no_layer (cfg : CableConfiguration) :
  layers cfg = [] ->
  calculate_conductor_temperature cfg = (Raise ValueError, cfg).
Proof.
  intros Hc. unfold calculate_conductor_temperature, range.
  unfold bind at 1, gets at 1. apply bind_raise.
  cbn [seq for_in]. apply bind_raise.
  unfold temperature_step. apply bind_raise.
  unfold calculate_conductor_losses, get_conductor_layer, bind, gets, ret,
    raise.
  rewrite Hc. reflexivity.
Qed.

(** When the accumulator raises, the first pass of the solver raises the
    same exception. *)
Lemma calculate_conductor_temperature_raises (cfg : CableConfiguration)
  (conductor : CableLayer) (rest : list CableLayer) (e : exn) :
  layers cfg = conductor :: rest ->
  get_total_thermal_resistance cfg = (Raise e, cfg) ->
  calculate_conductor_temperature cfg = (Raise e, cfg).
Proof.
  intros Hc Htotal.
  unfold calculate_conductor_temperature, range.
  unfold bind at 1, gets at 1. apply bind_raise.
  cbn [seq for_in]. apply bind_raise.
  unfold temperature_step.
  rewrite (bind_ok _ _ _ _ _
             (calculate_conductor_losses_run cfg conductor rest Hc _)).
  apply bind_raise. exact Htotal.
Qed.

(** The accumulator stops at the first layer whose geometry passes the
    guard and whose conductivity is zero. *)
Lemma add_resistances_zero_division (ls : list CableLayer)
  (cfg : CableConfiguration) :
  ~ Forall conducting ls ->
  forall r : R,
    for_in ls add_resistance r cfg = (Raise ZeroDivisionError, cfg).
Proof.
  induction ls as [| l ls IH]; intros Hnot r.
  - exfalso. apply Hnot. constructor.
  - cbn [for_in]. unfold add_resistance at 1. unfold bind at 1 2, lift.
    destruct (Req_dec_T (thermal_conductivity l) 0) as [Hz | Hnz].
    + destruct (le (inner_radius l) 0 || le (outer_radius l) (inner_radius l))
        eqn:Hguard.
      * assert (Hl : conducting l).
        { intros [Hi Ho]. exfalso.
          apply orb_true_iff in Hguard as [Hg | Hg]; unfold le in Hg;
            [destruct (Rle_dec (inner_radius l) 0) |
             destruct (Rle_dec (outer_radius l) (inner_radius l))];
            try discriminate; lra. }
        rewrite (get_thermal_resistance_conducting l 1 Hl). unfold ret.
        apply IH. intros Hls. apply Hnot. constructor; assumption.
      * apply guard_false_valid in Hguard.
        rewrite (get_thermal_resistance_zero_conductivity l 1 Hguard Hz).
        reflexivity.
    + assert (Hl : conducting l) by (intros _; exact Hnz).
      rewrite (get_thermal_resistance_conducting l 1 Hl). unfold ret.
      apply IH. intros Hls. apply Hnot. constructor; assumption.
Qed.

(** Whether every layer of a list is conducting can be decided. *)
Lemma conducting_dec (ls : list CableLayer) :
  {Forall conducting ls} + {~ Forall conducting ls}.
Proof.
  induction ls as [| l ls [IH | IH]].
  - left. constructor.
  - destruct (Req_dec_T (thermal_conductivity l) 0) as [Hz | Hnz].
    + destruct (Rlt_dec 0 (inner_radius l)) as [Hi | Hi];
        [destruct (Rlt_dec (inner_radius l) (outer_radius l)) as [Ho | Ho] |].
      * right. intros Hall. inversion Hall as [| ? ? Hl _]; subst.
        apply Hl; [split; assumption | exact Hz].
      * left. constructor; [| exact IH]. intros [_ Ho']. contradiction.
      * left. constructor; [| exact IH]. intros [Hi' _]. contradiction.
    + left. constructor; [| exact IH]. intros _. exact Hnz.
  - right. intros Hall. inversion Hall; subst. contradiction.
Qed.

(** A layer of valid geometry and zero conductivity, internal or
    external, makes the accumulator divide by zero. *)
Lemma get_total_thermal_resistance_not_conducting (cfg : CableConfiguration) :
  ~ Forall conducting (layers cfg ++ external_layers cfg) ->
  get_total_thermal_resistance cfg = (Raise ZeroDivisionError, cfg).
Proof.
  intros Hnot. unfold get_total_thermal_resistance.
  unfold bind at 1, gets at 1.
  destruct (conducting_dec (layers cfg)) as [Hl | Hl].
  - rewrite (bind_ok _ _ _ _ _ (add_resistances _ cfg Hl 0)).
    unfold bind at 1, gets at 1. apply bind_raise.
    apply add_resistances_zero_division. intros He. apply Hnot.
    apply Forall_app. split; assumption.
  - apply bind_raise. apply add_resistances_zero_division. exact Hl.
Qed.

(** C3: [calculate_conductor_temperature] is the specified fixed-point
    iteration.  Started at [max_conductor_temp] with a budget of 10, each
    iteration takes [P = current^2 R(T)] and the series resistance [R_th]
    of the internal and external layers (each layer contributing
    [ln(r_o / r_i) / (2 pi lambda)], or nothing when its geometry fails
    the guard), sets [T_new = ambient_temp + P R_th], stops when
    [|T_new - T| < 0.1] and otherwise goes on from [T_new]; the method
    returns the final candidate and, in its details, the number of
    iterations performed and [R_th].  The iteration is not entered when
    there is no conductor ([ValueError]) or when a layer of valid geometry
    has a zero conductivity ([ZeroDivisionError]). *)
Theorem calculate_conductor_temperature_fixed_point
  (cfg : CableConfiguration) :
  match layers cfg with
  | [] => calculate_conductor_temperature cfg = (Raise ValueError, cfg)
  | conductor :: _ =>
      (Forall conducting (layers cfg ++ external_layers cfg) ->
       exists d : Details,
         calculate_conductor_temperature cfg =
           (Ok (fst (fixed_point (current cfg) (ambient_temp cfg)
                       (conductor_resistance conductor)
                       (series_resistance
                          (layers cfg ++ external_layers cfg))
                       10 0 (max_conductor_temp cfg)), d), cfg) /\
         conductor_temp_C d =
           fst (fixed_point (current cfg) (ambient_temp cfg)
                  (conductor_resistance conductor)
                  (series_resistance (layers cfg ++ external_layers cfg))
                  10 0 (max_conductor_temp cfg)) /\
         iterations d =
           snd (fixed_point (current cfg) (ambient_temp cfg)
                  (conductor_resistance conductor)
                  (series_resistance (layers cfg ++ external_layers cfg))
                  10 0 (max_conductor_temp cfg)) /\
         thermal_resistance_K_m_W d =
           series_resistance (layers cfg ++ external_layers cfg)) /\
      (~ Forall conducting (layers cfg ++ external_layers cfg) ->
       calculate_conductor_temperature cfg = (Raise ZeroDivisionError, cfg))
  end.
Proof.
  destruct (layers cfg) as [| conductor rest] eqn:Hc.
  - apply calculate_conductor_temperature_no_layer. exact Hc.
  - rewrite <- Hc. split.
    + intros Hall.
      destruct (calculate_conductor_temperature_run cfg conductor rest Hc
                  Hall) as [P HP].
      cbn zeta in HP. eexists. split; [exact HP |]. repeat split.
    + intros Hnot.
      apply (calculate_conductor_temperature_raises cfg conductor rest _ Hc).
      apply get_total_thermal_resistance_not_conducting. exact Hnot.
Qed.

(** Every layer of the medium-voltage cable of the library has a
    conductivity that is not zero. *)
Lemma mv_cable_conducting :
  Forall conducting
    (layers Cables.create_mv_cable_240mm2_xlpe
       ++ external_layers Cables.create_mv_cable_240mm2_xlpe).
Proof. cbn. repeat constructor; intros _; cbn; lra. Qed.

(** The solver on the overloaded tube, at 1000 A with a temperature
    coefficient. *)
Lemma calculate_conductor_temperature_fixed_point_witness :
  exists d : Details,
    calculate_conductor_temperature Cables.overloaded_tube =
      (Ok (fst (fixed_point 1000 20
                  (conductor_resistance Cables.overloaded_conductor)
                  (series_resistance [Cables.overloaded_conductor])
                  10 0 90), d),
       Cables.overloaded_tube) /\
    iterations d =
      snd (fixed_point 1000 20
             (conductor_resistance Cables.overloaded_conductor)
             (series_resistance [Cables.overloaded_conductor])
             10 0 90) /\
    thermal_resistance_K_m_W d
      = series_resistance [Cables.overloaded_conductor].
Proof.
  pose proof (calculate_conductor_temperature_fixed_point
                Cables.overloaded_tube) as Hrun.
  change (layers Cables.overloaded_tube)
    with [Cables.overloaded_conductor] in Hrun.
  change (external_layers Cables.overloaded_tube)
    with (@nil CableLayer) in Hrun.
  change (current Cables.overloaded_tube) with 1000 in Hrun.
  change (ambient_temp Cables.overloaded_tube) with 20 in Hrun.
  change (max_conductor_temp Cables.overloaded_tube) with 90 in Hrun.
  cbn [app] in Hrun.
  destruct Hrun as [Hok _].
  destruct Hok as (d & Hd & _ & Hn & Hr).
  - repeat constructor. intros _. cbn. lra.
  - exists d. split; [exact Hd |]. split; [exact Hn | exact Hr].
Defined.

(** C4 (as the code has it): on a configuration that has a conductor and
    in which no layer of valid geometry has a zero conductivity, the
    solver returns normally, converged or not, and leaves the
    configuration unchanged.  Its details count between 1 and 10
    iterations; when none of the 10 convergence tests succeeds, the
    result is the tenth iterate and the count is 10. *)
Theorem calculate_conductor_temperature_returns
  (cfg : CableConfiguration) (conductor : CableLayer)
  (rest : list CableLayer) :
  layers cfg = conductor :: rest ->
  Forall conducting (layers cfg ++ external_layers cfg) ->
  exists (t : R) (d : Details),
    calculate_conductor_temperature cfg = (Ok (t, d), cfg) /\
    conductor_temp_C d = t /\
    (1 <= iterations d <= 10)%nat /\
    (never_converges (current cfg) (ambient_temp cfg)
       (conductor_resistance conductor)
       (series_resistance (layers cfg ++ external_layers cfg))
       10 (max_conductor_temp cfg) ->
     t = iterate (current cfg) (ambient_temp cfg)
           (conductor_resistance conductor)
           (series_resistance (layers cfg ++ external_layers cfg))
           10 (max_conductor_temp cfg) /\
     iterations d = 10%nat).
Proof.
  intros Hc Hall.
  destruct (calculate_conductor_temperature_run cfg conductor rest Hc Hall)
    as [P HP].
  cbn zeta in HP. do 2 eexists. split; [exact HP |].
  split; [reflexivity |]. cbn [iterations]. split.
  - pose proof (fixed_point_count (current cfg) (ambient_temp cfg)
                  (conductor_resistance conductor)
                  (series_resistance (layers cfg ++ external_layers cfg))
                  9 0 (max_conductor_temp cfg)). lia.
  - intros Hn. rewrite (fixed_point_exhausted _ _ _ _ _ 0%nat _ Hn).
    split; reflexivity.
Qed.

(** Thermal runaway: when the update map has slope at least 1 and the
    first step is at least 0.1 K upward, every later step is. *)
Lemma never_converges_runaway (I amb : R) (R_el : R -> R) (R_th slope : R) :
  (forall T T',
     update I amb R_el R_th T' - update I amb R_el R_th T = slope * (T' - T)) ->
  1 <= slope ->
  forall (n : nat) (T : R),
    0.1 <= update I amb R_el R_th T - T ->
    never_converges I amb R_el R_th n T.
Proof.
  intros Haffine Hslope. induction n as [| n IH]; intros T Hup; cbn.
  - constructor.
  - split.
    + rewrite Rabs_right by lra. assumption.
    + apply IH. rewrite Haffine. nra.
Qed.

(** The heat a hollow copper conductor under XLPE generates at 1000 A
    per kelvin of its own temperature rise. *)
Lemma overloaded_tube_slope :
  318 <= 1000 ^ 2 * R_20 Cables.overloaded_conductor
         * series_resistance [Cables.overloaded_conductor].
Proof.
  unfold R_20, series_resistance, layer_resistance, shell_resistance.
  cbn [fold_right inner_radius outer_radius thermal_conductivity resistivity
       Cables.overloaded_conductor].
  py_decide. cbn [orb].
  replace (2 / 1) with 2 by lra.
  pose proof ln_lt_2 as Hln. pose proof PI_RGT_0 as Hpos. pose proof PI_4 as H4.
  set (x := ln 2) in *. set (p := PI) in *.
  replace (1000 ^ 2 * (0.0175 * 1 / (p * (2 ^ 2 - 1 ^ 2)))
           * (x / (2 * p * 0.286) + 0))
    with (17500 * x / (1.716 * (p * p))) by (decimals; field; lra).
  assert (Hpp : 0 < p * p <= 16) by nra.
  apply Rmult_le_reg_r with (1.716 * (p * p)); [nra |].
  unfold Rdiv. rewrite Rmult_assoc, Rinv_l by nra. nra.
Qed.

(** Non-convergence at work: on the overloaded tube none of the ten tests
    succeeds; the solver still returns, with the tenth iterate and the
    count 10. *)
Lemma calculate_conductor_temperature_returns_witness :
  exists (t : R) (d : Details),
    calculate_conductor_temperature Cables.overloaded_tube
      = (Ok (t, d), Cables.overloaded_tube) /\
    t = iterate 1000 20 (conductor_resistance Cables.overloaded_conductor)
          (series_resistance [Cables.overloaded_conductor]) 10 90 /\
    iterations d = 10%nat.
Proof.
  set (cfg := Cables.overloaded_tube). set (c := Cables.overloaded_conductor).
  assert (Hall : Forall conducting (layers cfg ++ external_layers cfg))
    by (cbn; repeat constructor; intros _; cbn; lra).
  destruct (calculate_conductor_temperature_returns cfg c [] eq_refl Hall)
    as (t & d & Hrun & _ & _ & Hlast).
  exists t, d. split; [exact Hrun |]. apply Hlast. clear Hlast Hrun.
  change (never_converges 1000 20 (conductor_resistance c)
            (series_resistance [c]) 10 90).
  assert (Hres : resistive c).
  { split; cbn; [lra |]. pose proof PI_RGT_0. nra. }
  pose proof overloaded_tube_slope as Hslope. fold c in Hslope.
  set (g := 1000 ^ 2 * R_20 c * series_resistance [c]) in *.
  assert (Hupd : forall T, update 1000 20 (conductor_resistance c)
                             (series_resistance [c]) T
                           = 20 + g * (1 + 0.00393 * (T - 20))).
  { intros T. unfold update. rewrite (conductor_resistance_resistive c T Hres).
    unfold R_at, g.
    change (temp_coefficient c) with 0.00393. ring. }
  apply never_converges_runaway with (slope := g * 0.00393).
  - intros T T'. rewrite !Hupd. ring.
  - nra.
  - rewrite Hupd. nra.
Defined.

Lemma get_total_thermal_resistance_zero_division
  (cfg : CableConfiguration) (conductor : CableLayer)
  (rest : list CableLayer) :
  layers cfg = conductor :: rest ->
  valid_geometry conductor -> thermal_conductivity conductor = 0 ->
  get_total_thermal_resistance cfg = (Raise ZeroDivisionError, cfg).
Proof.
  intros Hc Hg Hk. unfold get_total_thermal_resistance.
  unfold bind at 1, gets at 1. rewrite Hc. cbn [for_in].
  unfold add_resistance at 1, lift.
  rewrite (get_thermal_resistance_zero_conductivity _ 1 Hg Hk).
  reflexivity.
Qed.

(** A conductor shell of valid geometry and zero conductivity makes the
    first pass of the solver divide by zero. *)
Lemma calculate_conductor_temperature_zero_division
  (cfg : CableConfiguration) (conductor : CableLayer)
  (rest : list CableLayer) :
  layers cfg = conductor :: rest ->
  valid_geometry conductor -> thermal_conductivity conductor = 0 ->
  calculate_conductor_temperature cfg = (Raise ZeroDivisionError, cfg).
Proof.
  intros Hc Hg Hk.
  apply (calculate_conductor_temperature_raises cfg conductor rest _ Hc).
  apply (get_total_thermal_resistance_zero_division cfg conductor rest);
    assumption.
Qed.

(** C4, refuted as stated: a configuration with a non-empty layer list on
    which the solver raises instead of returning.  The shell has valid
    geometry and conductivity zero, and the first pass of the loop divides
    by it. *)
Lemma zero_conductivity_raises :
  layers Cables.zero_conductivity_cable <> [] /\
  calculate_conductor_temperature Cables.zero_conductivity_cable
    = (Raise ZeroDivisionError, Cables.zero_conductivity_cable).
Proof.
  split; [discriminate |].
  eapply calculate_conductor_temperature_zero_division;
    [reflexivity | split; cbn; lra | reflexivity].
Qed.

(** ** What the ampacity search changes *)

Lemma same_but_current_refl (s : CableConfiguration) : same_but_current s s.
Proof. repeat split. Qed.

Lemma same_but_current_trans (s1 s2 s3 : CableConfiguration) :
  same_but_current s1 s2 -> same_but_current s2 s3 -> same_but_current s1 s3.
Proof.
  intros (H1 & H2 & H3 & H4 & H5) (K1 & K2 & K3 & K4 & K5).
  repeat split; congruence.
Qed.

Lemma keeps_search_step (i : nat) (v : SearchLocals) :
  keeps same_but_current (search_step i v).
Proof.
  unfold search_step.
  apply (keeps_bind _ same_but_current_trans).
  { intros s. repeat split. }
  intros _. apply (keeps_bind _ same_but_current_trans).
  { apply keeps_calculate_conductor_temperature;
      [apply same_but_current_refl | apply same_but_current_trans]. }
  intros r. apply (keeps_bind _ same_but_current_trans).
  { apply (keeps_gets _ same_but_current_refl). }
  intros t_max.
  destruct (lt _ 0.5); [apply (keeps_ret _ same_but_current_refl) |].
  destruct (gt _ _); apply (keeps_ret _ same_but_current_refl).
Qed.

Lemma keeps_calculate_max_current :
  keeps same_but_current calculate_max_current.
Proof.
  unfold calculate_max_current, max_current_search.
  apply (keeps_bind _ same_but_current_trans).
  { apply (keeps_for_in _ same_but_current_refl same_but_current_trans).
    apply keeps_search_step. }
  intros _. apply (keeps_bind _ same_but_current_trans).
  { apply keeps_calculate_conductor_temperature;
      [apply same_but_current_refl | apply same_but_current_trans]. }
  intros r.
  repeat first [ apply (keeps_bind _ same_but_current_trans)
               | apply (keeps_gets _ same_but_current_refl)
               | apply (keeps_ret _ same_but_current_refl)
               | intro ].
Qed.

(** What [calculate_max_current] returns is the [current] it leaves in the
    configuration. *)
Lemma calculate_max_current_leaves (cfg cfg' : CableConfiguration)
  (i : R) (d : Details) :
  calculate_max_current cfg = (Ok (i, d), cfg') -> current cfg' = i.
Proof.
  unfold calculate_max_current. unfold bind at 1.
  destruct (max_current_search cfg) as [[v | e] s1]; [| discriminate].
  unfold bind at 1.
  destruct (calculate_conductor_temperature s1) as [[r | e] s2];
    [| discriminate].
  unfold bind, gets, ret. intros H. inversion H. reflexivity.
Qed.

(** C10: [calculate_max_current] leaves the returned ampacity in the
    [current] attribute and changes no other attribute; the solver
    [calculate_conductor_temperature] changes no attribute at all, returning
    or raising. *)
Theorem calculate_max_current_mutates_current (cfg : CableConfiguration) :
  (forall (i : R) (d : Details) (cfg' : CableConfiguration),
     calculate_max_current cfg = (Ok (i, d), cfg') ->
     current cfg' = i /\
     layers cfg' = layers cfg /\
     external_layers cfg' = external_layers cfg /\
     ambient_temp cfg' = ambient_temp cfg /\
     max_conductor_temp cfg' = max_conductor_temp cfg) /\
  (forall (r : result (R * Details)) (cfg' : CableConfiguration),
     calculate_conductor_temperature cfg = (r, cfg') -> cfg' = cfg).
Proof.
  split.
  - intros i d cfg' Hrun. split.
    + exact (calculate_max_current_leaves cfg cfg' i d Hrun).
    + pose proof (keeps_calculate_max_current cfg) as Hkeep.
      rewrite Hrun in Hkeep. cbn [snd] in Hkeep.
      destruct Hkeep as (_ & H2 & H3 & H4 & H5). repeat split; assumption.
  - intros r cfg' Hrun.
    pose proof (calculate_conductor_temperature_read_only cfg) as Hro.
    rewrite Hrun in Hro. exact Hro.
Qed.

(** ** The ampacity search *)

(** The bare conductor has no thermal resistance: its temperature is the
    ambient one, 90 degC, at every current, found by the first test. *)
Lemma bare_conductor_temperature (i : R) :
  exists d : Details,
    calculate_conductor_temperature (set_current i Cables.bare_conductor)
      = (Ok (90, d), set_current i Cables.bare_conductor).
Proof.
  set (cfg := set_current i Cables.bare_conductor).
  assert (Hall : Forall conducting (layers cfg ++ external_layers cfg))
    by (cbn; repeat constructor; intros _; cbn; lra).
  destruct (calculate_conductor_temperature_run cfg _ _ eq_refl Hall)
    as [P HP].
  cbn zeta in HP. rewrite fixed_point_immediate in HP.
  - eexists. exact HP.
  - assert (Hth : series_resistance (layers cfg ++ external_layers cfg) = 0).
    { unfold series_resistance, layer_resistance. cbn. py_decide. cbn. lra. }
    unfold update. rewrite Hth. cbn [ambient_temp max_conductor_temp cfg
      set_current Cables.bare_conductor Cables.build snd].
    cbn. match goal with |- Rabs ?x < _ => replace x with 0 by ring end.
    rewrite Rabs_R0. lra.
Qed.

(** One probe of the search, given the run of the solver it calls. *)
Lemma search_step_run (i : nat) (v : SearchLocals)
  (s s1 : CableConfiguration) (t : R) (d : Details) :
  calculate_conductor_temperature (set_current ((i_min v + i_max v) / 2) s)
    = (Ok (t, d), s1) ->
  search_step i v s =
    (Ok (if lt (abs (t - max_conductor_temp s1)) 0.5 then (Break, v)
         else if gt t (max_conductor_temp s1)
              then (Next, mkSearchLocals (i_min v) ((i_min v + i_max v) / 2))
              else (Next, mkSearchLocals ((i_min v + i_max v) / 2) (i_max v))),
     s1).
Proof.
  intros Hrun. unfold search_step, bind, modify, gets. rewrite Hrun.
  cbn [fst]. destruct (lt _ 0.5); [reflexivity |].
  destruct (gt _ _); reflexivity.
Qed.

(** The end of [calculate_max_current], given the run of its search and
    of the final call of the solver. *)
Lemma calculate_max_current_run (cfg s1 s2 : CableConfiguration)
  (v : SearchLocals) (t : R) (d : Details) :
  max_current_search cfg = (Ok v, s1) ->
  calculate_conductor_temperature s1 = (Ok (t, d), s2) ->
  calculate_max_current cfg
    = (Ok (current s2, set_max_current_A (current s2) d), s2).
Proof.
  intros Hsearch Hrun. unfold calculate_max_current.
  rewrite (bind_ok _ _ _ _ _ Hsearch), (bind_ok _ _ _ _ _ Hrun).
  reflexivity.
Qed.

(** The search on the bare conductor stops at its first probe. *)
Lemma bare_conductor_ampacity :
  exists d : Details,
    calculate_max_current Cables.bare_conductor
      = (Ok (5000, d), set_current 5000 Cables.bare_conductor).
Proof.
  destruct (bare_conductor_temperature 5000) as [d Hd].
  exists (set_max_current_A 5000 d).
  assert (Hsearch : max_current_search Cables.bare_conductor
                    = (Ok (mkSearchLocals 0 10000),
                       set_current 5000 Cables.bare_conductor)).
  { unfold max_current_search, range. cbn [seq for_in].
    assert (Hprobe : 5000 = (i_min (mkSearchLocals 0 10000)
                             + i_max (mkSearchLocals 0 10000)) / 2)
      by (cbn; lra).
    pose proof Hd as Hd'. rewrite Hprobe in Hd' at 1.
    rewrite (bind_ok _ _ _ _ _ (search_step_run 0 _ _ _ _ _ Hd')).
    replace (abs (90 - max_conductor_temp
                         (set_current 5000 Cables.bare_conductor)))
      with 0.
    - rewrite lt_true by lra. reflexivity.
    - unfold abs. cbn. replace (90 - 90) with 0 by lra.
      symmetry. apply Rabs_R0. }
  exact (calculate_max_current_run _ _ _ _ _ _ Hsearch Hd).
Qed.

Lemma calculate_max_current_mutates_current_witness :
  exists (d : Details) (cfg' : CableConfiguration),
    calculate_max_current Cables.bare_conductor = (Ok (5000, d), cfg') /\
    current Cables.bare_conductor = 0 /\
    current cfg' = 5000 /\
    layers cfg' = layers Cables.bare_conductor /\
    external_layers cfg' = external_layers Cables.bare_conductor /\
    ambient_temp cfg' = ambient_temp Cables.bare_conductor /\
    max_conductor_temp cfg' = max_conductor_temp Cables.bare_conductor.
Proof.
  destruct bare_conductor_ampacity as [d Hd].
  exists d, (set_current 5000 Cables.bare_conductor).
  split; [exact Hd |]. split; [reflexivity |].
  exact (proj1 (calculate_max_current_mutates_current Cables.bare_conductor)
           5000 d _ Hd).
Defined.

Lemma search_step_raise (i : nat) (v : SearchLocals)
  (s s1 : CableConfiguration) (e : exn) :
  calculate_conductor_temperature (set_current ((i_min v + i_max v) / 2) s)
    = (Raise e, s1) ->
  search_step i v s = (Raise e, s1).
Proof.
  intros Hrun. unfold search_step, bind, modify. rewrite Hrun. reflexivity.
Qed.

(** The configuration [calculate_max_current] leaves is the one it got,
    with the returned current. *)
Lemma calculate_max_current_state (cfg cfg' : CableConfiguration)
  (i : R) (d : Details) :
  calculate_max_current cfg = (Ok (i, d), cfg') -> cfg' = set_current i cfg.
Proof.
  intros Hrun.
  pose proof (calculate_max_current_leaves _ _ _ _ Hrun) as Hi.
  pose proof (keeps_calculate_max_current cfg) as Hkeep.
  rewrite Hrun in Hkeep. cbn [snd] in Hkeep.
  destruct Hkeep as (H1 & H2 & H3 & H4 & H5).
  destruct cfg'. cbn in *. unfold set_current. congruence.
Qed.

Section Overshoot.

(** A configuration that is too hot at every current from [floor] up. *)
Variable base : CableConfiguration.
Variable floor : R.
Hypothesis floor_nonneg : 0 <= floor.
Hypothesis too_hot :
  forall i : R, floor <= i ->
    exists (t : R) (d : Details),
      calculate_conductor_temperature (set_current i base)
        = (Ok (t, d), set_current i base) /\
      max_conductor_temp base + 0.5 <= t.

(** Every probe overshoots: the search halves the upper end of its
    bracket each time and never stops early. *)
Lemma search_overshoots (n : nat) :
  forall (a : nat) (hi x : R),
    floor * 2 ^ S n <= hi ->
    exists i : R,
      i = hi / 2 ^ S n /\
      for_in (seq a (S n)) search_step (mkSearchLocals 0 hi)
        (set_current x base)
      = (Ok (mkSearchLocals 0 i), set_current i base).
Proof.
  induction n as [| n IH]; intros a hi x Hhi.
  - assert (Hprobe : floor <= (0 + hi) / 2) by (cbn in Hhi; lra).
    destruct (too_hot _ Hprobe) as (t & d & Hrun & Hhot).
    exists ((0 + hi) / 2). split; [cbn; lra |].
    cbn [seq for_in].
    rewrite (bind_ok _ _ _ _ _
               (search_step_run a (mkSearchLocals 0 hi) (set_current x base)
                  _ t d Hrun)).
    cbn [max_conductor_temp set_current i_min i_max]. unfold abs, gt.
    rewrite lt_false by (rewrite Rabs_right; lra).
    rewrite lt_true by lra. reflexivity.
  - assert (Hpow : 0 < 2 ^ S n) by (apply pow_lt; lra).
    assert (Hprobe : floor <= (0 + hi) / 2).
    { change (2 ^ S (S n)) with (2 * 2 ^ S n) in Hhi.
      assert (Hone : 1 <= 2 ^ S n) by (apply pow_R1_Rle; lra).
      assert (floor * 1 <= floor * 2 ^ S n)
        by (apply Rmult_le_compat_l; assumption).
      lra. }
    destruct (too_hot _ Hprobe) as (t & d & Hrun & Hhot).
    destruct (IH (S a) ((0 + hi) / 2) ((0 + hi) / 2)) as (i & Hi & Hloop).
    { change (2 ^ S (S n)) with (2 * 2 ^ S n) in Hhi. lra. }
    exists i. split.
    { rewrite Hi. change (2 ^ S (S n)) with (2 * 2 ^ S n). field. lra. }
    cbn [seq for_in].
    rewrite (bind_ok _ _ _ _ _
               (search_step_run a (mkSearchLocals 0 hi) (set_current x base)
                  _ t d Hrun)).
    cbn [max_conductor_temp set_current i_min i_max]. unfold abs, gt.
    rewrite lt_false by (rewrite Rabs_right; lra).
    rewrite lt_true by lra. exact Hloop.
Qed.

End Overshoot.

(** The tube's resistances multiply to a large temperature rise per
    squared ampere. *)
Lemma insulated_tube_rise :
  800000 <= R_20 Cables.insulated_conductor
            * series_resistance [Cables.insulated_conductor].
Proof.
  unfold R_20, series_resistance, layer_resistance, shell_resistance.
  cbn [fold_right inner_radius outer_radius thermal_conductivity resistivity
       Cables.insulated_conductor].
  py_decide. cbn [orb].
  replace (2 / 1) with 2 by lra.
  pose proof ln_lt_2 as Hln. pose proof PI_RGT_0 as Hpos. pose proof PI_4 as H4.
  set (x := ln 2) in *. set (p := PI) in *.
  replace (0.0175 * 1 / (p * (2 ^ 2 - 1 ^ 2))
           * (x / (2 * p * 0.0000000001) + 0))
    with (175000000 * x / (6 * (p * p))) by (decimals; field; lra).
  assert (Hpp : 0 < p * p <= 16) by nra.
  apply Rmult_le_reg_r with (6 * (p * p)); [nra |].
  unfold Rdiv. rewrite Rmult_assoc, Rinv_l by nra. nra.
Qed.

(** From the last probe of the search up, the solver finds the tube more
    than 0.5 K above its rated 90 degC. *)
Lemma insulated_tube_too_hot (i : R) :
  10000 / 2 ^ 20 <= i ->
  exists (t : R) (d : Details),
    calculate_conductor_temperature (set_current i Cables.insulated_tube)
      = (Ok (t, d), set_current i Cables.insulated_tube) /\
    max_conductor_temp Cables.insulated_tube + 0.5 <= t.
Proof.
  intros Hi.
  set (c := Cables.insulated_conductor).
  set (cfg := set_current i Cables.insulated_tube).
  assert (Hall : Forall conducting (layers cfg ++ external_layers cfg))
    by (cbn; repeat constructor; intros _; cbn; lra).
  destruct (calculate_conductor_temperature_run cfg c [] eq_refl Hall)
    as [P HP].
  cbn zeta in HP.
  change (layers cfg ++ external_layers cfg) with [c] in HP.
  change (current cfg) with i in HP. change (ambient_temp cfg) with 20 in HP.
  change (max_conductor_temp cfg) with 90 in HP.
  assert (Hres : resistive c).
  { split; cbn; [lra |]. pose proof PI_RGT_0. nra. }
  pose proof insulated_tube_rise as Hrise. fold c in Hrise.
  set (k := R_20 c * series_resistance [c]) in *.
  assert (Hupd : forall T, update i 20 (conductor_resistance c)
                             (series_resistance [c]) T = 20 + i ^ 2 * k).
  { intros T. unfold update. rewrite (conductor_resistance_resistive c T Hres).
    unfold R_at, k. change (temp_coefficient c) with 0. ring. }
  assert (Hsq : 10000 / 2 ^ 20 * (10000 / 2 ^ 20) <= i * i).
  { assert (0 < 10000 / 2 ^ 20) by (apply Rdiv_lt_0_compat; [lra | apply pow_lt; lra]).
    nra. }
  assert (Hhot : 90.5 <= 20 + i ^ 2 * k).
  { assert (H40 : 10000 / 2 ^ 20 * (10000 / 2 ^ 20) * 800000 >= 70.5).
    { assert (H2 : (2 ^ 20 = 1048576)) by (simpl; lra). rewrite H2. lra. }
    assert (0 <= i * i) by nra. replace (i ^ 2) with (i * i) by ring. nra. }
  assert (Hfp : fixed_point i 20 (conductor_resistance c)
                  (series_resistance [c]) 10 0 90 = (20 + i ^ 2 * k, 2%nat)).
  { cbn [fixed_point]. rewrite !Hupd.
    rewrite lt_false by (rewrite Rabs_right; lra).
    replace (20 + i ^ 2 * k - (20 + i ^ 2 * k)) with 0 by ring.
    rewrite Rabs_R0, lt_true by lra. reflexivity. }
  rewrite Hfp in HP. cbn [fst snd] in HP.
  do 2 eexists. split; [exact HP |]. cbn. lra.
Qed.

(** C5, refuted as stated: the insulated tube is cooler outside than its
    rating and too hot at 10000 A, yet the current the search returns,
    [10000 / 2^20] A after 20 overshooting probes, leaves the conductor at
    least 0.5 K away from [max_conductor_temp]. *)
Lemma insulated_tube_misses_tolerance :
  ambient_temp Cables.insulated_tube
    < max_conductor_temp Cables.insulated_tube /\
  (exists (t : R) (d : Details),
      calculate_conductor_temperature (set_current 10000 Cables.insulated_tube)
        = (Ok (t, d), set_current 10000 Cables.insulated_tube) /\
      max_conductor_temp Cables.insulated_tube < t) /\
  (exists (i : R) (d : Details) (t : R) (d' : Details),
      calculate_max_current Cables.insulated_tube
        = (Ok (i, d), set_current i Cables.insulated_tube) /\
      i = 10000 / 2 ^ 20 /\
      calculate_conductor_temperature (set_current i Cables.insulated_tube)
        = (Ok (t, d'), set_current i Cables.insulated_tube) /\
      0.5 <= Rabs (t - max_conductor_temp Cables.insulated_tube)).
Proof.
  assert (Hfloor : 0 < 10000 / 2 ^ 20)
    by (apply Rdiv_lt_0_compat; [lra | apply pow_lt; lra]).
  split; [cbn; lra |]. split.
  - destruct (insulated_tube_too_hot 10000) as (t & d & Hrun & Hhot).
    { assert (H2 : 2 ^ 20 = 1048576) by (simpl; lra). rewrite H2. lra. }
    exists t, d. split; [exact Hrun | lra].
  - destruct (search_overshoots Cables.insulated_tube (10000 / 2 ^ 20) ltac:(lra)
                insulated_tube_too_hot 19 0%nat 10000 0) as (i & Hi & Hloop).
    { unfold Rdiv. rewrite Rmult_assoc, Rinv_l by (apply pow_nonzero; lra). lra. }
    change (set_current 0 Cables.insulated_tube)
      with Cables.insulated_tube in Hloop.
    destruct (insulated_tube_too_hot i (Req_le _ _ (eq_sym Hi)))
      as (t & d & Hrun & Hhot).
    exists i, (set_max_current_A i d), t, d. split; [| split; [| split]].
    + exact (calculate_max_current_run _ _ _ _ _ _ Hloop Hrun).
    + exact Hi.
    + exact Hrun.
    + rewrite Rabs_right; lra.
Qed.

(** ** The temperature profile *)

Lemma non_increasing_nil : non_increasing [].
Proof. intros i a b Ha. rewrite lookup_nil in Ha. discriminate. Qed.

Lemma non_increasing_cons (a : R) (ts : list R) :
  (forall b, ts !! 0%nat = Some b -> b <= a) ->
  non_increasing ts -> non_increasing (a :: ts).
Proof.
  intros Hhead Hts [| i] x y Hx Hy; cbn in Hx, Hy.
  - inversion Hx; subst. apply Hhead. exact Hy.
  - exact (Hts i x y Hx Hy).
Qed.

Lemma boundary_profile_head (P : R) (ls : list CableLayer) (T b : R) :
  temperatures (boundary_profile P ls T) !! 0%nat = Some b -> b = T.
Proof. destruct ls; cbn; intros H; [discriminate | congruence]. Qed.

(** Outward through layers of non-negative resistance, a non-negative
    heat flow only lowers the temperature. *)
Lemma boundary_profile_non_increasing (P : R) (ls : list CableLayer) :
  0 <= P -> Forall (fun l => 0 <= layer_resistance l) ls ->
  forall T : R, non_increasing (temperatures (boundary_profile P ls T)).
Proof.
  intros HP. induction 1 as [| l ls Hl _ IH]; intros T; cbn.
  - apply non_increasing_nil.
  - apply non_increasing_cons.
    + intros b Hb. cbn in Hb. inversion Hb; subst. nra.
    + apply non_increasing_cons; [| apply IH].
      intros b Hb. apply boundary_profile_head in Hb. lra.
Qed.

Lemma profile_loop (P : R) (cfg : CableConfiguration) (ls : list CableLayer) :
  Forall conducting ls ->
  forall v : ProfileLocals,
    for_in ls (profile_step P) v cfg =
      (Ok (mkProfileLocals
             (profile v ++ boundary_profile P ls (current_temp v))
             (outer_temperature P ls (current_temp v))), cfg).
Proof.
  induction 1 as [| l ls Hl _ IH]; intros v; cbn [for_in].
  - unfold ret. cbn. rewrite app_nil_r. destruct v; reflexivity.
  - unfold profile_step at 1. unfold bind at 1 2, lift, ret.
    rewrite (get_thermal_resistance_conducting l 1 Hl).
    rewrite IH. cbn [profile current_temp boundary_profile].
    rewrite <- !app_assoc. reflexivity.
Qed.

(** The run of [calculate_temperature_profile], given the runs of the two
    methods it calls first. *)
Lemma calculate_temperature_profile_run (cfg : CableConfiguration)
  (t P : R) (d : Details) :
  Forall conducting (layers cfg) ->
  calculate_conductor_temperature cfg = (Ok (t, d), cfg) ->
  calculate_conductor_losses (Some t) cfg = (Ok P, cfg) ->
  calculate_temperature_profile cfg
    = (Ok (boundary_profile P (layers cfg) t), cfg).
Proof.
  intros Hall Hrun Hloss. unfold calculate_temperature_profile.
  rewrite (bind_ok _ _ _ _ _ Hrun). cbn [fst].
  rewrite (bind_ok _ _ _ _ _ Hloss).
  unfold bind at 1, gets at 1.
  rewrite (bind_ok _ _ _ _ _ (profile_loop P cfg _ Hall _)).
  reflexivity.
Qed.

(** The two entries a layer contributes to the boundaries of a stack. *)
Lemma boundary_profile_lookup (P : R) (ls : list CableLayer) :
  forall (T : R) (k : nat) (l : CableLayer),
    ls !! k = Some l ->
    boundary_profile P ls T !! (2 * k)%nat
      = Some (inner_radius l, T - P * series_resistance (take k ls), name l) /\
    boundary_profile P ls T !! (2 * k + 1)%nat
      = Some (outer_radius l,
              T - P * series_resistance (take k ls) - P * layer_resistance l,
              name l).
Proof.
  induction ls as [| l0 ls IH]; intros T k l Hk; [discriminate |].
  destruct k as [| k].
  - cbn in Hk. inversion Hk; subst. cbn. unfold series_resistance. cbn.
    split; do 3 f_equal; lra.
  - cbn [lookup list_lookup] in Hk.
    destruct (IH (T - P * layer_resistance l0) k l Hk) as [Hin Hout].
    replace (2 * S k)%nat with (S (S (2 * k))) by lia.
    replace (S (S (2 * k)) + 1)%nat with (S (S (2 * k + 1))) by lia.
    cbn [boundary_profile lookup list_lookup take].
    split; [etransitivity; [exact Hin |] | etransitivity; [exact Hout |]];
      unfold series_resistance; cbn [fold_right];
      fold (series_resistance (take k ls)); do 3 f_equal; lra.
Qed.

Lemma boundary_profile_length (P : R) (ls : list CableLayer) (T : R) :
  length (boundary_profile P ls T) = (2 * length ls)%nat.
Proof.
  revert T. induction ls as [| l ls IH]; intros T; cbn; [reflexivity |].
  rewrite IH. lia.
Qed.

(** On valid layers the series resistance is the sum of the shell
    resistances. *)
Lemma series_resistance_valid (ls : list CableLayer) :
  Forall valid_layer ls ->
  series_resistance ls
    = fold_right (fun l acc => shell_resistance l + acc) 0 ls.
Proof.
  unfold series_resistance.
  induction 1 as [| l ls [Hg _] _ IH]; cbn [fold_right]; [reflexivity |].
  rewrite IH. unfold layer_resistance. rewrite (guard_passes l Hg).
  reflexivity.
Qed.

(** C6: on a valid layer stack with non-negative conductor losses,
    [calculate_temperature_profile] returns the boundary temperatures of
    the stack, two entries a layer: for the layer [k], the temperature at
    its inner radius is the conductor temperature less the losses times
    the shell resistances [ln(r_o / r_i) / (2 pi lambda)] of the layers
    before it, and the temperature at its outer radius is that less the
    losses times its own shell resistance.  These temperatures never
    increase from one boundary to the next, from the conductor
    outward. *)
Theorem calculate_temperature_profile_monotonic (cfg : CableConfiguration)
  (t losses : R) (d : Details) :
  Forall valid_layer (layers cfg) ->
  calculate_conductor_temperature cfg = (Ok (t, d), cfg) ->
  calculate_conductor_losses (Some t) cfg = (Ok losses, cfg) ->
  0 <= losses ->
  exists profile : list (R * R * string),
    calculate_temperature_profile cfg = (Ok profile, cfg) /\
    length profile = (2 * length (layers cfg))%nat /\
    (forall (k : nat) (l : CableLayer),
       layers cfg !! k = Some l ->
       profile !! (2 * k)%nat
         = Some (inner_radius l,
                 t - losses
                     * fold_right (fun l acc => shell_resistance l + acc) 0
                         (take k (layers cfg)),
                 name l) /\
       profile !! (2 * k + 1)%nat
         = Some (outer_radius l,
                 t - losses
                     * fold_right (fun l acc => shell_resistance l + acc) 0
                         (take k (layers cfg))
                 - losses * shell_resistance l,
                 name l)) /\
    forall (i : nat) (inner outer : R),
      temperatures profile !! i = Some inner ->
      temperatures profile !! S i = Some outer ->
      outer <= inner.
Proof.
  intros Hvalid Hrun Hloss Hpos.
  exists (boundary_profile losses (layers cfg) t). split; [| split; [| split]].
  - apply (calculate_temperature_profile_run cfg t losses d);
      [| assumption | assumption].
    eapply Forall_impl; [exact Hvalid | apply valid_layer_conducting].
  - apply boundary_profile_length.
  - intros k l Hk.
    destruct (boundary_profile_lookup losses (layers cfg) t k l Hk)
      as [Hin Hout].
    rewrite Hin, Hout.
    rewrite (series_resistance_valid (take k (layers cfg)))
      by (apply Forall_take; exact Hvalid).
    assert (Hl : valid_layer l).
    { rewrite Forall_lookup in Hvalid. exact (Hvalid k l Hk). }
    unfold layer_resistance. rewrite (guard_passes l (proj1 Hl)).
    split; reflexivity.
  - apply boundary_profile_non_increasing; [assumption |].
    eapply Forall_impl; [exact Hvalid |].
    intros l Hl. cbn. apply Rlt_le, layer_resistance_valid, Hl.
Qed.

(** The profile of the hollow cable at 100 A. *)
Lemma calculate_temperature_profile_monotonic_witness :
  exists (t losses : R) (profile : list (R * R * string)),
    0 < losses /\
    calculate_temperature_profile Cables.hollow_cable
      = (Ok profile, Cables.hollow_cable) /\
    length profile = (2 * length (layers Cables.hollow_cable))%nat /\
    (forall (k : nat) (l : CableLayer),
       layers Cables.hollow_cable !! k = Some l ->
       profile !! (2 * k)%nat
         = Some (inner_radius l,
                 t - losses
                     * fold_right (fun l acc => shell_resistance l + acc) 0
                         (take k (layers Cables.hollow_cable)),
                 name l) /\
       profile !! (2 * k + 1)%nat
         = Some (outer_radius l,
                 t - losses
                     * fold_right (fun l acc => shell_resistance l + acc) 0
                         (take k (layers Cables.hollow_cable))
                 - losses * shell_resistance l,
                 name l)) /\
    forall (i : nat) (inner outer : R),
      temperatures profile !! i = Some inner ->
      temperatures profile !! S i = Some outer ->
      outer <= inner.
Proof.
  set (cfg := Cables.hollow_cable).
  set (c := mkCableLayer "Conductor (Cu)" "Copper" 4 8.7 380 0.0175 0).
  assert (Hvalid : Forall valid_layer (layers cfg))
    by (cbn; repeat constructor; cbn; lra).
  assert (Hall : Forall conducting (layers cfg ++ external_layers cfg))
    by (cbn; repeat constructor; intros _; cbn; lra).
  destruct (calculate_conductor_temperature_run cfg c _ eq_refl Hall)
    as [P HP].
  cbn zeta in HP.
  set (t := fst (fixed_point (current cfg) (ambient_temp cfg)
                   (conductor_resistance c)
                   (series_resistance (layers cfg ++ external_layers cfg))
                   10 0 (max_conductor_temp cfg))) in *.
  assert (Hlosses : 0 < current cfg ^ 2 * conductor_resistance c t).
  { assert (Hres : resistive c).
    { split; cbn; [lra |]. pose proof PI_RGT_0. nra. }
    rewrite (conductor_resistance_resistive c t Hres).
    unfold R_at, R_20. cbn [temp_coefficient resistivity inner_radius
      outer_radius c].
    destruct Hres as [_ Harea]. cbn in Harea.
    assert (0 < 0.0175 * 1 / (PI * (8.7 ^ 2 - 4 ^ 2)))
      by (apply Rdiv_lt_0_compat; [lra | cbn; lra]).
    change (current cfg) with 100. nra. }
  exists t, (current cfg ^ 2 * conductor_resistance c t).
  destruct (calculate_temperature_profile_monotonic cfg t
              (current cfg ^ 2 * conductor_resistance c t) _ Hvalid HP
              (calculate_conductor_losses_run cfg c _ eq_refl t)
              (Rlt_le _ _ Hlosses)) as (profile & Hprofile).
  exists profile. split; [exact Hlosses | exact Hprofile].
Defined.

(** ** The electrical resistance in the two solvers *)

(** The base solver evaluates the resistance of a resistive conductor at
    the candidate temperature: [R_20 (1 + alpha (T - 20))]. *)
Lemma calculate_conductor_losses_resistive (cfg : CableConfiguration)
  (conductor : CableLayer) (rest : list CableLayer) (T : R) :
  layers cfg = conductor :: rest -> resistive conductor ->
  calculate_conductor_losses (Some T) cfg
    = (Ok ((current cfg) ^ 2 * R_at conductor T), cfg).
Proof.
  intros Hc Hres.
  rewrite (calculate_conductor_losses_run cfg conductor rest Hc T).
  rewrite (conductor_resistance_resistive conductor T Hres). reflexivity.
Qed.

(** The enhanced solver passes the candidate temperature as the length:
    its resistance is that of [T] metres of conductor at 20 degC. *)
Lemma enhanced_losses_dc_run (cfg : CableConfiguration)
  (conductor : CableLayer) (rest : list CableLayer) (i T : R) :
  layers cfg = conductor :: rest -> resistive conductor ->
  Enhanced.enhanced_losses_dc i T cfg
    = (Ok (R_20 conductor * T, i ^ 2 * (R_20 conductor * T)), cfg).
Proof.
  intros Hc [Hr Ha]. unfold Enhanced.enhanced_losses_dc, bind, gets, lift, ret.
  rewrite Hc, get_electrical_resistance_total.
  rewrite (le_false _ _ Hr), (le_false _ _ Ha).
  assert (Heq : resistivity conductor * T
                / (PI * (outer_radius conductor ^ 2 - inner_radius conductor ^ 2))
                * (1 + temp_coefficient conductor * (20 - 20))
                = R_20 conductor * T).
  { unfold R_20. pose proof PI_RGT_0 as Hpi. field. split; nra. }
  rewrite Heq. reflexivity.
Qed.

Lemma enhanced_conductor_resistive : resistive Cables.enhanced_conductor.
Proof. split; cbn; [lra |]. pose proof PI_RGT_0. nra. Qed.

(** C7, where the code departs from it: on the cable of
    [create_enhanced_mv_cable_in_air] at the first candidate of the
    enhanced solver, 75 degC, the base solver uses
    [R_20 (1 + alpha (75 - 20))], and the enhanced one [R_20 * 75], which
    is another value. *)
Theorem enhanced_solver_resistance_at_20_degrees :
  calculate_conductor_losses (Some 75) Cables.create_enhanced_mv_cable_in_air
    = (Ok (400 ^ 2 * (R_20 Cables.enhanced_conductor
                      * (1 + 0.00393 * (75 - 20)))),
       Cables.create_enhanced_mv_cable_in_air) /\
  Enhanced.enhanced_losses_dc 400 75 Cables.create_enhanced_mv_cable_in_air
    = (Ok (R_20 Cables.enhanced_conductor * 75,
           400 ^ 2 * (R_20 Cables.enhanced_conductor * 75)),
       Cables.create_enhanced_mv_cable_in_air) /\
  R_20 Cables.enhanced_conductor * 75
    <> R_20 Cables.enhanced_conductor * (1 + 0.00393 * (75 - 20)).
Proof.
  split; [| split].
  - exact (calculate_conductor_losses_resistive
             Cables.create_enhanced_mv_cable_in_air _ _ 75 eq_refl
             enhanced_conductor_resistive).
  - exact (enhanced_losses_dc_run
             Cables.create_enhanced_mv_cable_in_air _ _ 400 75 eq_refl
             enhanced_conductor_resistive).
  - assert (Hpos : 0 < R_20 Cables.enhanced_conductor).
    { destruct enhanced_conductor_resistive as [Hr Ha].
      unfold R_20. apply Rdiv_lt_0_compat; [lra | exact Ha]. }
    nra.
Qed.

(** ** The mutual thermal resistance *)

Lemma py_max_zero (x : R) : Py.max 0 x = Rmax 0 x.
Proof.
  unfold Py.max, gt, lt, Rmax.
  destruct (Rlt_dec 0 x), (Rle_dec 0 x); lra.
Qed.

Lemma calculate_mutual_thermal_resistance_run
  (distance depth soil_resistivity : R) :
  0 < distance -> 0 < depth ->
  Spacing.calculate_mutual_thermal_resistance distance depth soil_resistivity
    = Ok (Py.max 0
            (soil_resistivity / (2 * PI) * ln (2 * depth / distance))).
Proof.
  intros Hd Hz. unfold Spacing.calculate_mutual_thermal_resistance.
  rewrite (le_false _ _ Hd), (truediv_ok _ _ two_pi_nonzero). cbn [rbind].
  rewrite truediv_ok by lra. cbn [rbind].
  rewrite math_log_ok; [reflexivity |].
  apply Rdiv_lt_0_compat; lra.
Qed.

(** C8 (as the code has it): for positive distance and depth the method
    returns [(soil_resistivity / (2 pi)) ln(2 depth / distance)] clamped
    below at zero; it is that value itself when the cables are no farther
    apart than twice the depth and the soil resistivity is not negative. *)
Theorem calculate_mutual_thermal_resistance_clamped
  (distance depth soil_resistivity : R) :
  0 < distance -> 0 < depth ->
  Spacing.calculate_mutual_thermal_resistance distance depth soil_resistivity
    = Ok (Rmax 0 (soil_resistivity / (2 * PI) * ln (2 * depth / distance)))
  /\ (distance <= 2 * depth -> 0 <= soil_resistivity ->
      Spacing.calculate_mutual_thermal_resistance distance depth
        soil_resistivity
      = Ok (soil_resistivity / (2 * PI) * ln (2 * depth / distance))).
Proof.
  intros Hd Hz.
  rewrite (calculate_mutual_thermal_resistance_run _ _ _ Hd Hz), py_max_zero.
  split; [reflexivity |]. intros Hnear Hsoil. f_equal. apply Rmax_right.
  assert (Hratio : 1 <= 2 * depth / distance).
  { apply Rmult_le_reg_r with distance; [assumption |].
    unfold Rdiv. rewrite Rmult_assoc, Rinv_l by lra. lra. }
  assert (Hln : 0 <= ln (2 * depth / distance)).
  { rewrite <- ln_1. destruct Hratio as [Hlt | Heq].
    - left. apply ln_increasing; lra.
    - rewrite <- Heq. right. reflexivity. }
  pose proof PI_RGT_0 as Hpi.
  apply Rmult_le_pos; [| assumption].
  apply Rle_mult_inv_pos; lra.
Qed.

(** Two cables 0.5 m apart at a depth of 1 m. *)
Lemma calculate_mutual_thermal_resistance_clamped_witness :
  Spacing.calculate_mutual_thermal_resistance 0.5 1 1
    = Ok (1 / (2 * PI) * ln (2 * 1 / 0.5)).
Proof.
  apply (calculate_mutual_thermal_resistance_clamped 0.5 1 1); lra.
Defined.

(** C8, refuted as stated: two cables 4 m apart at a depth of 1 m.  The
    formula gives a negative value and the method returns zero. *)
Lemma distant_cables_clamped_to_zero :
  0 < 4 /\ 0 < 1 /\
  Spacing.calculate_mutual_thermal_resistance 4 1 1 = Ok 0 /\
  1 / (2 * PI) * ln (2 * 1 / 4) < 0.
Proof.
  assert (Hneg : 1 / (2 * PI) * ln (2 * 1 / 4) < 0).
  { assert (Hln : ln (2 * 1 / 4) < 0).
    { rewrite <- ln_1. apply ln_increasing; lra. }
    pose proof PI_RGT_0 as Hpi.
    assert (Hinv : 0 < 1 / (2 * PI)) by (apply Rdiv_lt_0_compat; lra).
    nra. }
  split; [lra |]. split; [lra |]. split; [| exact Hneg].
  rewrite calculate_mutual_thermal_resistance_run by lra.
  unfold Py.max, gt. rewrite lt_false by lra. reflexivity.
Qed.

(** ** The U-value of a wall *)

Lemma get_lambda_known (db : Thermal.Database) (name : string)
  (m : Thermal.Material) :
  db !! name = Some m ->
  Thermal.get_lambda name db = (Ok (Some (Thermal.lambda m)), db).
Proof.
  intros Hm. unfold Thermal.get_lambda, Thermal.get_material, bind, gets, ret.
  rewrite Hm. reflexivity.
Qed.

Lemma u_value_step_run (db : Thermal.Database) (name : string)
  (thickness : R) (m : Thermal.Material) (v : Thermal.ULocals) :
  db !! name = Some m -> Thermal.lambda m <> 0 ->
  Thermal.u_value_step (name, thickness) v db =
    (Ok (Next,
         Thermal.mkULocals
           (Thermal.R_total v + thickness / Thermal.lambda m)
           (Thermal.layer_details v ++
              [Thermal.mkLayerDetail name thickness (Thermal.lambda m)
                 (thickness / Thermal.lambda m)])), db).
Proof.
  intros Hm Hpos. unfold Thermal.u_value_step. cbn [fst snd].
  rewrite (bind_ok _ _ _ _ _ (get_lambda_known db name m Hm)).
  unfold bind, lift, ret. rewrite (truediv_ok _ _ Hpos). reflexivity.
Qed.

Lemma u_value_loop (db : Thermal.Database) (layers : list (string * R)) :
  Forall (known_positive db) layers ->
  forall v : Thermal.ULocals,
  exists details : list Thermal.LayerDetail,
    for_in layers Thermal.u_value_step v db =
      (Ok (Thermal.mkULocals
             (Thermal.R_total v
              + fold_right (fun dl acc => fst dl / snd dl + acc) 0
                  (wall_layers db layers))
             details), db).
Proof.
  induction 1 as [| [name thickness] layers (m & Hm & Hpos) _ IH];
    intros v; cbn [for_in wall_layers map fold_right].
  - exists (Thermal.layer_details v). unfold ret. rewrite Rplus_0_r.
    destruct v; reflexivity.
  - cbn [fst snd] in Hm.
    rewrite (bind_ok _ _ _ _ _
               (u_value_step_run db name thickness m v Hm ltac:(lra))).
    match goal with
    | |- context [for_in layers Thermal.u_value_step ?v' db] =>
        destruct (IH v') as [details Hloop]; rewrite Hloop
    end.
    exists details. cbn [Thermal.R_total fst snd]. rewrite Hm.
    do 3 f_equal. fold (wall_layers db layers). lra.
Qed.

(** The run of [calculate_u_value] on a wall of known materials of
    positive conductivity: the series resistance, and its inverse as the
    U-value when it is positive, [float('inf')] otherwise. *)
Lemma calculate_u_value_run (db : Thermal.Database)
  (layers : list (string * R)) :
  layers <> [] -> Forall (known_positive db) layers ->
  exists details : list Thermal.LayerDetail,
    Thermal.calculate_u_value layers db =
      (Ok (Thermal.mkUValue
             (if gt (wall_resistance (wall_layers db layers)) 0
              then Finite (1 / wall_resistance (wall_layers db layers))
              else PlusInfinity)
             (wall_resistance (wall_layers db layers)) 0.13 0.04 details),
       db).
Proof.
  intros Hne Hall. destruct layers as [| layer layers]; [congruence |].
  unfold Thermal.calculate_u_value.
  destruct (u_value_loop db (layer :: layers) Hall
              (Thermal.mkULocals (0.13 + 0.04) [])) as [details Hloop].
  exists details. rewrite (bind_ok _ _ _ _ _ Hloop).
  cbn [Thermal.R_total].
  assert (Htotal : 0.13 + 0.04
                   + fold_right (fun dl acc => fst dl / snd dl + acc) 0
                       (wall_layers db (layer :: layers))
                   = wall_resistance (wall_layers db (layer :: layers)))
    by (unfold wall_resistance; lra).
  rewrite Htotal.
  unfold gt, lt. destruct (Rlt_dec 0 _) as [Hpos | Hneg].
  - unfold bind, lift, ret. rewrite truediv_ok by lra. reflexivity.
  - reflexivity.
Qed.

(** C9 (as the code has it): for a non-empty wall of materials the
    database knows with positive conductivity, [calculate_u_value]
    returns the total resistance [0.13 + sum d_i / lambda_i + 0.04]; the
    U-value is its inverse when that total is positive, as it is for
    thicknesses that are not negative, and [float('inf')] when it is
    not. *)
Theorem calculate_u_value_series (db : Thermal.Database)
  (layers : list (string * R)) :
  layers <> [] -> Forall (known_positive db) layers ->
  exists r : Thermal.UValue,
    Thermal.calculate_u_value layers db = (Ok r, db) /\
    Thermal.total_resistance_m2K_W r = wall_resistance (wall_layers db layers) /\
    (0 < Thermal.total_resistance_m2K_W r ->
     Thermal.u_value_W_m2K r = Finite (1 / Thermal.total_resistance_m2K_W r)) /\
    (Thermal.total_resistance_m2K_W r <= 0 ->
     Thermal.u_value_W_m2K r = PlusInfinity) /\
    (Forall (fun layer => 0 <= snd layer) layers ->
     0 < Thermal.total_resistance_m2K_W r).
Proof.
  intros Hne Hall.
  destruct (calculate_u_value_run db layers Hne Hall) as [details Hrun].
  eexists. split; [exact Hrun |]. cbn [Thermal.total_resistance_m2K_W
    Thermal.u_value_W_m2K]. split; [reflexivity |]. split; [| split].
  - intros Hpos. unfold gt. rewrite (lt_true _ _ Hpos). reflexivity.
  - intros Hneg. unfold gt. rewrite (lt_false _ _ Hneg). reflexivity.
  - intros Hthick. unfold wall_resistance.
    assert (0 <= fold_right (fun dl acc => fst dl / snd dl + acc) 0
                   (wall_layers db layers)); [| lra].
    clear Hrun Hne. induction Hall as [| [name d] ls (m & Hm & Hpos) _ IH];
      cbn [wall_layers map fold_right fst snd]; [lra |].
    inversion Hthick as [| ? ? Hd Hrest]; subst. cbn [fst snd] in Hm, Hd.
    rewrite Hm. specialize (IH Hrest). unfold wall_layers in IH.
    assert (0 <= d / Thermal.lambda m)
      by (apply Rle_mult_inv_pos; assumption).
    lra.
Qed.

Lemma materials_beton :
  Thermal.MATERIALS !! "Beton (Normal)"
    = Some (Thermal.mkMaterial 2.1 2400 1000).
Proof. reflexivity. Qed.

Lemma materials_eps :
  Thermal.MATERIALS !! "Polystyrol (EPS)"
    = Some (Thermal.mkMaterial 0.035 30 1500).
Proof. reflexivity. Qed.

(** The reference wall: 0.20 m of concrete and 0.12 m of EPS.  Its total
    resistance is 7757/2100, about 3.694 m2K/W, and its U-value 2100/7757,
    about 0.2707 W/(m2K). *)
Lemma calculate_u_value_series_witness :
  exists r : Thermal.UValue,
    Thermal.calculate_u_value
      [("Beton (Normal)", 0.20); ("Polystyrol (EPS)", 0.12)]
      Thermal.MATERIALS
    = (Ok r, Thermal.MATERIALS) /\
    Thermal.total_resistance_m2K_W r = 7757 / 2100 /\
    Thermal.u_value_W_m2K r = Finite (1 / Thermal.total_resistance_m2K_W r) /\
    3.693 < Thermal.total_resistance_m2K_W r < 3.694 /\
    0.2707 < 1 / Thermal.total_resistance_m2K_W r < 0.2708.
Proof.
  assert (Hknown : Forall (known_positive Thermal.MATERIALS)
                     [("Beton (Normal)", 0.20); ("Polystyrol (EPS)", 0.12)]).
  { repeat constructor.
    - exists (Thermal.mkMaterial 2.1 2400 1000).
      split; [exact materials_beton | cbn; lra].
    - exists (Thermal.mkMaterial 0.035 30 1500).
      split; [exact materials_eps | cbn; lra]. }
  assert (Hne : [("Beton (Normal)", 0.20); ("Polystyrol (EPS)", 0.12)]
                <> @nil (string * R)) by discriminate.
  destruct (calculate_u_value_series Thermal.MATERIALS _ Hne Hknown)
    as (r & Hrun & Htotal & Hfinite & _ & _).
  assert (Hvalue : Thermal.total_resistance_m2K_W r = 7757 / 2100).
  { rewrite Htotal. unfold wall_resistance, wall_layers.
    cbn [map fold_right fst snd]. rewrite materials_beton, materials_eps.
    cbn [Thermal.lambda]. lra. }
  exists r. split; [exact Hrun |]. split; [exact Hvalue |].
  split; [apply Hfinite; rewrite Hvalue; lra |].
  rewrite Hvalue. split; lra.
Defined.

(** C9, refuted as stated: a wall of one known material of positive
    conductivity whose thickness was entered negative.  The total
    resistance is -0.83 and the U-value returned is [float('inf')], not
    the inverse of the total. *)
Lemma negative_thickness_gives_infinity :
  Forall (known_positive Thermal.MATERIALS) [("Beton (Normal)", -2.1)] /\
  exists r : Thermal.UValue,
    Thermal.calculate_u_value [("Beton (Normal)", -2.1)] Thermal.MATERIALS
      = (Ok r, Thermal.MATERIALS) /\
    Thermal.total_resistance_m2K_W r = -0.83 /\
    Thermal.u_value_W_m2K r = PlusInfinity /\
    Thermal.u_value_W_m2K r <> Finite (1 / Thermal.total_resistance_m2K_W r).
Proof.
  assert (Hknown : Forall (known_positive Thermal.MATERIALS)
                     [("Beton (Normal)", -2.1)]).
  { repeat constructor. exists (Thermal.mkMaterial 2.1 2400 1000).
    split; [exact materials_beton | cbn; lra]. }
  split; [exact Hknown |].
  assert (Hne : [("Beton (Normal)", -2.1)] <> @nil (string * R))
    by discriminate.
  destruct (calculate_u_value_run Thermal.MATERIALS _ Hne Hknown)
    as [details Hrun].
  assert (Hvalue : wall_resistance
                     (wall_layers Thermal.MATERIALS [("Beton (Normal)", -2.1)])
                   = -0.83).
  { unfold wall_resistance, wall_layers. cbn [map fold_right fst snd].
    rewrite materials_beton. cbn [Thermal.lambda]. lra. }
  rewrite Hvalue in Hrun. unfold gt in Hrun. rewrite lt_false in Hrun by lra.
  eexists. split; [exact Hrun |]. cbn. split; [reflexivity |].
  split; [reflexivity | discriminate].
Qed.

(** * Further properties of the embedded code *)

(** ** The layer: electrical resistance, continued *)

(** X1: [get_electrical_resistance] returns for every layer, length and
    temperature, a zero-area conductor included; what it returns is
    proportional to the length, and zero when the resistivity or the
    cross-section is not positive. *)
Theorem get_electrical_resistance_linear (l : CableLayer) (k length T : R) :
  exists r : R,
    get_electrical_resistance l length T = Ok r /\
    get_electrical_resistance l (k * length) T = Ok (k * r) /\
    (resistivity l <= 0 \/ (outer_radius l) ^ 2 <= (inner_radius l) ^ 2 ->
     r = 0).
Proof.
  rewrite !get_electrical_resistance_total.
  set (area := PI * ((outer_radius l) ^ 2 - (inner_radius l) ^ 2)).
  pose proof PI_RGT_0 as Hpi.
  unfold le. destruct (Rle_dec (resistivity l) 0) as [Hr | Hr].
  - exists 0. repeat split. f_equal. ring.
  - destruct (Rle_dec area 0) as [Ha | Ha].
    + exists 0. repeat split. f_equal. ring.
    + eexists. split; [reflexivity |]. split.
      * f_equal. field. lra.
      * intros [H | H]; [lra |]. exfalso. apply Ha. unfold area. nra.
Qed.

(** ** A configuration without layers *)

Lemma get_conductor_layer_no_layer (cfg : CableConfiguration) :
  layers cfg = [] -> get_conductor_layer cfg = (Raise ValueError, cfg).
Proof.
  intros Hc. unfold get_conductor_layer, bind, gets, raise. rewrite Hc.
  reflexivity.
Qed.

Lemma calculate_conductor_losses_no_layer (cfg : CableConfiguration)
  (temperature : option R) :
  layers cfg = [] ->
  calculate_conductor_losses temperature cfg = (Raise ValueError, cfg).
Proof.
  intros Hc. unfold calculate_conductor_losses.
  destruct temperature as [t |]; unfold bind at 1, ret, gets at 1;
    apply bind_raise, get_conductor_layer_no_layer, Hc.
Qed.

(** X2: on a configuration without layers every method that needs the
    conductor raises [ValueError].  The solver, the losses and the
    profile leave the configuration as it was; [calculate_max_current]
    raises at its first probe, after it has overwritten [current] with
    5000. *)
Theorem no_layer_raises (cfg : CableConfiguration) :
  layers cfg = [] ->
  (forall temperature,
     calculate_conductor_losses temperature cfg = (Raise ValueError, cfg)) /\
  calculate_conductor_temperature cfg = (Raise ValueError, cfg) /\
  calculate_temperature_profile cfg = (Raise ValueError, cfg) /\
  calculate_max_current cfg = (Raise ValueError, set_current 5000 cfg).
Proof.
  intros Hc. split; [| split; [| split]].
  - intros temperature. apply calculate_conductor_losses_no_layer, Hc.
  - apply calculate_conductor_temperature_no_layer, Hc.
  - unfold calculate_temperature_profile.
    apply bind_raise, calculate_conductor_temperature_no_layer, Hc.
  - unfold calculate_max_current, max_current_search, range.
    apply bind_raise. cbn [seq for_in]. apply bind_raise.
    replace (set_current 5000 cfg)
      with (set_current ((i_min (mkSearchLocals 0 10000)
                          + i_max (mkSearchLocals 0 10000)) / 2) cfg)
      by (cbn [i_min i_max]; f_equal; lra).
    apply search_step_raise.
    apply calculate_conductor_temperature_no_layer. exact Hc.
Qed.

Lemma no_layer_raises_witness :
  calculate_max_current (init "Custom Cable")
    = (Raise ValueError, set_current 5000 (init "Custom Cable")).
Proof.
  apply (no_layer_raises (init "Custom Cable")). reflexivity.
Defined.

(** ** Adding layers *)

Lemma layer_resistance_nonneg (l : CableLayer) :
  0 < thermal_conductivity l -> 0 <= layer_resistance l.
Proof.
  intros Hk. unfold layer_resistance.
  destruct (le (inner_radius l) 0 || le (outer_radius l) (inner_radius l))
    eqn:Hguard; [lra |].
  apply guard_false_valid in Hguard.
  apply Rlt_le, (shell_resistance_sign l Hguard), Hk.
Qed.

Lemma series_resistance_nonneg (ls : list CableLayer) :
  Forall (fun l => 0 < thermal_conductivity l) ls ->
  0 <= series_resistance ls.
Proof.
  unfold series_resistance. induction 1 as [| l ls Hl _ IH]; cbn; [lra |].
  pose proof (layer_resistance_nonneg l Hl). lra.
Qed.

(** X3: when every conductivity is positive the accumulator returns,
    whatever the radii, and its total is not negative. *)
Theorem get_total_thermal_resistance_nonneg (cfg : CableConfiguration) :
  Forall (fun l => 0 < thermal_conductivity l)
    (layers cfg ++ external_layers cfg) ->
  exists r : R,
    get_total_thermal_resistance cfg = (Ok r, cfg) /\ 0 <= r.
Proof.
  intros Hpos. eexists. split.
  - apply get_total_thermal_resistance_run.
    eapply Forall_impl; [exact Hpos |]. intros l Hl _. cbn in Hl. lra.
  - apply series_resistance_nonneg, Hpos.
Qed.

Lemma get_total_thermal_resistance_nonneg_witness :
  exists r : R,
    get_total_thermal_resistance Cables.create_mv_cable_240mm2_xlpe
      = (Ok r, Cables.create_mv_cable_240mm2_xlpe) /\ 0 <= r.
Proof.
  apply get_total_thermal_resistance_nonneg.
  cbn. repeat constructor; cbn; lra.
Defined.

(** X4: the total after [add_layer] or [add_external_layer] is the total
    before plus the resistance of the new layer, which is zero for a layer
    that starts at radius zero and positive for a valid one. *)
Theorem add_layer_adds_resistance (cfg : CableConfiguration)
  (l : CableLayer) (r : R) :
  Forall conducting (layers cfg ++ external_layers cfg) ->
  conducting l ->
  get_total_thermal_resistance cfg = (Ok r, cfg) ->
  get_total_thermal_resistance (snd (add_layer l cfg))
    = (Ok (r + layer_resistance l), snd (add_layer l cfg)) /\
  get_total_thermal_resistance (snd (add_external_layer l cfg))
    = (Ok (r + layer_resistance l), snd (add_external_layer l cfg)) /\
  (inner_radius l <= 0 -> layer_resistance l = 0) /\
  (valid_layer l -> 0 < layer_resistance l).
Proof.
  intros Hall Hl Hrun.
  rewrite (get_total_thermal_resistance_run cfg Hall) in Hrun.
  inversion Hrun as [Hr]. clear Hrun.
  apply Forall_app in Hall as [Hin Hex].
  assert (Hone : series_resistance [l] = layer_resistance l)
    by (unfold series_resistance; cbn; lra).
  split; [| split; [| split]].
  - rewrite get_total_thermal_resistance_run.
    + cbn [add_layer modify snd layers external_layers].
      rewrite !series_resistance_app, Hone. do 2 f_equal. lra.
    + cbn [add_layer modify snd layers external_layers].
      repeat (apply Forall_app; split); try assumption.
      constructor; [assumption | constructor].
  - rewrite get_total_thermal_resistance_run.
    + cbn [add_external_layer modify snd layers external_layers].
      rewrite !series_resistance_app, Hone. do 2 f_equal. lra.
    + cbn [add_external_layer modify snd layers external_layers].
      repeat (apply Forall_app; split); try assumption.
      constructor; [assumption | constructor].
  - intros Hi. unfold layer_resistance. rewrite (le_true _ _ Hi). reflexivity.
  - apply layer_resistance_valid.
Qed.

Lemma add_layer_adds_resistance_witness :
  exists r : R,
    get_total_thermal_resistance Cables.create_mv_cable_240mm2_xlpe
      = (Ok r, Cables.create_mv_cable_240mm2_xlpe) /\
    get_total_thermal_resistance
      (snd (add_external_layer Cables.reference_layer
              Cables.create_mv_cable_240mm2_xlpe))
    = (Ok (r + layer_resistance Cables.reference_layer),
       snd (add_external_layer Cables.reference_layer
              Cables.create_mv_cable_240mm2_xlpe)).
Proof.
  eexists. split.
  - exact (get_total_thermal_resistance_run _ mv_cable_conducting).
  - apply (add_layer_adds_resistance Cables.create_mv_cable_240mm2_xlpe
             Cables.reference_layer _ mv_cable_conducting).
    + intros _. cbn. lra.
    + exact (get_total_thermal_resistance_run _ mv_cable_conducting).
Defined.

(** ** The solver when the update does not depend on the candidate *)

Lemma fixed_point_constant (I amb : R) (R_el : R -> R) (R_th c : R)
  (n : nat) (T0 : R) :
  (forall T, update I amb R_el R_th T = c) ->
  fixed_point I amb R_el R_th (S (S n)) 0 T0 =
    if lt (Rabs (c - T0)) 0.1 then (T0, 1%nat) else (c, 2%nat).
Proof.
  intros Hc. cbn [fixed_point]. rewrite !Hc.
  destruct (lt (Rabs (c - T0)) 0.1); [reflexivity |].
  replace (c - c) with 0 by ring. rewrite Rabs_R0, lt_true by lra.
  reflexivity.
Qed.

Lemma calculate_conductor_temperature_idle
  (cfg : CableConfiguration) (conductor : CableLayer)
  (rest : list CableLayer) :
  layers cfg = conductor :: rest ->
  Forall conducting (layers cfg ++ external_layers cfg) ->
  current cfg = 0 ->
  exists d : Details,
    calculate_conductor_temperature cfg
      = (Ok (if lt (Rabs (ambient_temp cfg - max_conductor_temp cfg)) 0.1
             then max_conductor_temp cfg else ambient_temp cfg, d), cfg) /\
    iterations d =
      (if lt (Rabs (ambient_temp cfg - max_conductor_temp cfg)) 0.1
       then 1%nat else 2%nat).
Proof.
  intros Hc Hall Hzero.
  destruct (calculate_conductor_temperature_run cfg conductor rest Hc Hall)
    as [P HP].
  cbn zeta in HP.
  rewrite (fixed_point_constant _ _ _ _ (ambient_temp cfg)) in HP.
  - destruct (lt _ 0.1); eexists; (split; [exact HP | reflexivity]).
  - intros T. unfold update. rewrite Hzero. ring.
Qed.

(** X5: without current the solver returns the ambient temperature after
    two iterations, unless the ambient temperature is within 0.1 K of
    [max_conductor_temp]: then it returns [max_conductor_temp] itself
    after one. *)
Theorem calculate_conductor_temperature_no_current
  (cfg : CableConfiguration) (conductor : CableLayer)
  (rest : list CableLayer) :
  layers cfg = conductor :: rest ->
  Forall conducting (layers cfg ++ external_layers cfg) ->
  current cfg = 0 ->
  exists d : Details,
    calculate_conductor_temperature cfg
      = (Ok (if lt (Rabs (ambient_temp cfg - max_conductor_temp cfg)) 0.1
             then max_conductor_temp cfg else ambient_temp cfg, d), cfg) /\
    iterations d =
      (if lt (Rabs (ambient_temp cfg - max_conductor_temp cfg)) 0.1
       then 1%nat else 2%nat).
Proof. exact (calculate_conductor_temperature_idle cfg conductor rest). Qed.

(** The library's medium-voltage cable carries no current when it is
    created: the solver finds it at the ambient 20 degC. *)
Lemma mv_cable_idle :
  exists d : Details,
    calculate_conductor_temperature Cables.create_mv_cable_240mm2_xlpe
      = (Ok (20, d), Cables.create_mv_cable_240mm2_xlpe) /\
    iterations d = 2%nat.
Proof.
  destruct (calculate_conductor_temperature_idle
              Cables.create_mv_cable_240mm2_xlpe Cables.mv_conductor _
              eq_refl mv_cable_conducting eq_refl) as (d & Hrun & Hn).
  change (ambient_temp Cables.create_mv_cable_240mm2_xlpe) with 20
    in Hrun, Hn.
  change (max_conductor_temp Cables.create_mv_cable_240mm2_xlpe) with 90
    in Hrun, Hn.
  rewrite lt_false in Hrun, Hn by (rewrite Rabs_left; lra).
  exists d. split; assumption.
Qed.

Lemma calculate_conductor_temperature_no_current_witness :
  exists d : Details,
    calculate_conductor_temperature Cables.create_mv_cable_240mm2_xlpe
      = (Ok (20, d), Cables.create_mv_cable_240mm2_xlpe) /\
    iterations d = 2%nat.
Proof.
  destruct (calculate_conductor_temperature_no_current
              Cables.create_mv_cable_240mm2_xlpe Cables.mv_conductor _
              eq_refl mv_cable_conducting eq_refl) as (d & Hrun & Hn).
  change (ambient_temp Cables.create_mv_cable_240mm2_xlpe) with 20
    in Hrun, Hn.
  change (max_conductor_temp Cables.create_mv_cable_240mm2_xlpe) with 90
    in Hrun, Hn.
  rewrite lt_false in Hrun, Hn by (rewrite Rabs_left; lra).
  exists d. split; assumption.
Defined.

(** X6: for a conductor without temperature coefficient the solver
    returns the steady state [ambient_temp + current^2 R_20 R_th] exactly,
    in two iterations, unless that temperature is within 0.1 K of
    [max_conductor_temp]: then it returns [max_conductor_temp]. *)
Theorem calculate_conductor_temperature_no_coefficient
  (cfg : CableConfiguration) (conductor : CableLayer)
  (rest : list CableLayer) :
  layers cfg = conductor :: rest ->
  Forall conducting (layers cfg ++ external_layers cfg) ->
  resistive conductor ->
  temp_coefficient conductor = 0 ->
  let steady := ambient_temp cfg
                + (current cfg) ^ 2 * R_20 conductor
                  * series_resistance (layers cfg ++ external_layers cfg) in
  exists d : Details,
    calculate_conductor_temperature cfg
      = (Ok (if lt (Rabs (steady - max_conductor_temp cfg)) 0.1
             then max_conductor_temp cfg else steady, d), cfg) /\
    (iterations d <= 2)%nat.
Proof.
  intros Hc Hall Hres Halpha steady.
  destruct (calculate_conductor_temperature_run cfg conductor rest Hc Hall)
    as [P HP].
  cbn zeta in HP.
  rewrite (fixed_point_constant _ _ _ _ steady) in HP.
  - destruct (lt _ 0.1); eexists; (split; [exact HP | cbn; lia]).
  - intros T. unfold update, steady.
    rewrite (conductor_resistance_resistive conductor T Hres).
    unfold R_at. rewrite Halpha. ring.
Qed.

Lemma hollow_cable_conducting :
  Forall conducting
    (layers Cables.hollow_cable ++ external_layers Cables.hollow_cable).
Proof. cbn. repeat constructor; intros _; cbn; lra. Qed.

Lemma hollow_conductor_resistive :
  resistive (mkCableLayer "Conductor (Cu)" "Copper" 4 8.7 380 0.0175 0).
Proof. split; cbn; [lra |]. pose proof PI_RGT_0. nra. Qed.

Lemma calculate_conductor_temperature_no_coefficient_witness :
  exists (t : R) (d : Details),
    calculate_conductor_temperature Cables.hollow_cable
      = (Ok (t, d), Cables.hollow_cable) /\
    (iterations d <= 2)%nat.
Proof.
  destruct (calculate_conductor_temperature_no_coefficient
              Cables.hollow_cable _ _ eq_refl hollow_cable_conducting
              hollow_conductor_resistive eq_refl) as (d & Hrun & Hn).
  eexists. exists d. split; [exact Hrun | exact Hn].
Defined.

(** ** What the details of the solver say *)

(** The fields of the details that copy attributes of the
    configuration. *)
Lemma calculate_conductor_temperature_details (cfg cfg' : CableConfiguration)
  (t : R) (d : Details) :
  calculate_conductor_temperature cfg = (Ok (t, d), cfg') ->
  conductor_temp_C d = t /\
  ambient_temp_C d = ambient_temp cfg /\
  current_A d = current cfg /\
  max_allowed_temp_C d = max_conductor_temp cfg /\
  max_current_A d = None.
Proof.
  unfold calculate_conductor_temperature. unfold bind at 1, gets at 1.
  unfold bind at 1.
  pose proof (keeps_for_in eq (@eq_refl _) (@eq_trans _) (range 10)
                temperature_step
                (keeps_temperature_step eq (@eq_refl _) (@eq_trans _))
                (mkTempLocals (max_conductor_temp cfg) 0 0 0) cfg) as Hro.
  destruct (for_in (range 10) temperature_step _ cfg) as [[v | e] s];
    [| discriminate].
  cbn [snd] in Hro. subst s. unfold bind, gets, ret.
  intros H. inversion H; subst. repeat split.
Qed.

Section Consistency.

Variable cfg : CableConfiguration.
Variable conductor : CableLayer.
Variable rest : list CableLayer.
Variable R_th : R.
Hypothesis has_conductor : layers cfg = conductor :: rest.
Hypothesis total_run : get_total_thermal_resistance cfg = (Ok R_th, cfg).

Let R_el : R -> R := conductor_resistance conductor.
Let step : R -> R := update (current cfg) (ambient_temp cfg) R_el R_th.

(** What the local variables hold when the loop ends: either the last
    test succeeded, at the candidate that is returned and with the losses
    at that candidate; or the budget is used up, and the candidate is the
    update of the one the losses were taken at. *)
Lemma temperature_loop_locals (n : nat) :
  forall (a : nat) (v : TempLocals),
  exists v' : TempLocals,
    for_in (seq a (S n)) temperature_step v cfg = (Ok v', cfg) /\
    r_thermal v' = R_th /\
    ((CableModel.losses v' = (current cfg) ^ 2 * R_el (t_conductor v') /\
      Rabs (step (t_conductor v') - t_conductor v') < 0.1)
     \/ (iteration v' = (a + n)%nat /\
         exists T : R,
           CableModel.losses v' = (current cfg) ^ 2 * R_el T /\
           t_conductor v' = step T)).
Proof.
  induction n as [| n IH]; intros a v; cbn [seq for_in];
    rewrite (bind_ok _ _ _ _ _
               (temperature_step_run cfg conductor rest R_th has_conductor
                  total_run a v));
    fold R_el; fold step; unfold lt;
    destruct (Rlt_dec (Rabs (step (t_conductor v) - t_conductor v)) 0.1)
      as [Hnear | Hfar].
  - eexists. split; [reflexivity |]. split; [reflexivity |].
    left. split; [reflexivity | exact Hnear].
  - eexists. split; [reflexivity |]. split; [reflexivity |].
    right. split; [cbn; lia |]. exists (t_conductor v). split; reflexivity.
  - eexists. split; [reflexivity |]. split; [reflexivity |].
    left. split; [reflexivity | exact Hnear].
  - destruct (IH (S a) (mkTempLocals (step (t_conductor v))
                          ((current cfg) ^ 2 * R_el (t_conductor v)) R_th a))
      as (v' & Hloop & Hth & Hcases).
    exists v'. split; [exact Hloop |]. split; [exact Hth |].
    destruct Hcases as [Hconv | [Hi Hlast]]; [left; exact Hconv |].
    right. split; [lia | exact Hlast].
Qed.

End Consistency.

(** The same for the method. *)
Lemma calculate_conductor_temperature_outcome (cfg : CableConfiguration)
  (conductor : CableLayer) (rest : list CableLayer) (R_th : R) :
  layers cfg = conductor :: rest ->
  get_total_thermal_resistance cfg = (Ok R_th, cfg) ->
  exists (t : R) (d : Details),
    calculate_conductor_temperature cfg = (Ok (t, d), cfg) /\
    thermal_resistance_K_m_W d = R_th /\
    ((losses_W_per_m d = (current cfg) ^ 2 * conductor_resistance conductor t /\
      Rabs (update (current cfg) (ambient_temp cfg)
              (conductor_resistance conductor) R_th t - t) < 0.1)
     \/ (iterations d = 10%nat /\
         exists T : R,
           losses_W_per_m d = (current cfg) ^ 2 * conductor_resistance conductor T /\
           t = update (current cfg) (ambient_temp cfg)
                 (conductor_resistance conductor) R_th T)).
Proof.
  intros Hc Htotal.
  destruct (temperature_loop_locals cfg conductor rest R_th Hc Htotal 9 0%nat
              (mkTempLocals (max_conductor_temp cfg) 0 0 0))
    as (v' & Hloop & Hth & Hcases).
  exists (t_conductor v'). eexists. split.
  - unfold calculate_conductor_temperature, range.
    unfold bind at 1, gets at 1. rewrite (bind_ok _ _ _ _ _ Hloop).
    reflexivity.
  - cbn [thermal_resistance_K_m_W losses_W_per_m iterations].
    split; [exact Hth |].
    destruct Hcases as [Hconv | [Hi Hlast]]; [left; exact Hconv |].
    right. split; [rewrite Hi; reflexivity | exact Hlast].
Qed.

(** X7: the details the solver returns always satisfy
    [theta_c = theta_a + W R_th] to within 0.1 K, exactly so when the
    budget ran out; and whenever fewer than 10 iterations are reported
    the losses are those at the returned temperature. *)
Theorem calculate_conductor_temperature_consistent (cfg : CableConfiguration)
  (conductor : CableLayer) (rest : list CableLayer) (R_th : R) :
  layers cfg = conductor :: rest ->
  get_total_thermal_resistance cfg = (Ok R_th, cfg) ->
  exists (t : R) (d : Details),
    calculate_conductor_temperature cfg = (Ok (t, d), cfg) /\
    Rabs (ambient_temp_C d
          + losses_W_per_m d * thermal_resistance_K_m_W d
          - conductor_temp_C d) < 0.1 /\
    ((iterations d < 10)%nat ->
     losses_W_per_m d = (current cfg) ^ 2 * conductor_resistance conductor t).
Proof.
  intros Hc Htotal.
  destruct (calculate_conductor_temperature_outcome cfg conductor rest R_th
              Hc Htotal) as (t & d & Hrun & Hth & Hcases).
  destruct (calculate_conductor_temperature_details _ _ _ _ Hrun)
    as (Ht & Hamb & _).
  exists t, d. split; [exact Hrun |]. rewrite Hth, Hamb, Ht.
  destruct Hcases as [[Hloss Hnear] | [Hn (T & Hloss & Hlast)]].
  - split; [| intros _; exact Hloss].
    rewrite Hloss. exact Hnear.
  - split; [| intros Hlt; lia].
    rewrite Hloss, Hlast. unfold update.
    match goal with |- Rabs ?x < _ => replace x with 0 by ring end.
    rewrite Rabs_R0. lra.
Qed.

Lemma calculate_conductor_temperature_consistent_witness :
  exists (t : R) (d : Details),
    calculate_conductor_temperature Cables.overloaded_tube
      = (Ok (t, d), Cables.overloaded_tube) /\
    Rabs (ambient_temp_C d
          + losses_W_per_m d * thermal_resistance_K_m_W d
          - conductor_temp_C d) < 0.1.
Proof.
  assert (Hall : Forall conducting
                   (layers Cables.overloaded_tube
                      ++ external_layers Cables.overloaded_tube))
    by (cbn; repeat constructor; intros _; cbn; lra).
  destruct (calculate_conductor_temperature_consistent
              Cables.overloaded_tube Cables.overloaded_conductor [] _
              eq_refl (get_total_thermal_resistance_run _ Hall))
    as (t & d & Hrun & Hnear & _).
  exists t, d. split; assumption.
Defined.

(** X8: for a resistive conductor the update is affine in the candidate,
    with slope [b = current^2 R_20 alpha R_th].  When [b < 1] there is one
    steady state, and whenever the solver reports fewer than 10
    iterations the temperature it returns is within [0.1 / (1 - b)] K of
    it. *)
Theorem calculate_conductor_temperature_accuracy (cfg : CableConfiguration)
  (conductor : CableLayer) (rest : list CableLayer) :
  layers cfg = conductor :: rest ->
  Forall conducting (layers cfg ++ external_layers cfg) ->
  resistive conductor ->
  let R_th := series_resistance (layers cfg ++ external_layers cfg) in
  let b := (current cfg) ^ 2 * R_20 conductor * temp_coefficient conductor
           * R_th in
  b < 1 ->
  exists (t : R) (d : Details) (steady : R),
    calculate_conductor_temperature cfg = (Ok (t, d), cfg) /\
    steady = ambient_temp cfg + (current cfg) ^ 2 * R_at conductor steady * R_th /\
    ((iterations d < 10)%nat -> Rabs (t - steady) < 0.1 / (1 - b)).
Proof.
  intros Hc Hall Hres R_th b Hb.
  destruct (calculate_conductor_temperature_outcome cfg conductor rest R_th
              Hc (get_total_thermal_resistance_run cfg Hall))
    as (t & d & Hrun & _ & Hcases).
  set (c := ambient_temp cfg
            + (current cfg) ^ 2 * R_20 conductor
              * (1 - 20 * temp_coefficient conductor) * R_th).
  assert (Hupd : forall T,
             update (current cfg) (ambient_temp cfg)
               (conductor_resistance conductor) R_th T = c + b * T).
  { intros T. unfold update.
    rewrite (conductor_resistance_resistive conductor T Hres).
    unfold R_at, c, b. ring. }
  exists t, d, (c / (1 - b)). split; [exact Hrun |]. split.
  - unfold R_at, c, b. field. fold b. lra.
  - intros Hlt. destruct Hcases as [[_ Hnear] | [Hn _]]; [| lia].
    rewrite Hupd in Hnear.
    replace (c + b * t - t) with ((b - 1) * (t - c / (1 - b))) in Hnear
      by (field; lra).
    rewrite Rabs_mult, (Rabs_left (b - 1)) in Hnear by lra.
    apply Rmult_lt_reg_l with (1 - b); [lra |].
    replace ((1 - b) * (0.1 / (1 - b))) with 0.1 by (field; lra).
    replace (- (b - 1)) with (1 - b) in Hnear by ring. exact Hnear.
Qed.

Lemma calculate_conductor_temperature_accuracy_witness :
  exists (t : R) (d : Details) (steady : R),
    calculate_conductor_temperature Cables.hollow_cable
      = (Ok (t, d), Cables.hollow_cable) /\
    ((iterations d < 10)%nat -> Rabs (t - steady) < 0.1 / (1 - 0)).
Proof.
  destruct (calculate_conductor_temperature_accuracy Cables.hollow_cable
              _ _ eq_refl hollow_cable_conducting hollow_conductor_resistive)
    as (t & d & steady & Hrun & _ & Hacc).
  { cbn [temp_coefficient]. rewrite Rmult_0_r, Rmult_0_l. lra. }
  exists t, d, steady. split; [exact Hrun |].
  cbn [temp_coefficient] in Hacc. rewrite Rmult_0_r, Rmult_0_l in Hacc.
  exact Hacc.
Defined.

(** ** The temperature profile, continued *)

Lemma boundary_profile_radii (P : R) (ls : list CableLayer) (T : R) :
  map (fun p => fst (fst p)) (boundary_profile P ls T)
    = flat_map (fun l => [inner_radius l; outer_radius l]) ls.
Proof.
  revert T. induction ls as [| l ls IH]; intros T; cbn; [reflexivity |].
  rewrite IH. reflexivity.
Qed.

Lemma boundary_profile_last (P : R) (ls : list CableLayer) :
  ls <> [] ->
  forall T : R,
    last (temperatures (boundary_profile P ls T))
      = Some (T - P * series_resistance ls).
Proof.
  induction ls as [| l ls IH]; intros Hne T; [congruence |].
  destruct ls as [| l' ls].
  - cbn. unfold series_resistance. cbn. do 2 f_equal. lra.
  - assert (Hne' : l' :: ls <> []) by discriminate.
    specialize (IH Hne' (T - P * layer_resistance l)).
    cbn [boundary_profile temperatures map] in *.
    rewrite !last_cons. cbn [fst snd] in *.
    unfold temperatures in IH. cbn [map boundary_profile] in IH.
    rewrite !last_cons in IH. cbn [fst snd] in IH.
    destruct (last _) as [y |] eqn:Hlast.
    + rewrite IH. f_equal. unfold series_resistance. cbn. lra.
    + rewrite IH. f_equal. unfold series_resistance. cbn. lra.
Qed.

(** X9: the profile has two entries a layer, the inner and the outer
    radius of each layer in order; it starts at the conductor temperature
    and ends at that temperature less the losses times the series
    resistance of the internal layers. *)
Theorem calculate_temperature_profile_shape (cfg : CableConfiguration)
  (t losses : R) (d : Details) :
  Forall conducting (layers cfg) ->
  calculate_conductor_temperature cfg = (Ok (t, d), cfg) ->
  calculate_conductor_losses (Some t) cfg = (Ok losses, cfg) ->
  exists profile : list (R * R * string),
    calculate_temperature_profile cfg = (Ok profile, cfg) /\
    length profile = (2 * length (layers cfg))%nat /\
    map (fun p => fst (fst p)) profile
      = flat_map (fun l => [inner_radius l; outer_radius l]) (layers cfg) /\
    temperatures profile !! 0%nat = Some t /\
    last (temperatures profile)
      = Some (t - losses * series_resistance (layers cfg)).
Proof.
  intros Hall Hrun Hloss.
  exists (boundary_profile losses (layers cfg) t).
  split; [exact (calculate_temperature_profile_run cfg t losses d Hall Hrun
                   Hloss) |].
  split; [apply boundary_profile_length |].
  split; [apply boundary_profile_radii |].
  assert (Hne : layers cfg <> []).
  { intros Hnil.
    rewrite (calculate_conductor_temperature_no_layer cfg Hnil) in Hrun.
    discriminate. }
  split; [| apply boundary_profile_last; exact Hne].
  destruct (layers cfg); [congruence | reflexivity].
Qed.

Lemma calculate_temperature_profile_shape_witness :
  exists profile : list (R * R * string),
    calculate_temperature_profile Cables.create_mv_cable_240mm2_xlpe
      = (Ok profile, Cables.create_mv_cable_240mm2_xlpe) /\
    length profile = 12%nat /\
    map (fun p => fst (fst p)) profile
      = [0; 8.7; 8.7; 9.4; 9.4; 14.9; 14.9; 15.6; 15.6; 17.1; 17.1; 19.6] /\
    temperatures profile !! 0%nat = Some 20.
Proof.
  assert (Hall : Forall conducting (layers Cables.create_mv_cable_240mm2_xlpe))
    by (cbn; repeat constructor; intros _; cbn; lra).
  destruct mv_cable_idle as (d & Hrun & _).
  destruct (calculate_temperature_profile_shape
              Cables.create_mv_cable_240mm2_xlpe 20 _ d Hall Hrun
              (calculate_conductor_losses_run
                 Cables.create_mv_cable_240mm2_xlpe Cables.mv_conductor _
                 eq_refl 20))
    as (profile & Hp & Hlen & Hrad & Hfirst & _).
  exists profile. repeat split; assumption.
Defined.

(** X10: when the solver reports fewer than 10 iterations, the outermost
    temperature of the profile is, to within 0.1 K, the ambient
    temperature plus the rise over the external layers; without external
    layers the profile ends at the ambient temperature to within 0.1 K. *)
Theorem calculate_temperature_profile_closes (cfg : CableConfiguration)
  (conductor : CableLayer) (rest : list CableLayer) :
  layers cfg = conductor :: rest ->
  Forall conducting (layers cfg ++ external_layers cfg) ->
  exists (t : R) (d : Details) (profile : list (R * R * string))
         (losses outer : R),
    calculate_conductor_temperature cfg = (Ok (t, d), cfg) /\
    calculate_conductor_losses (Some t) cfg = (Ok losses, cfg) /\
    calculate_temperature_profile cfg = (Ok profile, cfg) /\
    last (temperatures profile) = Some outer /\
    ((iterations d < 10)%nat ->
     Rabs (outer - (ambient_temp cfg
                    + losses * series_resistance (external_layers cfg)))
       < 0.1).
Proof.
  intros Hc Hall.
  destruct (calculate_conductor_temperature_outcome cfg conductor rest _
              Hc (get_total_thermal_resistance_run cfg Hall))
    as (t & d & Hrun & _ & Hcases).
  pose proof (calculate_conductor_losses_run cfg conductor rest Hc t) as Hloss.
  assert (Hin : Forall conducting (layers cfg))
    by (apply Forall_app in Hall; tauto).
  pose proof (calculate_temperature_profile_run cfg t _ d Hin Hrun Hloss)
    as Hp.
  assert (Hne : layers cfg <> []) by (rewrite Hc; discriminate).
  pose proof (boundary_profile_last
                ((current cfg) ^ 2 * conductor_resistance conductor t)
                (layers cfg) Hne t) as Hlast.
  exists t, d. do 3 eexists.
  split; [exact Hrun |]. split; [exact Hloss |]. split; [exact Hp |].
  split; [exact Hlast |].
  intros Hlt. destruct Hcases as [[_ Hnear] | [Hn _]]; [| lia].
  unfold update in Hnear. rewrite series_resistance_app in Hnear.
  rewrite <- Rabs_Ropp.
  match goal with
  | H : Rabs ?x < _ |- Rabs ?y < _ => replace y with x by ring
  end.
  exact Hnear.
Qed.

Lemma calculate_temperature_profile_closes_witness :
  exists (t : R) (d : Details) (profile : list (R * R * string))
         (losses outer : R),
    calculate_conductor_temperature Cables.hollow_cable
      = (Ok (t, d), Cables.hollow_cable) /\
    calculate_temperature_profile Cables.hollow_cable
      = (Ok profile, Cables.hollow_cable) /\
    last (temperatures profile) = Some outer /\
    ((iterations d < 10)%nat ->
     Rabs (outer - (20 + losses * series_resistance [])) < 0.1).
Proof.
  destruct (calculate_temperature_profile_closes Cables.hollow_cable _ _
              eq_refl hollow_cable_conducting)
    as (t & d & profile & losses & outer & Hrun & _ & Hp & Hlast & Hnear).
  exists t, d, profile, losses, outer. repeat split; assumption.
Defined.

(** ** The ampacity search, continued *)

(** The bracket only shrinks, and after a probe the configuration is left
    at a current strictly inside the bracket the loop started from. *)
Lemma search_loop_bracket (n : nat) :
  forall (a : nat) (v v' : SearchLocals) (s s' : CableConfiguration),
    for_in (seq a n) search_step v s = (Ok v', s') ->
    i_min v < i_max v ->
    (i_min v <= i_min v' /\ i_min v' < i_max v' /\ i_max v' <= i_max v) /\
    (n <> 0%nat -> i_min v < current s' < i_max v).
Proof.
  induction n as [| n IH]; intros a v v' s s' Hloop Hv.
  - cbn in Hloop. inversion Hloop; subst. split; [lra | congruence].
  - cbn [seq for_in] in Hloop.
    set (probe := (i_min v + i_max v) / 2) in *.
    assert (Hprobe : i_min v < probe < i_max v) by (unfold probe; lra).
    pose proof (calculate_conductor_temperature_read_only
                  (set_current probe s)) as Hro.
    destruct (calculate_conductor_temperature (set_current probe s))
      as [[[t d] | e] s1] eqn:Hrun; cbn [snd] in Hro; subst s1.
    + rewrite (bind_ok _ _ _ _ _ (search_step_run a v s _ t d Hrun)) in Hloop.
      fold probe in Hloop.
      assert (Hsub : forall v1 : SearchLocals,
                 i_min v <= i_min v1 -> i_min v1 < i_max v1 ->
                 i_max v1 <= i_max v ->
                 for_in (seq (S a) n) search_step v1 (set_current probe s)
                   = (Ok v', s') ->
                 (i_min v <= i_min v' /\ i_min v' < i_max v' /\
                  i_max v' <= i_max v) /\
                 (S n <> 0%nat -> i_min v < current s' < i_max v)).
      { intros v1 Hlo Hin Hhi Hrest.
        destruct (IH _ _ _ _ _ Hrest Hin) as [(H1 & H2 & H3) Hcur].
        split; [lra |]. intros _. destruct n as [| n].
        - cbn in Hrest. inversion Hrest; subst. exact Hprobe.
        - assert (Hn : S n <> 0%nat) by discriminate.
          specialize (Hcur Hn). lra. }
      destruct (lt (abs (t - max_conductor_temp (set_current probe s))) 0.5).
      * inversion Hloop; subst. split; [lra |]. intros _. exact Hprobe.
      * destruct (gt t (max_conductor_temp (set_current probe s))).
        -- apply (Hsub (mkSearchLocals (i_min v) probe)); cbn; try lra.
           exact Hloop.
        -- apply (Hsub (mkSearchLocals probe (i_max v))); cbn; try lra.
           exact Hloop.
    + rewrite (bind_raise _ _ _ _ _ (search_step_raise a v s _ e Hrun))
        in Hloop.
      discriminate.
Qed.

(** The details [calculate_max_current] returns are those of the final
    call of the solver, with the key [max_current_A] added. *)
Lemma calculate_max_current_details (cfg cfg' : CableConfiguration)
  (i : R) (d : Details) :
  calculate_max_current cfg = (Ok (i, d), cfg') ->
  exists (v : SearchLocals) (t : R) (d' : Details),
    max_current_search cfg = (Ok v, cfg') /\
    calculate_conductor_temperature cfg' = (Ok (t, d'), cfg') /\
    d = set_max_current_A i d' /\ i = current cfg'.
Proof.
  intros Hrun. unfold calculate_max_current in Hrun. unfold bind at 1 in Hrun.
  destruct (max_current_search cfg) as [[v | e] s1]; [| discriminate].
  unfold bind at 1 in Hrun.
  pose proof (calculate_conductor_temperature_read_only s1) as Hro.
  destruct (calculate_conductor_temperature s1) as [[[t d'] | e] s2] eqn:Ht;
    [| discriminate].
  cbn [snd] in Hro. subst s2.
  unfold bind, gets, ret in Hrun. inversion Hrun; subst.
  exists v, t, d'. repeat split. exact Ht.
Qed.

(** X11: a current [calculate_max_current] returns lies strictly between
    0 and 10000 A; the details carry it under [max_current_A] and
    [current_A], with the temperature the solver finds at that current
    and the ambient and rated temperatures of the configuration. *)
Theorem calculate_max_current_range (cfg cfg' : CableConfiguration)
  (i : R) (d : Details) :
  calculate_max_current cfg = (Ok (i, d), cfg') ->
  0 < i < 10000 /\
  max_current_A d = Some i /\
  current_A d = i /\
  ambient_temp_C d = ambient_temp cfg /\
  max_allowed_temp_C d = max_conductor_temp cfg /\
  exists d' : Details,
    calculate_conductor_temperature (set_current i cfg)
      = (Ok (conductor_temp_C d, d'), set_current i cfg).
Proof.
  intros Hrun.
  pose proof (calculate_max_current_state _ _ _ _ Hrun) as Hstate.
  destruct (calculate_max_current_details _ _ _ _ Hrun)
    as (v & t & d' & Hsearch & Ht & Hd & Hi).
  destruct (calculate_conductor_temperature_details _ _ _ _ Ht)
    as (Htemp & Hamb & Hcur & Hmax & _).
  destruct (search_loop_bracket 20 0 _ _ _ _ Hsearch) as [_ Hin];
    [cbn; lra |].
  specialize (Hin ltac:(discriminate)). cbn [i_min i_max] in Hin.
  subst d. cbn [max_current_A current_A ambient_temp_C max_allowed_temp_C
                conductor_temp_C set_max_current_A].
  rewrite Hamb, Hmax, Hcur, Htemp, <- Hi. subst cfg'.
  split; [exact Hin |]. repeat split. exists d'. exact Ht.
Qed.

Lemma calculate_max_current_range_witness :
  exists d : Details,
    calculate_max_current Cables.bare_conductor
      = (Ok (5000, d), set_current 5000 Cables.bare_conductor) /\
    0 < 5000 < 10000 /\ max_current_A d = Some 5000 /\ current_A d = 5000.
Proof.
  destruct bare_conductor_ampacity as [d Hd].
  destruct (calculate_max_current_range _ _ _ _ Hd) as (H1 & H2 & H3 & _).
  exists d. repeat split; try assumption; apply H1.
Defined.

(** ** The material table *)

Lemma materials_positive (name : string) (m : Thermal.Material) :
  Thermal.MATERIALS !! name = Some m ->
  0 < Thermal.lambda m /\ 0 < Thermal.density m /\ 0 < Thermal.specific_heat m.
Proof.
  intros Hm. unfold Thermal.MATERIALS in Hm.
  apply elem_of_list_to_map_2 in Hm.
  repeat (apply elem_of_cons in Hm as [Hm | Hm];
          [inversion Hm; subst; cbn; repeat split; lra |]).
  apply elem_of_nil in Hm. contradiction.
Qed.

(** X12: [add_custom_material] and the getters round-trip: the added
    name gives back the three values entered, replacing an entry of that
    name, and every other name gives what it gave before. *)
Theorem add_custom_material_round_trip (db : Thermal.Database)
  (name other : string) (lambda_value density specific_heat : R) :
  let db' := snd (Thermal.add_custom_material name lambda_value density
                    specific_heat db) in
  Thermal.get_lambda name db' = (Ok (Some lambda_value), db') /\
  Calculator.get_density name db' = (Ok (Some density), db') /\
  Calculator.get_specific_heat name db' = (Ok (Some specific_heat), db') /\
  (other <> name ->
   Thermal.get_lambda other db' = (fst (Thermal.get_lambda other db), db') /\
   Calculator.get_density other db'
     = (fst (Calculator.get_density other db), db') /\
   Calculator.get_specific_heat other db'
     = (fst (Calculator.get_specific_heat other db), db')).
Proof.
  cbn zeta. unfold Thermal.add_custom_material, modify. cbn [snd].
  unfold Thermal.get_lambda, Calculator.get_density,
    Calculator.get_specific_heat, Thermal.get_material, bind, gets, ret.
  rewrite lookup_insert_eq. cbn. repeat split;
    rewrite lookup_insert_ne by congruence; reflexivity.
Qed.

(** ** Fourier's law *)

Lemma get_lambda_unknown (db : Thermal.Database) (name : string) :
  db !! name = None -> Thermal.get_lambda name db = (Ok None, db).
Proof.
  intros Hm. unfold Thermal.get_lambda, Thermal.get_material, bind, gets, ret.
  rewrite Hm. reflexivity.
Qed.

(** X13: [calculate_heat_flow] returns exactly when the name is not
    empty, area and thickness are positive and the material is known with
    a positive conductivity, and raises [ValueError] otherwise; it never
    divides by zero.  What it returns obeys [Q R = A dT], [q A = Q] and
    [q R = dT]. *)
Theorem calculate_heat_flow_fourier (db : Thermal.Database)
  (material_name : string) (area thickness temp_diff : R) :
  (exists (hf : Thermal.HeatFlow) (m : Thermal.Material),
      Thermal.calculate_heat_flow material_name area thickness temp_diff db
        = (Ok hf, db) /\
      material_name <> ""%string /\ 0 < area /\ 0 < thickness /\
      db !! material_name = Some m /\ 0 < Thermal.lambda m /\
      Thermal.heat_flow_W hf
        = Thermal.lambda m * area * temp_diff / thickness /\
      Thermal.heat_flow_W hf * Thermal.thermal_resistance_m2K_W hf
        = area * temp_diff /\
      Thermal.heat_flux_W_m2 hf * area = Thermal.heat_flow_W hf /\
      Thermal.heat_flux_W_m2 hf * Thermal.thermal_resistance_m2K_W hf
        = temp_diff)
  \/ Thermal.calculate_heat_flow material_name area thickness temp_diff db
     = (Raise ValueError, db).
Proof.
  unfold Thermal.calculate_heat_flow.
  destruct (String.eqb_spec material_name "") as [Hname | Hname];
    [right; reflexivity |].
  destruct (le area 0) eqn:Ha; [right; reflexivity |].
  apply le_false_inv in Ha.
  destruct (le thickness 0) eqn:Ht; [right; reflexivity |].
  apply le_false_inv in Ht.
  destruct (db !! material_name) as [m |] eqn:Hm.
  2: { right. rewrite (bind_ok _ _ _ _ _ (get_lambda_unknown db _ Hm)).
       reflexivity. }
  rewrite (bind_ok _ _ _ _ _ (get_lambda_known db _ m Hm)).
  destruct (le (Thermal.lambda m) 0) eqn:Hl; [right; reflexivity |].
  apply le_false_inv in Hl.
  left. unfold bind, lift, ret, gt.
  rewrite (truediv_ok _ thickness) by lra. rewrite lt_true by lra.
  rewrite (truediv_ok _ area) by lra.
  rewrite (truediv_ok _ (Thermal.lambda m)) by lra.
  eexists. exists m. split; [reflexivity |].
  cbn [Thermal.heat_flow_W Thermal.thermal_resistance_m2K_W
       Thermal.heat_flux_W_m2].
  repeat split; try assumption; try lra; field; lra.
Qed.

(** ** The U-value, continued *)

Lemma wall_sum_nonneg (db : Thermal.Database) (layers : list (string * R)) :
  Forall (known_positive db) layers ->
  Forall (fun layer => 0 <= snd layer) layers ->
  0 <= fold_right (fun dl acc => fst dl / snd dl + acc) 0
         (wall_layers db layers).
Proof.
  induction 1 as [| [name d] ls (m & Hm & Hpos) _ IH]; intros Hthick;
    cbn [wall_layers map fold_right fst snd]; [lra |].
  inversion Hthick as [| ? ? Hd Hrest]; subst. cbn [fst snd] in Hm, Hd.
  rewrite Hm. specialize (IH Hrest). unfold wall_layers in IH.
  assert (0 <= d / Thermal.lambda m) by (apply Rle_mult_inv_pos; assumption).
  lra.
Qed.

Lemma wall_resistance_snoc (db : Thermal.Database)
  (layers : list (string * R)) (name : string) (d : R) (m : Thermal.Material) :
  db !! name = Some m ->
  wall_resistance (wall_layers db (layers ++ [(name, d)]))
    = wall_resistance (wall_layers db layers) + d / Thermal.lambda m.
Proof.
  intros Hm. unfold wall_resistance, wall_layers.
  rewrite map_app, fold_right_app. cbn [map fold_right fst snd]. rewrite Hm.
  set (f := fun (dl : R * R) acc => fst dl / snd dl + acc).
  set (ls := map _ layers).
  assert (Hshift : forall z, fold_right f z ls = fold_right f 0 ls + z).
  { intros z. induction ls as [| x ls IHls]; cbn; [lra |].
    rewrite IHls. unfold f. lra. }
  rewrite Hshift. lra.
Qed.

(** X14: one more layer of positive thickness adds [d / lambda] to the
    total resistance and lowers the U-value. *)
Theorem calculate_u_value_extra_layer (db : Thermal.Database)
  (layers : list (string * R)) (name : string) (d : R)
  (m : Thermal.Material) :
  layers <> [] ->
  Forall (known_positive db) layers ->
  Forall (fun layer => 0 <= snd layer) layers ->
  db !! name = Some m -> 0 < Thermal.lambda m -> 0 < d ->
  exists (r r' : Thermal.UValue) (u u' : R),
    Thermal.calculate_u_value layers db = (Ok r, db) /\
    Thermal.calculate_u_value (layers ++ [(name, d)]) db = (Ok r', db) /\
    Thermal.total_resistance_m2K_W r'
      = Thermal.total_resistance_m2K_W r + d / Thermal.lambda m /\
    Thermal.u_value_W_m2K r = Finite u /\
    Thermal.u_value_W_m2K r' = Finite u' /\
    0 < u' < u.
Proof.
  intros Hne Hall Hthick Hm Hpos Hd.
  assert (Hall' : Forall (known_positive db) (layers ++ [(name, d)])).
  { apply Forall_app. split; [assumption |].
    constructor; [| constructor]. exists m. split; assumption. }
  assert (Hne' : layers ++ [(name, d)] <> [])
    by (destruct layers; discriminate).
  destruct (calculate_u_value_run db layers Hne Hall) as [details Hrun].
  destruct (calculate_u_value_run db _ Hne' Hall') as [details' Hrun'].
  rewrite (wall_resistance_snoc db layers name d m Hm) in Hrun'.
  set (R0 := wall_resistance (wall_layers db layers)) in *.
  assert (HR0 : 0.17 <= R0).
  { unfold R0, wall_resistance.
    pose proof (wall_sum_nonneg db layers Hall Hthick). lra. }
  assert (Hextra : 0 < d / Thermal.lambda m)
    by (apply Rdiv_lt_0_compat; assumption).
  unfold gt in Hrun, Hrun'. rewrite lt_true in Hrun, Hrun' by lra.
  do 2 eexists. exists (1 / R0), (1 / (R0 + d / Thermal.lambda m)).
  split; [exact Hrun |]. split; [exact Hrun' |].
  cbn [Thermal.total_resistance_m2K_W Thermal.u_value_W_m2K].
  repeat split.
  - apply Rdiv_lt_0_compat; lra.
  - unfold Rdiv. rewrite !Rmult_1_l.
    apply Rinv_lt_contravar; [| lra].
    apply Rmult_lt_0_compat; lra.
Qed.

Lemma calculate_u_value_extra_layer_witness :
  exists (r r' : Thermal.UValue) (u u' : R),
    Thermal.calculate_u_value [("Beton (Normal)", 0.20)] Thermal.MATERIALS
      = (Ok r, Thermal.MATERIALS) /\
    Thermal.calculate_u_value
      [("Beton (Normal)", 0.20); ("Polystyrol (EPS)", 0.12)]
      Thermal.MATERIALS
    = (Ok r', Thermal.MATERIALS) /\
    Thermal.u_value_W_m2K r = Finite u /\
    Thermal.u_value_W_m2K r' = Finite u' /\
    0 < u' < u.
Proof.
  assert (Hne : [("Beton (Normal)", 0.20)] <> @nil (string * R))
    by discriminate.
  assert (Hknown : Forall (known_positive Thermal.MATERIALS)
                     [("Beton (Normal)", 0.20)]).
  { repeat constructor. exists (Thermal.mkMaterial 2.1 2400 1000).
    split; [exact materials_beton | cbn; lra]. }
  assert (Hthick : Forall (fun layer : string * R => 0 <= snd layer)
                     [("Beton (Normal)", 0.20)])
    by (repeat constructor; cbn; lra).
  destruct (calculate_u_value_extra_layer Thermal.MATERIALS _
              "Polystyrol (EPS)" 0.12 _ Hne Hknown Hthick materials_eps)
    as (r & r' & u & u' & Hr & Hr' & _ & Hu & Hu' & Hlt); [cbn; lra | lra |].
  exists r, r', u, u'. repeat split; try assumption; apply Hlt.
Defined.

Lemma u_value_loop_unknown (layers : list (string * R)) :
  ~ Forall (fun layer => is_Some (Thermal.MATERIALS !! fst layer)) layers ->
  forall v : Thermal.ULocals,
    for_in layers Thermal.u_value_step v Thermal.MATERIALS
      = (Raise ValueError, Thermal.MATERIALS).
Proof.
  induction layers as [| [name d] layers IH]; intros Hbad v.
  - exfalso. apply Hbad. constructor.
  - cbn [for_in].
    destruct (Thermal.MATERIALS !! name) as [m |] eqn:Hm.
    + destruct (materials_positive name m Hm) as (Hpos & _).
      rewrite (bind_ok _ _ _ _ _
                 (u_value_step_run _ name d m v Hm ltac:(lra))).
      apply IH. intros Hrest. apply Hbad. constructor; [| exact Hrest].
      cbn [fst]. rewrite Hm. eexists. reflexivity.
    + apply bind_raise. unfold Thermal.u_value_step. cbn [fst snd].
      rewrite (bind_ok _ _ _ _ _ (get_lambda_unknown _ name Hm)).
      reflexivity.
Qed.

(** X15: on the material table as shipped, [calculate_u_value] returns
    for every non-empty list of known materials and raises [ValueError]
    for an empty list or a list that names a material the table does not
    have; it raises nothing else. *)
Theorem calculate_u_value_shipped (layers : list (string * R)) :
  (layers <> [] /\
   Forall (fun layer => is_Some (Thermal.MATERIALS !! fst layer)) layers /\
   exists r : Thermal.UValue,
     Thermal.calculate_u_value layers Thermal.MATERIALS
       = (Ok r, Thermal.MATERIALS))
  \/ ((layers = [] \/
       ~ Forall (fun layer => is_Some (Thermal.MATERIALS !! fst layer)) layers)
      /\ Thermal.calculate_u_value layers Thermal.MATERIALS
         = (Raise ValueError, Thermal.MATERIALS)).
Proof.
  destruct layers as [| layer layers]; [right; split; [left |]; reflexivity |].
  destruct (decide (Forall (fun layer : string * R =>
                              is_Some (Thermal.MATERIALS !! fst layer))
                      (layer :: layers))) as [Hall | Hbad].
  - left. split; [discriminate |]. split; [exact Hall |].
    assert (Hknown : Forall (known_positive Thermal.MATERIALS)
                       (layer :: layers)).
    { eapply Forall_impl; [exact Hall |]. intros l [m Hm]. exists m.
      split; [exact Hm | apply (materials_positive _ _ Hm)]. }
    destruct (calculate_u_value_run Thermal.MATERIALS (layer :: layers)
                ltac:(discriminate) Hknown) as [details Hrun].
    eexists. exact Hrun.
  - right. split; [right; exact Hbad |].
    unfold Thermal.calculate_u_value.
    apply bind_raise, u_value_loop_unknown, Hbad.
Qed.

(** ** Thermal mass and heating time *)

Lemma calculate_thermal_mass_known (db : Thermal.Database) (name : string)
  (volume : R) (m : Thermal.Material) :
  db !! name = Some m ->
  Calculator.calculate_thermal_mass name volume db
    = (Ok (Calculator.mkThermalMass
             (Thermal.density m * Thermal.specific_heat m * volume)
             (Thermal.density m * volume)
             (Thermal.density m) (Thermal.specific_heat m) volume), db).
Proof.
  intros Hm.
  unfold Calculator.calculate_thermal_mass, Calculator.get_density,
    Calculator.get_specific_heat, Thermal.get_material, bind, gets, ret.
  rewrite Hm. reflexivity.
Qed.

Lemma calculate_thermal_mass_unknown (db : Thermal.Database) (name : string)
  (volume : R) :
  db !! name = None ->
  Calculator.calculate_thermal_mass name volume db = (Raise ValueError, db).
Proof.
  intros Hm.
  unfold Calculator.calculate_thermal_mass, Calculator.get_density,
    Calculator.get_specific_heat, Thermal.get_material, bind, gets, ret.
  rewrite Hm. reflexivity.
Qed.

(** X16: [calculate_cooling_heating_time] raises [ValueError] for an
    unknown material.  For a known one it returns: with a positive power
    the time [t] satisfies [t P = rho c V dT], with minutes and hours
    [t / 60] and [t / 3600]; with a power that is not positive all three
    times are [float('inf')] and nothing is raised. *)
Theorem calculate_cooling_heating_time_balance (db : Thermal.Database)
  (name : string) (volume temp_change power : R) :
  match db !! name with
  | None =>
      Calculator.calculate_cooling_heating_time name volume temp_change
        power db = (Raise ValueError, db)
  | Some m =>
      exists r : Calculator.HeatingTime,
        Calculator.calculate_cooling_heating_time name volume temp_change
          power db = (Ok r, db) /\
        Calculator.energy_required_J r
          = Thermal.density m * Thermal.specific_heat m * volume
            * temp_change /\
        (0 < power ->
         exists t : R,
           Calculator.time_seconds r = Finite t /\
           t * power = Calculator.energy_required_J r /\
           Calculator.time_minutes r = Finite (t / 60) /\
           Calculator.time_hours r = Finite (t / 3600)) /\
        (power <= 0 ->
         Calculator.time_seconds r = PlusInfinity /\
         Calculator.time_minutes r = PlusInfinity /\
         Calculator.time_hours r = PlusInfinity)
  end.
Proof.
  destruct (db !! name) as [m |] eqn:Hm.
  - unfold Calculator.calculate_cooling_heating_time.
    rewrite (bind_ok _ _ _ _ _
               (calculate_thermal_mass_known db name volume m Hm)).
    cbn [Calculator.thermal_mass_J_K].
    unfold gt, lt. destruct (Rlt_dec 0 power) as [Hpos | Hneg].
    + unfold bind, lift, ret, Calculator.div_literal.
      rewrite (truediv_ok _ power) by lra. cbn [rbind].
      rewrite !truediv_ok by lra. cbn [rbind].
      eexists. split; [reflexivity |].
      cbn [Calculator.energy_required_J Calculator.time_seconds
           Calculator.time_minutes Calculator.time_hours].
      split; [reflexivity |]. split; [| intros; lra].
      intros _. eexists. split; [reflexivity |].
      split; [field; lra | split; reflexivity].
    + unfold bind, lift, ret, Calculator.div_literal.
      rewrite !truediv_ok by lra.
      eexists. split; [reflexivity |].
      cbn [Calculator.energy_required_J Calculator.time_seconds
           Calculator.time_minutes Calculator.time_hours].
      split; [reflexivity |]. split; [intros; lra |].
      intros _. repeat split.
  - unfold Calculator.calculate_cooling_heating_time.
    apply bind_raise, calculate_thermal_mass_unknown, Hm.
Qed.

(** ** The dew point *)

Lemma saturation_pressure_run (temp : R) :
  237.3 + temp <> 0 ->
  Calculator.saturation_pressure temp
    = Ok (610.7 * exp (17.27 * temp / (237.3 + temp))).
Proof.
  intros Hd. unfold Calculator.saturation_pressure.
  rewrite truediv_ok by assumption. reflexivity.
Qed.

(** The run of [dew_point] above -237.3 degC for a humidity between 0
    and 100 percent. *)
Lemma dew_point_run (temp humidity : R) :
  0 < 237.3 + temp -> 0 < humidity <= 100 ->
  17.27 * temp / (237.3 + temp) + ln (humidity / 100) < 17.27 /\
  Calculator.dew_point temp humidity
    = Ok (237.3 * (17.27 * temp / (237.3 + temp) + ln (humidity / 100))
          / (17.27 - (17.27 * temp / (237.3 + temp) + ln (humidity / 100)))).
Proof.
  intros Hd [Hh Hh100].
  assert (Hbase : 17.27 * temp / (237.3 + temp) < 17.27).
  { apply Rmult_lt_reg_r with (237.3 + temp); [assumption |].
    unfold Rdiv. rewrite Rmult_assoc, Rinv_l by lra. lra. }
  assert (Hratio : 610.7 * exp (17.27 * temp / (237.3 + temp)) * humidity
                   / 100 / 610.7
                   = exp (17.27 * temp / (237.3 + temp)) * (humidity / 100)).
  { decimals. field. }
  assert (Hpos : 0 < exp (17.27 * temp / (237.3 + temp)) * (humidity / 100)).
  { apply Rmult_lt_0_compat; [apply exp_pos | lra]. }
  assert (Hln : ln (exp (17.27 * temp / (237.3 + temp)) * (humidity / 100))
                = 17.27 * temp / (237.3 + temp) + ln (humidity / 100)).
  { rewrite ln_mult by (try apply exp_pos; lra). rewrite ln_exp.
    reflexivity. }
  assert (Hlog : ln (humidity / 100) <= 0).
  { rewrite <- ln_1. destruct (Rle_lt_or_eq_dec _ _ Hh100) as [Hlt | Heq].
    - left. apply ln_increasing; lra.
    - rewrite Heq. right. f_equal. lra. }
  split; [lra |].
  unfold Calculator.dew_point.
  rewrite saturation_pressure_run by lra. cbn [rbind].
  rewrite (truediv_ok _ 610.7) by lra. cbn [rbind].
  rewrite Hratio, math_log_ok by assumption. cbn [rbind].
  rewrite Hln. rewrite truediv_ok by lra. reflexivity.
Qed.

(** X17: the local function [dew_point] of [calculate_condensation_risk],
    for a temperature between -200 and 200 degC and a relative humidity
    between 1 and 99 percent: it returns a dew point strictly below the
    temperature, and above -237.3 degC. *)
Theorem dew_point_below_temperature (temp humidity : R) :
  -200 <= temp <= 200 -> 1 <= humidity <= 99 ->
  exists d : R,
    Calculator.dew_point temp humidity = Ok d /\
    d < temp /\ -237.3 < d.
Proof.
  intros Ht Hh.
  assert (Hd : 0 < 237.3 + temp) by lra.
  assert (Hh' : 0 < humidity <= 100) by lra.
  destruct (dew_point_run temp humidity Hd Hh') as [Ha Hrun].
  eexists. split; [exact Hrun |].
  set (L := ln (humidity / 100)) in *.
  assert (Hbase : 17.27 * temp / (237.3 + temp) * (237.3 + temp)
                  = 17.27 * temp).
  { unfold Rdiv. rewrite Rmult_assoc, Rinv_l by lra. lra. }
  set (a0 := 17.27 * temp / (237.3 + temp)) in *.
  assert (Hgap : temp - 237.3 * (a0 + L) / (17.27 - (a0 + L))
                 = - L * (237.3 + temp) / (17.27 - (a0 + L))).
  { replace (temp - 237.3 * (a0 + L) / (17.27 - (a0 + L)))
      with ((temp * 17.27 - (237.3 + temp) * a0 - (237.3 + temp) * L)
            / (17.27 - (a0 + L))) by (field; lra).
    f_equal. lra. }
  assert (Hfloor : 237.3 * (a0 + L) / (17.27 - (a0 + L)) + 237.3
                   = 237.3 * 17.27 / (17.27 - (a0 + L))).
  { field. lra. }
  assert (Hden : 0 < / (17.27 - (a0 + L))) by (apply Rinv_0_lt_compat; lra).
  assert (Hlog : L < 0).
  { unfold L. rewrite <- ln_1. apply ln_increasing; lra. }
  assert (Hsign : 0 < - L * (237.3 + temp) / (17.27 - (a0 + L))).
  { unfold Rdiv. apply Rmult_lt_0_compat; [| assumption].
    apply Rmult_lt_0_compat; lra. }
  assert (Hsign' : 0 < 237.3 * 17.27 / (17.27 - (a0 + L))).
  { unfold Rdiv. apply Rmult_lt_0_compat; [lra | assumption]. }
  split; lra.
Qed.

Lemma dew_point_below_temperature_witness :
  exists d : R,
    Calculator.dew_point 20 50 = Ok d /\ d < 20 /\ -237.3 < d.
Proof. apply dew_point_below_temperature; lra. Defined.

(** X18: for a temperature between -200 and 200 degC, [dew_point] raises
    the domain error [ValueError] of [math.log] on a relative humidity
    that is not positive. *)
Theorem dew_point_dry_air_raises (temp humidity : R) :
  -200 <= temp <= 200 -> humidity <= 0 ->
  Calculator.dew_point temp humidity = Raise ValueError.
Proof.
  intros Ht Hh. unfold Calculator.dew_point.
  rewrite saturation_pressure_run by lra. cbn [rbind].
  rewrite (truediv_ok _ 610.7) by lra. cbn [rbind].
  unfold math_log at 1.
  destruct (Rlt_dec 0 _) as [Hpos | Hneg]; [| reflexivity].
  exfalso.
  assert (Hratio : 610.7 * exp (17.27 * temp / (237.3 + temp)) * humidity
                   / 100 / 610.7
                   = exp (17.27 * temp / (237.3 + temp)) * (humidity / 100)).
  { decimals. field. }
  rewrite Hratio in Hpos.
  pose proof (exp_pos (17.27 * temp / (237.3 + temp))) as He.
  assert (humidity / 100 <= 0) by lra.
  nra.
Qed.

Lemma dew_point_dry_air_raises_witness :
  Calculator.dew_point 20 0 = Raise ValueError.
Proof. apply dew_point_dry_air_raises; lra. Defined.

(** ** Skin and proximity effect *)

(** X19: for a positive conductor radius [calculate_proximity_factor]
    returns a factor between 1 and 1.312 whatever the distance and the
    number of conductors; three conductors that touch or overlap get
    exactly 1.312, and a number of conductors other than 2 or 3 gets 1. *)
Theorem calculate_proximity_factor_bounds
  (conductor_radius axis_distance : R) (num_conductors : Z) :
  0 < conductor_radius ->
  exists k_p : R,
    Physics.calculate_proximity_factor conductor_radius axis_distance
      num_conductors = Ok k_p /\
    1 <= k_p <= 1.312 /\
    (num_conductors = 3%Z -> axis_distance <= 2 * conductor_radius ->
     k_p = 1.312) /\
    (num_conductors <> 2%Z -> num_conductors <> 3%Z -> k_p = 1).
Proof.
  intros Hr. unfold Physics.calculate_proximity_factor.
  set (d := if lt axis_distance (2 * conductor_radius)
            then 2 * conductor_radius else axis_distance).
  assert (Hd : 2 * conductor_radius <= d).
  { unfold d, lt. destruct (Rlt_dec _ _); lra. }
  assert (Hone : 1 <= d / (2 * conductor_radius)).
  { apply Rmult_le_reg_r with (2 * conductor_radius); [lra |].
    unfold Rdiv. rewrite Rmult_assoc, Rinv_l by lra. lra. }
  assert (Hinv : 0 < 2 * conductor_radius / d <= 1).
  { split.
    - apply Rdiv_lt_0_compat; lra.
    - apply Rmult_le_reg_r with d; [lra |].
      unfold Rdiv. rewrite Rmult_assoc, Rinv_l by lra. lra. }
  rewrite (truediv_ok _ (2 * conductor_radius)) by lra. cbn [rbind].
  destruct (Z.eqb_spec num_conductors 2) as [H2 | H2].
  - set (s := d / (2 * conductor_radius)) in *.
    assert (Hs : 1 <= s ^ 2) by nra.
    rewrite truediv_ok by lra. cbn [rbind].
    eexists. split; [reflexivity |].
    assert (Hq : 0 < 1 / (4 * s ^ 2) <= 0.25).
    { split.
      - apply Rdiv_lt_0_compat; lra.
      - apply Rmult_le_reg_r with (4 * s ^ 2); [lra |].
        unfold Rdiv. rewrite Rmult_assoc, Rinv_l by lra. lra. }
    split; [lra |]. split; [intros H3; lia | intros Hn; contradiction].
  - destruct (Z.eqb_spec num_conductors 3) as [H3 | H3].
    + rewrite truediv_ok by lra. cbn [rbind].
      eexists. split; [reflexivity |].
      set (q := 2 * conductor_radius / d) in *.
      split; [nra |]. split; [| intros _ Hn; contradiction].
      intros _ Hclose.
      assert (Hq : q = 1).
      { unfold q, d, lt.
        destruct (Rlt_dec axis_distance (2 * conductor_radius)).
        - field; lra.
        - replace axis_distance with (2 * conductor_radius) by lra.
          field; lra. }
      rewrite Hq. lra.
    + eexists. split; [reflexivity |].
      split; [lra |]. split; [intros Hn; contradiction | reflexivity].
Qed.

Lemma calculate_proximity_factor_bounds_witness :
  exists k_p : R,
    Physics.calculate_proximity_factor 0.01 0.05 3 = Ok k_p /\
    1 <= k_p <= 1.312 /\
    (3%Z = 3%Z -> 0.05 <= 2 * 0.01 -> k_p = 1.312) /\
    (3%Z <> 2%Z -> 3%Z <> 3%Z -> k_p = 1).
Proof. apply calculate_proximity_factor_bounds; lra. Defined.

Lemma skin_depth_denominator (frequency : R) :
  0.1 <= frequency ->
  0 < math_pi * frequency * (4 * math_pi * 0.0000001) * 1.
Proof.
  intros Hf. unfold math_pi. pose proof PI_RGT_0 as Hpi.
  assert (0 < PI * frequency) by (apply Rmult_lt_0_compat; lra).
  assert (0 < 4 * PI * 0.0000001) by lra.
  assert (0 < PI * frequency * (4 * PI * 0.0000001))
    by (apply Rmult_lt_0_compat; assumption).
  lra.
Qed.

(** The skin depth of an alternating current in a material with a
    positive resistivity. *)
Lemma calculate_skin_depth_run (frequency resistivity : R) :
  0.1 <= frequency -> 0 < resistivity ->
  0 < sqrt (resistivity
            / (math_pi * frequency * (4 * math_pi * 0.0000001) * 1)) /\
  Physics.calculate_skin_depth frequency resistivity 1
    = Ok (Finite (sqrt (resistivity
                        / (math_pi * frequency
                           * (4 * math_pi * 0.0000001) * 1)))).
Proof.
  intros Hf Hrho. pose proof (skin_depth_denominator frequency Hf) as Hden.
  assert (Hq : 0 < resistivity
                   / (math_pi * frequency * (4 * math_pi * 0.0000001) * 1))
    by (apply Rdiv_lt_0_compat; assumption).
  split; [apply sqrt_lt_R0, Hq |].
  unfold Physics.calculate_skin_depth, lt.
  destruct (Rlt_dec frequency 0.1) as [Hlow | _]; [lra |].
  rewrite truediv_ok by lra. cbn [rbind].
  unfold Physics.math_sqrt, lt.
  destruct (Rlt_dec _ 0) as [Hneg | _]; [lra | reflexivity].
Qed.

(** X20: the skin-effect correction of [calculate_ac_resistance] for a
    positive DC resistance and resistivity.  Under 0.1 Hz the DC value is
    returned.  From 0.1 Hz on, with the skin depth [delta] of
    [calculate_skin_depth]: a radius in [0, delta) gives at least the DC
    value and at most 49/48 of it; a radius in [delta, 1.75 delta) gives
    LESS than the DC value (the second branch starts at the factor 0.625);
    from 1.75 delta on the result is at least the DC value again. *)
Theorem calculate_ac_resistance_factor
  (r_dc conductor_radius frequency resistivity : R) :
  0 < r_dc -> 0 < resistivity ->
  (frequency < 0.1 ->
   Physics.calculate_ac_resistance r_dc conductor_radius frequency
     resistivity = Ok r_dc) /\
  (0.1 <= frequency ->
   exists delta r_ac : R,
     Physics.calculate_skin_depth frequency resistivity 1
       = Ok (Finite delta) /\
     0 < delta /\
     Physics.calculate_ac_resistance r_dc conductor_radius frequency
       resistivity = Ok r_ac /\
     (0 <= conductor_radius < delta ->
      r_dc <= r_ac <= r_dc * (49 / 48)) /\
     (delta <= conductor_radius < 1.75 * delta -> r_ac < r_dc) /\
     (conductor_radius = delta -> r_ac = 0.625 * r_dc) /\
     (1.75 * delta <= conductor_radius -> r_dc <= r_ac)).
Proof.
  intros Hdc Hrho. split.
  - intros Hf. unfold Physics.calculate_ac_resistance,
      Physics.calculate_skin_depth, lt.
    destruct (Rlt_dec frequency 0.1) as [_ | Hn]; [| lra].
    cbn [rbind]. destruct (Rlt_dec 0 1) as [_ | Hn]; [| lra].
    cbn [rbind]. f_equal. field.
  - intros Hf.
    destruct (calculate_skin_depth_run frequency resistivity Hf Hrho)
      as [Hpos Hrun].
    set (delta := sqrt _) in *.
    exists delta.
    unfold Physics.calculate_ac_resistance. rewrite Hrun. cbn [rbind].
    rewrite truediv_ok by lra. cbn [rbind].
    set (x := conductor_radius / delta).
    assert (Hx : x * delta = conductor_radius).
    { unfold x, Rdiv. rewrite Rmult_assoc, Rinv_l by lra. lra. }
    unfold lt. destruct (Rlt_dec x 1) as [Hsmall | Hlarge].
    + cbn [rbind]. eexists. split; [reflexivity |].
      split; [assumption |]. split; [reflexivity |].
      assert (Hlt : conductor_radius < delta) by nra.
      split; [| split; [| split]]; try (intros; exfalso; nra).
      intros [Hnonneg _].
      assert (Hx0 : 0 <= x) by nra.
      assert (Hx2 : 0 <= x ^ 2 <= 1) by nra.
      assert (Hx4 : 0 <= x ^ 4 <= 1).
      { replace (x ^ 4) with (x ^ 2 * x ^ 2) by ring. nra. }
      split; nra.
    + assert (Hx1 : 1 <= x) by lra.
      rewrite truediv_ok by lra. cbn [rbind].
      eexists. split; [reflexivity |].
      split; [assumption |]. split; [reflexivity |].
      assert (Hge : delta <= conductor_radius) by nra.
      assert (Hk : x / 2 * (1 + 0.25 / x) = x / 2 + 0.125).
      { decimals. field. lra. }
      rewrite Hk.
      split; [intros; exfalso; lra |].
      split; [| split].
      * intros [_ Hup]. assert (x < 1.75) by nra. nra.
      * intros Heq. assert (x = 1) by nra. subst x. nra.
      * intros Hup. assert (1.75 <= x) by nra. nra.
Qed.

Lemma calculate_ac_resistance_factor_witness :
  (50 < 0.1 ->
   Physics.calculate_ac_resistance 1 0.01 50 0.0000000172 = Ok 1) /\
  (0.1 <= 50 ->
   exists delta r_ac : R,
     Physics.calculate_skin_depth 50 0.0000000172 1 = Ok (Finite delta) /\
     0 < delta /\
     Physics.calculate_ac_resistance 1 0.01 50 0.0000000172 = Ok r_ac /\
     (0 <= 0.01 < delta -> 1 <= r_ac <= 1 * (49 / 48)) /\
     (delta <= 0.01 < 1.75 * delta -> r_ac < 1) /\
     (0.01 = delta -> r_ac = 0.625 * 1) /\
     (1.75 * delta <= 0.01 -> 1 <= r_ac)).
Proof. apply calculate_ac_resistance_factor; lra. Defined.

(** X21: from 0.1 Hz on, a resistivity that is not positive makes
    [calculate_ac_resistance] raise: a zero resistivity gives a zero skin
    depth and the quotient by it raises [ZeroDivisionError]; a negative
    one makes [math.sqrt] raise [ValueError] in [calculate_skin_depth]. *)
Theorem calculate_ac_resistance_raises
  (r_dc conductor_radius frequency resistivity : R) :
  0.1 <= frequency -> resistivity <= 0 ->
  Physics.calculate_skin_depth frequency resistivity 1
    = (if Req_dec_T resistivity 0 then Ok (Finite 0) else Raise ValueError) /\
  Physics.calculate_ac_resistance r_dc conductor_radius frequency resistivity
    = Raise (if Req_dec_T resistivity 0
             then ZeroDivisionError else ValueError).
Proof.
  intros Hf Hrho. pose proof (skin_depth_denominator frequency Hf) as Hden.
  assert (Hdepth :
    Physics.calculate_skin_depth frequency resistivity 1
      = (if Req_dec_T resistivity 0 then Ok (Finite 0)
         else Raise ValueError)).
  { unfold Physics.calculate_skin_depth, lt.
    destruct (Rlt_dec frequency 0.1) as [Hlow | _]; [lra |].
    rewrite truediv_ok by lra. cbn [rbind].
    unfold Physics.math_sqrt, lt.
    destruct (Req_dec_T resistivity 0) as [Hz | Hnz].
    - subst resistivity. unfold Rdiv. rewrite Rmult_0_l.
      destruct (Rlt_dec 0 0) as [Hneg | _]; [lra |].
      cbn [rbind]. rewrite sqrt_0. reflexivity.
    - assert (Hq : resistivity
                   / (math_pi * frequency * (4 * math_pi * 0.0000001) * 1)
                   < 0).
      { pose proof (Rinv_0_lt_compat _ Hden) as Hinv.
        assert (Hrho' : resistivity < 0) by lra.
        unfold Rdiv. nra. }
      destruct (Rlt_dec _ 0) as [_ | Hn]; [reflexivity | contradiction]. }
  split; [exact Hdepth |].
  unfold Physics.calculate_ac_resistance. rewrite Hdepth.
  destruct (Req_dec_T resistivity 0); [| reflexivity].
  cbn [rbind]. rewrite truediv_zero. reflexivity.
Qed.

Lemma calculate_ac_resistance_raises_witness :
  Physics.calculate_ac_resistance 1 0.01 50 0 = Raise ZeroDivisionError.
Proof.
  destruct (calculate_ac_resistance_raises 1 0.01 50 0) as [_ Hrun];
    [lra | lra |].
  rewrite Hrun. destruct (Req_dec_T 0 0) as [_ | Hn];
    [reflexivity | contradiction].
Defined.

(** ** Shield losses *)

(** X22: [calculate_mutual_inductance] of a shield outside the conductor
    ([0 < conductor_radius < shield_radius]) is
    [2e-7 ln(r_shield / r_conductor) length], so positive for a positive
    length; a shield radius not above the conductor radius gives zero
    without any logarithm being taken. *)
Theorem calculate_mutual_inductance_closed_form
  (conductor_radius shield_radius length : R) :
  0 < conductor_radius ->
  exists m : R,
    Physics.calculate_mutual_inductance conductor_radius shield_radius length
      = Ok m /\
    (shield_radius <= conductor_radius -> m = 0) /\
    (conductor_radius < shield_radius ->
     m = 0.0000002 * ln (shield_radius / conductor_radius) * length /\
     (0 < length -> 0 < m)).
Proof.
  intros Hr. unfold Physics.calculate_mutual_inductance, le.
  destruct (Rle_dec shield_radius conductor_radius) as [Hle | Hgt].
  - eexists. split; [reflexivity |]. split; [reflexivity | intros; lra].
  - apply Rnot_le_lt in Hgt.
    rewrite (truediv_ok _ (2 * math_pi)) by apply two_pi_nonzero.
    cbn [rbind]. rewrite truediv_ok by lra. cbn [rbind].
    assert (Hratio : 1 < shield_radius / conductor_radius).
    { apply Rmult_lt_reg_r with conductor_radius; [assumption |].
      unfold Rdiv. rewrite Rmult_assoc, Rinv_l by lra. lra. }
    rewrite math_log_ok by lra. cbn [rbind].
    eexists. split; [reflexivity |]. split; [intros; lra |].
    intros _.
    assert (Hmu : 4 * math_pi * 0.0000001 / (2 * math_pi) = 0.0000002).
    { unfold math_pi. pose proof PI_RGT_0. decimals. field. lra. }
    rewrite Hmu. split; [reflexivity |].
    intros Hlen.
    assert (Hln : 0 < ln (shield_radius / conductor_radius)).
    { rewrite <- ln_1. apply ln_increasing; lra. }
    apply Rmult_lt_0_compat; [| assumption].
    apply Rmult_lt_0_compat; lra.
Qed.

Lemma calculate_mutual_inductance_closed_form_witness :
  exists m : R,
    Physics.calculate_mutual_inductance 0.01 0.02 1 = Ok m /\
    (0.02 <= 0.01 -> m = 0) /\
    (0.01 < 0.02 ->
     m = 0.0000002 * ln (0.02 / 0.01) * 1 /\ (0 < 1 -> 0 < m)).
Proof. apply calculate_mutual_inductance_closed_form; lra. Defined.

(** X23: [calculate_shield_losses] never raises and never returns a
    negative loss: a shield resistance below 1e-9 gives zero, any other
    gives [(I omega M)^2 / R_shield] with [omega = 2 pi f]. *)
Theorem calculate_shield_losses_nonneg
  (conductor_current shield_resistance mutual_inductance frequency : R) :
  exists w_shield : R,
    Physics.calculate_shield_losses conductor_current shield_resistance
      mutual_inductance frequency = Ok w_shield /\
    0 <= w_shield /\
    w_shield
      = (if lt shield_resistance 0.000000001 then 0
         else (conductor_current * (2 * math_pi * frequency
                                    * mutual_inductance)) ^ 2
              / shield_resistance).
Proof.
  unfold Physics.calculate_shield_losses, lt.
  destruct (Rlt_dec shield_resistance 0.000000001) as [Hlow | Hhigh].
  - eexists. split; [reflexivity |]. split; [lra | reflexivity].
  - apply Rnot_lt_le in Hhigh.
    rewrite truediv_ok by lra. cbn [rbind].
    eexists. split; [reflexivity |].
    set (e := conductor_current * (2 * math_pi * frequency
                                   * mutual_inductance)).
    assert (Heq : (e / shield_resistance) ^ 2 * shield_resistance
                  = e ^ 2 / shield_resistance) by (field; lra).
    rewrite Heq. split; [| reflexivity].
    unfold Rdiv. apply Rmult_le_pos; [apply pow2_ge_0 |].
    left. apply Rinv_0_lt_compat. lra.
Qed.

(** ** Installation factors *)

(** A table of [get_grouping_factor] read at any number of cables. *)
Lemma grouping_table (a b c d : R) (n : Z) :
  default 0.5
    ((list_to_map [(2%Z, a); (3%Z, b); (4%Z, c); (6%Z, d)] : gmap Z R) !! n)
  = if Z.eqb n 2 then a else if Z.eqb n 3 then b
    else if Z.eqb n 4 then c else if Z.eqb n 6 then d else 0.5.
Proof.
  rewrite !list_to_map_cons, list_to_map_nil. cbn [fst snd].
  destruct (Z.eqb_spec n 2) as [-> | H2];
    [rewrite lookup_insert_eq; reflexivity |].
  rewrite lookup_insert_ne by congruence.
  destruct (Z.eqb_spec n 3) as [-> | H3];
    [rewrite lookup_insert_eq; reflexivity |].
  rewrite lookup_insert_ne by congruence.
  destruct (Z.eqb_spec n 4) as [-> | H4];
    [rewrite lookup_insert_eq; reflexivity |].
  rewrite lookup_insert_ne by congruence.
  destruct (Z.eqb_spec n 6) as [-> | H6];
    [rewrite lookup_insert_eq; reflexivity |].
  rewrite lookup_insert_ne by congruence.
  rewrite lookup_empty. reflexivity.
Qed.

(** X24: [get_grouping_factor] lies between 0.5 and 1 for every number
    of cables and spacing ratio, is 1 only for a single cable (at most
    0.85 otherwise), does not decrease when the spacing ratio grows, and
    is the fallback 0.5 for every number of cables missing from the
    tables, so that five cables are derated more than six. *)
Theorem get_grouping_factor_bounds (num_cables : Z)
  (spacing_ratio wider_ratio : R) :
  0.5 <= Physics.get_grouping_factor num_cables spacing_ratio <= 1 /\
  (num_cables <> 1%Z ->
   Physics.get_grouping_factor num_cables spacing_ratio <= 0.85) /\
  (spacing_ratio <= wider_ratio ->
   Physics.get_grouping_factor num_cables spacing_ratio
     <= Physics.get_grouping_factor num_cables wider_ratio) /\
  (~ In num_cables [1; 2; 3; 4; 6]%Z ->
   Physics.get_grouping_factor num_cables spacing_ratio = 0.5) /\
  Physics.get_grouping_factor 5 spacing_ratio
    < Physics.get_grouping_factor 6 spacing_ratio.
Proof.
  assert (Hval : forall n r,
    Physics.get_grouping_factor n r
    = if Z.eqb n 1 then 1
      else if lt r 0.25
           then (if Z.eqb n 2 then 0.75 else if Z.eqb n 3 then 0.65
                 else if Z.eqb n 4 then 0.60 else if Z.eqb n 6 then 0.55
                 else 0.5)
           else if lt r 0.5
           then (if Z.eqb n 2 then 0.80 else if Z.eqb n 3 then 0.70
                 else if Z.eqb n 4 then 0.65 else if Z.eqb n 6 then 0.60
                 else 0.5)
           else (if Z.eqb n 2 then 0.85 else if Z.eqb n 3 then 0.75
                 else if Z.eqb n 4 then 0.70 else if Z.eqb n 6 then 0.65
                 else 0.5)).
  { intros n r. unfold Physics.get_grouping_factor.
    destruct (Z.eqb n 1); [reflexivity |].
    destruct (lt r 0.25); [apply grouping_table |].
    destruct (lt r 0.5); apply grouping_table. }
  rewrite !Hval. cbn [Z.eqb Pos.eqb]. unfold lt.
  split; [split |]; [| | split; [| split; [| split]]].
  - destruct (Z.eqb num_cables 1), (Rlt_dec spacing_ratio 0.25),
      (Rlt_dec spacing_ratio 0.5), (Z.eqb num_cables 2),
      (Z.eqb num_cables 3), (Z.eqb num_cables 4), (Z.eqb num_cables 6);
      lra.
  - destruct (Z.eqb num_cables 1), (Rlt_dec spacing_ratio 0.25),
      (Rlt_dec spacing_ratio 0.5), (Z.eqb num_cables 2),
      (Z.eqb num_cables 3), (Z.eqb num_cables 4), (Z.eqb num_cables 6);
      lra.
  - intros Hn. destruct (Z.eqb_spec num_cables 1) as [H1 | _];
      [contradiction |].
    destruct (Rlt_dec spacing_ratio 0.25), (Rlt_dec spacing_ratio 0.5),
      (Z.eqb num_cables 2), (Z.eqb num_cables 3), (Z.eqb num_cables 4),
      (Z.eqb num_cables 6); lra.
  - intros Hle.
    destruct (Z.eqb num_cables 1), (Rlt_dec spacing_ratio 0.25),
      (Rlt_dec spacing_ratio 0.5), (Rlt_dec wider_ratio 0.25),
      (Rlt_dec wider_ratio 0.5), (Z.eqb num_cables 2),
      (Z.eqb num_cables 3), (Z.eqb num_cables 4), (Z.eqb num_cables 6);
      lra.
  - intros Hn. cbn [In] in Hn.
    destruct (Z.eqb_spec num_cables 1); [exfalso; apply Hn; lia |].
    destruct (Z.eqb_spec num_cables 2); [exfalso; apply Hn; lia |].
    destruct (Z.eqb_spec num_cables 3); [exfalso; apply Hn; lia |].
    destruct (Z.eqb_spec num_cables 4); [exfalso; apply Hn; lia |].
    destruct (Z.eqb_spec num_cables 6); [exfalso; apply Hn; lia |].
    destruct (Rlt_dec spacing_ratio 0.25), (Rlt_dec spacing_ratio 0.5);
      reflexivity.
  - destruct (Rlt_dec spacing_ratio 0.25), (Rlt_dec spacing_ratio 0.5);
      lra.
Qed.

(** The values of a finite table are among those it is built from. *)
Lemma table_default_in (table : list (string * R)) (key : string)
  (fallback : R) :
  let value := default fallback
                 ((list_to_map table : gmap string R) !! key) in
  value = fallback \/ In value (map snd table).
Proof.
  cbn zeta. destruct (_ !! key) as [v |] eqn:Hv; [| left; reflexivity].
  right. apply elem_of_list_to_map_2 in Hv. cbn [default].
  apply list_elem_of_In in Hv. apply (in_map snd) in Hv. exact Hv.
Qed.

(** X25: [get_soil_thermal_resistivity] of any soil name, listed or not:
    the dry value lies between 1 and 2.5, the result falls as the
    moisture rises, lies between half the smallest and the largest dry
    value for a moisture between 0 and 1, and is positive exactly for a
    moisture below 2. *)
Theorem get_soil_thermal_resistivity_bounds (soil_type : string)
  (moisture wetter : R) :
  1 <= Physics.get_soil_thermal_resistivity soil_type 0 <= 2.5 /\
  Physics.get_soil_thermal_resistivity soil_type moisture
    = Physics.get_soil_thermal_resistivity soil_type 0
      * (1 - 0.5 * moisture) /\
  (0 <= moisture <= 1 ->
   0.5 <= Physics.get_soil_thermal_resistivity soil_type moisture <= 2.5) /\
  (moisture < wetter ->
   Physics.get_soil_thermal_resistivity soil_type wetter
     < Physics.get_soil_thermal_resistivity soil_type moisture) /\
  (0 < Physics.get_soil_thermal_resistivity soil_type moisture
   <-> moisture < 2).
Proof.
  unfold Physics.get_soil_thermal_resistivity.
  pose proof (table_default_in
                [("sand", 1.2); ("clay", 1); ("gravel", 1.5); ("rock", 2.5);
                 ("peat", 2)]%string soil_type 1) as Hbase.
  cbn zeta in Hbase. cbn [map snd In] in Hbase.
  set (base := default 1 _) in *.
  assert (Hb : 1 <= base <= 2.5).
  { destruct Hbase as [H | [H | [H | [H | [H | [H | []]]]]]]; lra. }
  clearbody base. clear Hbase.
  split; [lra |]. split; [lra |].
  split; [intros Hm; split; nra |].
  split; [intros Hm; nra |].
  split; [| intros Hm; nra].
  intros Hpos. destruct (Rlt_le_dec moisture 2); [assumption | nra].
Qed.

(** ** Radiation *)

(** X26: the sign of [calculate_radiation_heat_flux].  With a positive
    emissivity, Stefan-Boltzmann constant, view factor and area, and both
    temperatures at or above absolute zero, heat flows from the warmer
    side: the flux is positive exactly when the surface is warmer than
    the surroundings, zero at equal temperatures, and exchanging the two
    temperatures changes its sign only. *)
Theorem calculate_radiation_heat_flux_sign
  (params : Physics.RadiationParameters) (surface_temp surface_area : R) :
  0 < Physics.emissivity params -> 0 < Physics.stefan_boltzmann params ->
  0 < Physics.view_factor params -> 0 < surface_area ->
  -273.15 <= surface_temp -> -273.15 <= Physics.surrounding_temp params ->
  (0 < Physics.calculate_radiation_heat_flux params surface_temp surface_area
   <-> Physics.surrounding_temp params < surface_temp) /\
  (Physics.calculate_radiation_heat_flux params surface_temp surface_area = 0
   <-> surface_temp = Physics.surrounding_temp params) /\
  Physics.calculate_radiation_heat_flux
    (Physics.mkRadiationParameters (Physics.emissivity params) surface_temp
       (Physics.view_factor params) (Physics.stefan_boltzmann params))
    (Physics.surrounding_temp params) surface_area
  = - Physics.calculate_radiation_heat_flux params surface_temp surface_area.
Proof.
  destruct params as [eps t_surr f sigma].
  cbn [Physics.emissivity Physics.stefan_boltzmann Physics.view_factor
       Physics.surrounding_temp].
  intros Heps Hsigma Hf Harea Hs Hsurr.
  unfold Physics.calculate_radiation_heat_flux.
  cbn [Physics.emissivity Physics.stefan_boltzmann Physics.view_factor
       Physics.surrounding_temp].
  set (a := surface_temp + 273.15). set (b := t_surr + 273.15).
  assert (Ha : 0 <= a) by (unfold a; lra).
  assert (Hb : 0 <= b) by (unfold b; lra).
  assert (Hab : t_surr < surface_temp <-> b < a) by (unfold a, b; lra).
  assert (Heq : surface_temp = t_surr <-> a = b) by (unfold a, b; lra).
  set (c := eps * sigma * f * surface_area).
  assert (Hc : 0 < c).
  { unfold c. repeat apply Rmult_lt_0_compat; assumption. }
  assert (Hfact : a ^ 4 - b ^ 4 = (a - b) * ((a + b) * (a ^ 2 + b ^ 2)))
    by ring.
  assert (Hmono : b < a -> 0 < a ^ 4 - b ^ 4).
  { intros Hlt. rewrite Hfact.
    apply Rmult_lt_0_compat; [lra |]. apply Rmult_lt_0_compat; nra. }
  assert (Hmono' : a < b -> a ^ 4 - b ^ 4 < 0).
  { intros Hlt. rewrite Hfact.
    assert (0 < (b - a) * ((a + b) * (a ^ 2 + b ^ 2))).
    { apply Rmult_lt_0_compat; [lra |]. apply Rmult_lt_0_compat; nra. }
    lra. }
  split; [| split].
  - rewrite Hab. split.
    + intros Hpos. destruct (Rlt_le_dec b a) as [Hlt | Hge]; [assumption |].
      exfalso. destruct Hge as [Hlt | Heq'].
      * specialize (Hmono' Hlt). nra.
      * rewrite Heq' in Hpos. replace (b ^ 4 - b ^ 4) with 0 in Hpos by ring.
        lra.
    + intros Hlt. apply Rmult_lt_0_compat; [assumption | apply Hmono, Hlt].
  - rewrite Heq. split.
    + intros Hzero. destruct (Rtotal_order a b) as [Hlt | [Heq' | Hgt]];
        [| assumption |].
      * specialize (Hmono' Hlt). nra.
      * specialize (Hmono Hgt). nra.
    + intros ->. ring.
  - fold a b c. ring.
Qed.

Lemma calculate_radiation_heat_flux_sign_witness :
  (0 < Physics.calculate_radiation_heat_flux Physics.default_radiation 60 1
   <-> Physics.surrounding_temp Physics.default_radiation < 60) /\
  (Physics.calculate_radiation_heat_flux Physics.default_radiation 60 1 = 0
   <-> 60 = Physics.surrounding_temp Physics.default_radiation) /\
  Physics.calculate_radiation_heat_flux
    (Physics.mkRadiationParameters
       (Physics.emissivity Physics.default_radiation) 60
       (Physics.view_factor Physics.default_radiation)
       (Physics.stefan_boltzmann Physics.default_radiation))
    (Physics.surrounding_temp Physics.default_radiation) 1
  = - Physics.calculate_radiation_heat_flux Physics.default_radiation 60 1.
Proof.
  apply calculate_radiation_heat_flux_sign; cbn; lra.
Defined.

(** ** Transient response *)

Lemma exp_INR_lower (n : nat) : 2 ^ n <= exp (INR n).
Proof.
  induction n as [| n IH].
  - cbn. rewrite exp_0. lra.
  - rewrite S_INR, exp_plus. cbn [pow].
    pose proof (exp_ineq1_le 1) as H1. pose proof (exp_pos (INR n)) as Hn.
    assert (0 < 2 ^ n) by (apply pow_lt; lra).
    nra.
Qed.

(** X27: [calculate_transient_temperature] with a positive time constant
    and a time that is not negative returns.  After [n >= 1] time
    constants the distance to the final temperature is at most [1 / 2^n]
    of the distance at the start; within the first time constant it is
    still at least a third of it. *)
Theorem calculate_transient_temperature_settles
  (t_initial t_final time time_constant : R) (n : nat) :
  0 < time_constant -> 0 <= time ->
  exists t : R,
    Physics.calculate_transient_temperature t_initial t_final time
      time_constant = Ok t /\
    ((1 <= n)%nat -> INR n * time_constant <= time ->
     Rabs (t - t_final) <= Rabs (t_initial - t_final) / 2 ^ n) /\
    (time <= time_constant ->
     Rabs (t_initial - t_final) / 3 <= Rabs (t - t_final)).
Proof.
  intros Htau Htime.
  unfold Physics.calculate_transient_temperature.
  rewrite truediv_ok by lra. cbn [rbind].
  eexists. split; [reflexivity |].
  pose proof (Rinv_0_lt_compat _ Htau) as Hinv.
  pose proof (exp_pos (- time / time_constant)) as He.
  set (e := exp (- time / time_constant)) in *.
  replace (t_final + (t_initial - t_final) * e - t_final)
    with ((t_initial - t_final) * e) by ring.
  rewrite Rabs_mult, (Rabs_pos_eq e) by lra.
  pose proof (Rabs_pos (t_initial - t_final)) as Habs.
  split.
  - intros _ Hn.
    assert (Hq : - time / time_constant <= - INR n).
    { apply Rmult_le_reg_r with time_constant; [assumption |].
      unfold Rdiv. rewrite Rmult_assoc, Rinv_l by lra. lra. }
    assert (Hle : e <= exp (- INR n)).
    { destruct Hq as [Hlt | Heq].
      - left. apply exp_increasing, Hlt.
      - unfold e. rewrite Heq. right. reflexivity. }
    rewrite exp_Ropp in Hle.
    pose proof (exp_INR_lower n) as Hlow.
    assert (Hpow : 0 < 2 ^ n) by (apply pow_lt; lra).
    assert (Hhalf : / exp (INR n) <= / 2 ^ n)
      by (apply Rinv_le_contravar; assumption).
    unfold Rdiv. apply Rmult_le_compat_l; lra.
  - intros Hfirst.
    assert (Hq : Ropp 1 <= - time / time_constant).
    { apply Rmult_le_reg_r with time_constant; [assumption |].
      unfold Rdiv. rewrite Rmult_assoc, Rinv_l by lra. lra. }
    assert (Hge : exp (Ropp 1) <= e).
    { destruct Hq as [Hlt | Heq].
      - left. apply exp_increasing, Hlt.
      - unfold e. rewrite <- Heq. right. reflexivity. }
    rewrite exp_Ropp in Hge.
    pose proof exp_le_3 as H3. pose proof (exp_pos 1) as H1.
    assert (Hthird : / 3 <= / exp 1)
      by (apply Rinv_le_contravar; assumption).
    unfold Rdiv. apply Rmult_le_compat_l; lra.
Qed.

Lemma calculate_transient_temperature_settles_witness :
  exists t : R,
    Physics.calculate_transient_temperature 20 90 1200 600 = Ok t /\
    ((1 <= 2)%nat -> INR 2 * 600 <= 1200 ->
     Rabs (t - 90) <= Rabs (20 - 90) / 2 ^ 2) /\
    (1200 <= 600 -> Rabs (20 - 90) / 3 <= Rabs (t - 90)).
Proof. apply calculate_transient_temperature_settles; lra. Defined.

(** X28: [calculate_thermal_capacitance] of [CableLayer] objects is zero
    whatever their number, radii and length: the dataclass has neither a
    [density] nor a [specific_heat] attribute, so no layer passes the
    [hasattr] test; the time constant got from it is zero too, and
    [calculate_transient_temperature] with that time constant raises
    [ZeroDivisionError]. *)
Theorem calculate_thermal_capacitance_of_cable_layers
  (layers : list CableLayer) (length thermal_resistance : R)
  (t_initial t_final time : R) :
  let c := Physics.calculate_thermal_capacitance
             (map Physics.of_cable_layer layers) length in
  c = 0 /\
  Physics.calculate_time_constant thermal_resistance c = 0 /\
  Physics.calculate_transient_temperature t_initial t_final time
    (Physics.calculate_time_constant thermal_resistance c)
  = Raise ZeroDivisionError.
Proof.
  cbn zeta.
  assert (Hc : forall acc,
    fold_left
      (fun c_total layer =>
         let volume := math_pi * ((Physics.obj_outer_radius layer) ^ 2
                                  - (Physics.obj_inner_radius layer) ^ 2)
                       * length in
         match Physics.obj_density layer, Physics.obj_specific_heat layer with
         | Some density, Some specific_heat =>
             c_total + density * specific_heat * volume
         | _, _ => c_total
         end)
      (map Physics.of_cable_layer layers) acc = acc).
  { induction layers as [| l layers IH]; intros acc; [reflexivity |].
    cbn [map fold_left Physics.of_cable_layer Physics.obj_density
         Physics.obj_specific_heat]. apply IH. }
  unfold Physics.calculate_thermal_capacitance,
    Physics.calculate_time_constant,
    Physics.calculate_transient_temperature.
  rewrite Hc, Rmult_0_r, truediv_zero. repeat split.
Qed.


(** ** The temperature distribution through a wall *)

Lemma validate_layers_run (db : Thermal.Database)
  (layers : list (string * R * Z)) :
  Forall (Calculator.valid_wall_layer db) layers ->
  for_in layers Calculator.validate_layer tt db = (Ok tt, db).
Proof.
  induction 1 as [| [[name thickness] points] layers (Ht & Hp & _) _ IH];
    [reflexivity |].
  cbn [fst snd] in Ht, Hp. cbn [for_in].
  unfold Calculator.validate_layer at 1.
  rewrite le_false by assumption.
  destruct (Z.leb_spec points 0) as [Hle | _]; [lia |].
  unfold bind at 1, ret at 1. exact IH.
Qed.

(** The wall that [calculate_temperature_distribution] hands to
    [calculate_u_value]. *)
Lemma distribution_wall (db : Thermal.Database)
  (layers : list (string * R * Z)) :
  Forall (Calculator.valid_wall_layer db) layers ->
  Forall (known_positive db)
    (map (fun layer : string * R * Z => (fst (fst layer), snd (fst layer)))
       layers) /\
  wall_resistance
    (wall_layers db
       (map (fun layer : string * R * Z => (fst (fst layer), snd (fst layer)))
          layers))
  = 0.13 + Calculator.layers_resistance db layers + 0.04 /\
  0 <= Calculator.layers_resistance db layers.
Proof.
  unfold wall_resistance, wall_layers, Calculator.layers_resistance.
  induction 1 as [| [[name thickness] points] layers (Ht & Hp & m & Hm & Hl)
                    _ (IHk & IHr & IHp)].
  - cbn. split; [constructor | split; lra].
  - cbn [fst snd] in Ht, Hp, Hm. cbn [map fold_right fst snd].
    assert (Hlam : Calculator.lambda_of db name = Thermal.lambda m)
      by (unfold Calculator.lambda_of; rewrite Hm; reflexivity).
    rewrite Hlam, Hm.
    split; [| split].
    + constructor; [| exact IHk]. exists m. cbn [fst]. split; assumption.
    + lra.
    + assert (0 < thickness / Thermal.lambda m)
        by (apply Rdiv_lt_0_compat; assumption).
      lra.
Qed.

(** The loop over the points of one layer, from any point [s] on. *)
Lemma point_loop (db : Thermal.Database) (temp_inside q thickness : R)
  (points : Z) (lambda_value : R) (k : nat) :
  0 < lambda_value -> (0 < points)%Z ->
  forall (s : nat) (v : Calculator.DLocals) (n : nat) (t cp : R),
  Calculator.profile_state temp_inside v n t cp ->
  exists v' : Calculator.DLocals,
    for_in (seq s k)
      (Calculator.point_step (Calculator.Real q) thickness points
         (Some lambda_value)) v db = (Ok v', db) /\
    Calculator.profile_state temp_inside v' (n + k)
      (t - q * thickness / (lambda_value * IZR points)
           * (INR k * INR s + INR k * (INR k + 1) / 2))
      (cp + INR k * (thickness / IZR points)).
Proof.
  intros Hl Hp.
  assert (HP : 0 < IZR points) by (apply IZR_lt in Hp; exact Hp).
  induction k as [| k IH]; intros s v n t cp Hv.
  - exists v. split; [reflexivity |].
    cbn [INR]. replace (n + 0)%nat with n by lia.
    destruct Hv as (He & Hn & Hn' & Hh & Hlast & Hlastp & Hcp).
    repeat split; try assumption.
    + rewrite Hlast. do 2 f_equal. field; lra.
    + rewrite Hlastp. f_equal. lra.
    + lra.
  - destruct Hv as (He & Hn & Hn' & Hh & Hlast & Hlastp & Hcp).
    cbn [seq for_in].
    set (v1 := Calculator.mkDLocals
                 (Calculator.temperatures v
                  ++ [Calculator.Real
                        (t - q * (IZR (Z.of_nat s + 1) / IZR points
                                  * thickness) / lambda_value)])
                 (Calculator.positions v ++ [cp + thickness / IZR points])
                 (cp + thickness / IZR points) false).
    assert (Hstep :
      Calculator.point_step (Calculator.Real q) thickness points
        (Some lambda_value) s v db = (Ok (Next, v1), db)).
    { unfold Calculator.point_step, bind, lift, ret.
      rewrite !truediv_ok by lra. rewrite Hlast.
      unfold Calculator.ediv, Calculator.emul.
      destruct (Req_dec_T lambda_value 0) as [Hz | _]; [lra |].
      cbn [Calculator.esub]. rewrite Hcp. reflexivity. }
    rewrite (bind_ok _ _ _ _ _ Hstep).
    assert (Hv1 : Calculator.profile_state temp_inside v1 (S n)
                    (t - q * (IZR (Z.of_nat s + 1) / IZR points * thickness)
                         / lambda_value)
                    (cp + thickness / IZR points)).
    { unfold Calculator.profile_state, v1.
      cbn [Calculator.type_error Calculator.temperatures
           Calculator.positions Calculator.current_position].
      rewrite !length_app, !last_snoc, Hn, Hn'. cbn [length].
      repeat split; try lia.
      destruct (Calculator.temperatures v); [discriminate | exact Hh]. }
    destruct (IH (S s) v1 (S n) _ _ Hv1) as (v' & Hrun & Hv').
    exists v'. split; [exact Hrun |].
    replace (n + S k)%nat with (S n + k)%nat by lia.
    destruct Hv' as (He' & Hm & Hm' & Hh' & Hlast' & Hlastp' & Hcp').
    repeat split; try assumption.
    + rewrite Hlast'. do 2 f_equal.
      rewrite plus_IZR, <- INR_IZR_INZ, !S_INR. field; lra.
    + rewrite Hlastp'. f_equal. rewrite S_INR. lra.
    + rewrite Hcp', S_INR. lra.
Qed.

(** The loop over the layers: each layer of [points] points lowers the
    temperature by [q d / lambda (points + 1) / 2]. *)
Lemma distribution_loop (db : Thermal.Database) (temp_inside q : R)
  (layers : list (string * R * Z)) :
  Forall (Calculator.valid_wall_layer db) layers ->
  forall (v : Calculator.DLocals) (n : nat) (t cp : R),
  Calculator.profile_state temp_inside v n t cp ->
  exists v' : Calculator.DLocals,
    for_in layers (Calculator.distribution_step (Calculator.Real q)) v db
      = (Ok v', db) /\
    Calculator.profile_state temp_inside v'
      (n + Calculator.total_points layers)
      (t - q * (Calculator.layers_resistance db layers
                + Calculator.excess_resistance db layers))
      (cp + Calculator.total_thickness layers).
Proof.
  induction 1 as [| [[name thickness] points] layers (Ht & Hp & m & Hm & Hl)
                    _ IH]; intros v n t cp Hv.
  - exists v. split; [reflexivity |].
    cbn [Calculator.total_points Calculator.layers_resistance
         Calculator.excess_resistance Calculator.total_thickness fold_right].
    replace (n + 0)%nat with n by lia.
    destruct Hv as (He & Hn & Hn' & Hh & Hlast & Hlastp & Hcp).
    repeat split; try assumption.
    + rewrite Hlast. do 2 f_equal. lra.
    + rewrite Hlastp. f_equal. lra.
    + lra.
  - cbn [fst snd] in Ht, Hp, Hm.
    destruct (point_loop db temp_inside q thickness points (Thermal.lambda m)
                (Z.to_nat points) Hl Hp 0%nat v n t cp Hv)
      as (v1 & Hpoints & Hv1).
    assert (Hstep :
      Calculator.distribution_step (Calculator.Real q)
        (name, thickness, points) v db = (Ok (Next, v1), db)).
    { unfold Calculator.distribution_step.
      rewrite (bind_ok _ _ _ _ _ (get_lambda_known db name m Hm)).
      unfold range. rewrite (bind_ok _ _ _ _ _ Hpoints).
      pose proof Hv1 as (He1 & _). rewrite He1. reflexivity. }
    cbn [for_in]. rewrite (bind_ok _ _ _ _ _ Hstep).
    destruct (IH v1 _ _ _ Hv1) as (v' & Hrun & Hv').
    exists v'. split; [exact Hrun |].
    assert (HP : 0 < IZR points) by (apply IZR_lt in Hp; exact Hp).
    assert (Hnat : INR (Z.to_nat points) = IZR points).
    { rewrite INR_IZR_INZ, Z2Nat.id by lia. reflexivity. }
    cbn [Calculator.total_points Calculator.layers_resistance
         Calculator.excess_resistance Calculator.total_thickness fold_right
         fst snd].
    assert (Hlam : Calculator.lambda_of db name = Thermal.lambda m)
      by (unfold Calculator.lambda_of; rewrite Hm; reflexivity).
    rewrite Hlam.
    fold (Calculator.total_points layers)
      (Calculator.layers_resistance db layers)
      (Calculator.excess_resistance db layers)
      (Calculator.total_thickness layers).
    rewrite Hnat in Hv'.
    replace (n + (Z.to_nat points + Calculator.total_points layers))%nat
      with (n + Z.to_nat points + Calculator.total_points layers)%nat by lia.
    destruct Hv' as (He' & Hk & Hk' & Hh' & Hlast' & Hlastp' & Hcp').
    repeat split; try assumption.
    + rewrite Hlast'. do 2 f_equal. cbn [INR]. field; lra.
    + rewrite Hlastp'. f_equal. field; lra.
    + rewrite Hcp'. field; lra.
Qed.

Lemma excess_resistance_sign (db : Thermal.Database)
  (layers : list (string * R * Z)) :
  Forall (Calculator.valid_wall_layer db) layers ->
  0 <= Calculator.excess_resistance db layers /\
  (Forall (fun layer => snd layer = 1%Z) layers ->
   Calculator.excess_resistance db layers = 0) /\
  (Exists (fun layer => (1 < snd layer)%Z) layers ->
   0 < Calculator.excess_resistance db layers).
Proof.
  unfold Calculator.excess_resistance.
  induction 1 as [| [[name thickness] points] layers (Ht & Hp & m & Hm & Hl)
                    _ (IHp & IHz & IHe)].
  - cbn [fold_right]. split; [lra |]. split; [reflexivity |].
    intros Hex. inversion Hex.
  - cbn [fst snd] in Ht, Hp, Hm. cbn [fold_right fst snd].
    assert (Hlam : Calculator.lambda_of db name = Thermal.lambda m)
      by (unfold Calculator.lambda_of; rewrite Hm; reflexivity).
    rewrite Hlam.
    assert (Hr : 0 < thickness / Thermal.lambda m)
      by (apply Rdiv_lt_0_compat; assumption).
    assert (HP : 1 <= IZR points) by (apply IZR_le; lia).
    set (rest := fold_right _ 0 layers) in *.
    split; [nra |]. split.
    + intros Hall. inversion Hall as [| ? ? Hone Hrest]; subst.
      cbn [snd] in Hone. subst points. rewrite (IHz Hrest). lra.
    + intros Hex. inversion Hex as [? ? Hmany | ? ? Hrest]; subst.
      * cbn [snd] in Hmany.
        assert (2 <= IZR points) by (apply IZR_le; lia). nra.
      * specialize (IHe Hrest). nra.
Qed.

(** X29: [calculate_temperature_distribution] on a non-empty wall whose
    layers have a positive thickness, a positive number of points and a
    material the database knows with a positive conductivity.  It returns,
    leaving the database as it is: the heat flux
    [q = (T_in - T_out) / (0.13 + sum d_i / lambda_i + 0.04)]; as many
    temperatures as positions, three more than the points of the layers;
    a profile that starts at the inside temperature, ends at the outside
    temperature and at the depth of the whole wall; an inner drop of
    [0.13 q].  Inside a layer every point is lowered from the point before
    it by the drop from the start of the layer, so a layer of [n] points
    loses [(n + 1) / 2] times [q d / lambda]: [temp_drop_outside] is
    [- q sum (d_i / lambda_i) (n_i - 1) / 2], zero when every layer has
    one point and negative for an outward heat flow as soon as a layer
    has two. *)
Theorem calculate_temperature_distribution_profile
  (db : Thermal.Database) (layers : list (string * R * Z))
  (temp_inside temp_outside : R) :
  layers <> [] -> Forall (Calculator.valid_wall_layer db) layers ->
  exists (d : Calculator.Distribution) (q residual : R),
    Calculator.calculate_temperature_distribution layers temp_inside
      temp_outside db = (Ok (Calculator.Value d), db) /\
    q = (temp_inside - temp_outside)
        / (0.13 + Calculator.layers_resistance db layers + 0.04) /\
    Calculator.heat_flux_W_m2 d = Calculator.Real q /\
    length (Calculator.temperatures_C d)
      = (3 + Calculator.total_points layers)%nat /\
    length (Calculator.positions_m d)
      = (3 + Calculator.total_points layers)%nat /\
    head (Calculator.temperatures_C d) = Some (Calculator.Real temp_inside) /\
    last (Calculator.temperatures_C d)
      = Some (Calculator.Real temp_outside) /\
    last (Calculator.positions_m d)
      = Some (Calculator.total_thickness layers) /\
    Calculator.temp_drop_inside d = Calculator.Real (0.13 * q) /\
    Calculator.temp_drop_outside d = Calculator.Real residual /\
    residual = - q * Calculator.excess_resistance db layers /\
    (Forall (fun layer => snd layer = 1%Z) layers -> residual = 0) /\
    (temp_outside < temp_inside ->
     Exists (fun layer => (1 < snd layer)%Z) layers -> residual < 0).
Proof.
  intros Hne Hall.
  destruct (distribution_wall db layers Hall) as (Hknown & Hwall & Hpos).
  destruct (excess_resistance_sign db layers Hall) as (Hex0 & Hexz & Hexp).
  set (Rw := 0.13 + Calculator.layers_resistance db layers + 0.04) in *.
  assert (HRw : 0 < Rw) by (unfold Rw; lra).
  set (q := (temp_inside - temp_outside) / Rw).
  assert (Hmap : map (fun layer : string * R * Z =>
                        (fst (fst layer), snd (fst layer))) layers <> []).
  { destruct layers; [congruence | discriminate]. }
  destruct (calculate_u_value_run db _ Hmap Hknown) as [details Hu].
  rewrite Hwall in Hu. unfold gt in Hu. rewrite lt_true in Hu by exact HRw.
  set (v0 := Calculator.mkDLocals
               [Calculator.Real temp_inside;
                Calculator.Real (temp_inside - q * 0.13)] [0; 0] 0 false).
  assert (Hv0 : Calculator.profile_state temp_inside v0 2
                  (temp_inside - q * 0.13) 0).
  { unfold Calculator.profile_state, v0. cbn. repeat split. }
  destruct (distribution_loop db temp_inside q layers Hall v0 _ _ _ Hv0)
    as (v & Hloop & He & Hn & Hn' & Hh & Hlast & Hlastp & Hcp).
  set (t := temp_inside - q * 0.13
            - q * (Calculator.layers_resistance db layers
                   + Calculator.excess_resistance db layers)) in *.
  exists (Calculator.mkDistribution
            (Calculator.positions v ++ [Calculator.current_position v])
            (Calculator.temperatures v ++ [Calculator.Real temp_outside])
            (Calculator.Real q) (Finite (1 / Rw))
            (Calculator.Real (temp_inside - (temp_inside - q * 0.13)))
            (Calculator.Real (t - q * 0.04 - temp_outside))),
    q, (t - q * 0.04 - temp_outside).
  assert (Hq : 1 / Rw * (temp_inside - temp_outside) = q)
    by (unfold q; field; lra).
  assert (Hres : t - q * 0.04 - temp_outside
                 = - q * Calculator.excess_resistance db layers).
  { assert (Hbal : q * Rw = temp_inside - temp_outside)
      by (unfold q; field; lra).
    unfold t. unfold Rw in Hbal. lra. }
  split.
  - unfold Calculator.calculate_temperature_distribution.
    destruct layers as [| layer layers']; [congruence |].
    rewrite (bind_ok _ _ _ _ _ (validate_layers_run db _ Hall)).
    rewrite (bind_ok _ _ _ _ _ Hu).
    cbn [Thermal.u_value_W_m2K Calculator.of_xfloat Calculator.emul
         Calculator.esub].
    rewrite Hq. fold v0. rewrite (bind_ok _ _ _ _ _ Hloop).
    rewrite He. unfold bind, lift, ret. rewrite Hlast.
    cbn [Calculator.emul Calculator.esub]. reflexivity.
  - cbn [Calculator.heat_flux_W_m2 Calculator.temperatures_C
         Calculator.positions_m Calculator.temp_drop_inside
         Calculator.temp_drop_outside].
    rewrite !length_app, !last_snoc, Hn, Hn', Hcp. cbn [length].
    split; [reflexivity |]. split; [reflexivity |].
    split; [lia |]. split; [lia |].
    split; [destruct (Calculator.temperatures v);
            [discriminate | exact Hh] |].
    split; [reflexivity |].
    split; [f_equal; lra |].
    split; [f_equal; lra |].
    split; [reflexivity |].
    split; [exact Hres |].
    split.
    + intros Hone. rewrite Hres, (Hexz Hone). lra.
    + intros Hflow Hmany. rewrite Hres. specialize (Hexp Hmany).
      assert (0 < q).
      { unfold q. apply Rdiv_lt_0_compat; lra. }
      nra.
Qed.

Lemma calculate_temperature_distribution_profile_witness :
  exists (d : Calculator.Distribution) (q residual : R),
    Calculator.calculate_temperature_distribution Walls.concrete_wall 20 0
      Thermal.MATERIALS
      = (Ok (Calculator.Value d), Thermal.MATERIALS) /\
    q = (20 - 0)
        / (0.13
           + Calculator.layers_resistance Thermal.MATERIALS
               Walls.concrete_wall
           + 0.04) /\
    Calculator.heat_flux_W_m2 d = Calculator.Real q /\
    length (Calculator.temperatures_C d)
      = (3 + Calculator.total_points Walls.concrete_wall)%nat /\
    length (Calculator.positions_m d)
      = (3 + Calculator.total_points Walls.concrete_wall)%nat /\
    head (Calculator.temperatures_C d) = Some (Calculator.Real 20) /\
    last (Calculator.temperatures_C d) = Some (Calculator.Real 0) /\
    last (Calculator.positions_m d)
      = Some (Calculator.total_thickness Walls.concrete_wall) /\
    Calculator.temp_drop_inside d = Calculator.Real (0.13 * q) /\
    Calculator.temp_drop_outside d = Calculator.Real residual /\
    residual = - q * Calculator.excess_resistance Thermal.MATERIALS
                       Walls.concrete_wall /\
    (Forall (fun layer => snd layer = 1%Z) Walls.concrete_wall ->
     residual = 0) /\
    (0 < 20 ->
     Exists (fun layer => (1 < snd layer)%Z) Walls.concrete_wall ->
     residual < 0).
Proof.
  apply calculate_temperature_distribution_profile; [discriminate |].
  constructor; [| constructor].
  split; [cbn; lra |]. split; [cbn; lia |].
  exists (Thermal.mkMaterial 2.1 2400 1000).
  split; [reflexivity | cbn; lra].
Defined.

(** ** The mutual heating of a cable group *)

Lemma distance_to_run (a b : CableGroup.CablePosition) :
  CableGroup.distance_to a b
    = Ok (sqrt ((CableGroup.x a - CableGroup.x b) ^ 2
                + (CableGroup.y a - CableGroup.y b) ^ 2)).
Proof.
  unfold CableGroup.distance_to, Physics.math_sqrt.
  rewrite lt_false; [reflexivity |].
  pose proof (pow2_ge_0 (CableGroup.x a - CableGroup.x b)).
  pose proof (pow2_ge_0 (CableGroup.y a - CableGroup.y b)).
  lra.
Qed.

Lemma mutual_resistance_run (rho : R) (a b : CableGroup.CablePosition) :
  0 < CableGroup.y a ->
  Spacing.calculate_mutual_thermal_resistance
    (sqrt ((CableGroup.x a - CableGroup.x b) ^ 2
           + (CableGroup.y a - CableGroup.y b) ^ 2))
    (CableGroup.y a) rho
  = Ok (CableGroup.mutual_resistance rho a b).
Proof.
  intros Hy. unfold CableGroup.mutual_resistance. cbn zeta.
  set (d := sqrt _).
  unfold le. destruct (Rle_dec d 0) as [Hle | Hgt].
  - unfold Spacing.calculate_mutual_thermal_resistance.
    rewrite le_true by assumption. reflexivity.
  - apply calculate_mutual_thermal_resistance_run; lra.
Qed.

Lemma mutual_resistance_nonneg (rho : R) (a b : CableGroup.CablePosition) :
  0 <= CableGroup.mutual_resistance rho a b.
Proof.
  unfold CableGroup.mutual_resistance. cbn zeta.
  destruct (le _ 0); [lra |].
  rewrite py_max_zero. apply Rmax_l.
Qed.

Lemma mutual_resistance_sym (rho : R) (a b : CableGroup.CablePosition) :
  CableGroup.y a = CableGroup.y b ->
  CableGroup.mutual_resistance rho a b = CableGroup.mutual_resistance rho b a.
Proof.
  intros Hy. unfold CableGroup.mutual_resistance. rewrite Hy.
  replace ((CableGroup.x a - CableGroup.x b) ^ 2
           + (CableGroup.y b - CableGroup.y b) ^ 2)
    with ((CableGroup.x b - CableGroup.x a) ^ 2
          + (CableGroup.y b - CableGroup.y b) ^ 2) by ring.
  reflexivity.
Qed.

(** Decides the comparisons of indices in a goal. *)
Ltac index_cases :=
  repeat match goal with
         | |- context [Nat.ltb ?a ?b] => destruct (Nat.ltb_spec a b)
         | |- context [Nat.eqb ?a ?b] => destruct (Nat.eqb_spec a b)
         end;
  cbn [orb andb negb]; try lia; try reflexivity.

Section MutualHeating.

Variable self : CableGroup.CableGroupConfiguration.
Hypothesis buried :
  Forall (fun c => 0 < CableGroup.y c) (CableGroup.cables self).

Lemma cable_at_run (i : nat) (a : CableGroup.CablePosition) :
  CableGroup.cables self !! i = Some a ->
  CableGroup.cable_at i self = (Ok a, self).
Proof. intros Ha. unfold CableGroup.cable_at. rewrite Ha. reflexivity. Qed.

(** One pass of the inner loop fills in one more entry of the row. *)
Lemma mutual_heating_entry_run (i s : nat) (a b : CableGroup.CablePosition)
  (R_matrix : list (list R)) :
  CableGroup.cables self !! i = Some a ->
  CableGroup.cables self !! s = Some b ->
  CableGroup.filled self i s R_matrix ->
  exists R_matrix' : list (list R),
    CableGroup.mutual_heating_entry i s R_matrix self
      = (Ok (Next, R_matrix'), self) /\
    CableGroup.filled self i (S s) R_matrix'.
Proof.
  intros Ha Hb [Hlen Hfill].
  unfold CableGroup.mutual_heating_entry.
  destruct (Nat.eqb_spec i s) as [-> | Hne]; cbn [negb].
  - exists R_matrix. split; [reflexivity |].
    split; [exact Hlen |]. intros i' j' a' b' Ha' Hb'.
    destruct (Hfill i' j' a' b' Ha' Hb') as (row & Hrow & Hrowlen & Hval).
    exists row. split; [exact Hrow |]. split; [exact Hrowlen |].
    rewrite Hval. f_equal. index_cases.
  - assert (Hy : 0 < CableGroup.y a).
    { rewrite Forall_lookup in buried. exact (buried i a Ha). }
    destruct (Hfill i s a b Ha Hb) as (row & Hrow & Hrowlen & _).
    assert (Hs : (s < length row)%nat).
    { rewrite Hrowlen. apply lookup_lt_Some in Hb. exact Hb. }
    exists (<[i := <[s := CableGroup.mutual_resistance
                           (CableGroup.soil_resistivity self) a b]> row]>
              R_matrix).
    split.
    + rewrite (bind_ok _ _ _ _ _ (cable_at_run i a Ha)).
      rewrite (bind_ok _ _ _ _ _ (cable_at_run s b Hb)).
      unfold lift at 1. unfold bind at 1. rewrite distance_to_run.
      rewrite (bind_ok _ _ _ _ _ (cable_at_run i a Ha)).
      unfold gets at 1. unfold bind at 1.
      unfold lift at 1. unfold bind at 1.
      rewrite (mutual_resistance_run _ a b Hy).
      unfold lift, bind, ret, CableGroup.setitem. rewrite Hrow.
      destruct (Nat.ltb_spec s (length row)) as [_ | Hge]; [| lia].
      reflexivity.
    + split; [rewrite length_insert; exact Hlen |].
      intros i' j' a' b' Ha' Hb'.
      destruct (Hfill i' j' a' b' Ha' Hb') as (row' & Hrow' & Hrowlen' & Hval).
      destruct (Nat.eq_dec i' i) as [-> | Hi].
      * assert (row' = row) by congruence. subst row'.
        assert (a' = a) by congruence. subst a'.
        exists (<[s := CableGroup.mutual_resistance
                         (CableGroup.soil_resistivity self) a b]> row).
        split.
        { apply list_lookup_insert_eq. apply lookup_lt_Some in Hrow.
          exact Hrow. }
        split; [rewrite length_insert; exact Hrowlen |].
        destruct (Nat.eq_dec j' s) as [-> | Hj].
        { assert (b' = b) by congruence. subst b'.
          rewrite list_lookup_insert_eq by exact Hs. f_equal. index_cases. }
        { rewrite list_lookup_insert_ne by congruence. rewrite Hval.
          f_equal. index_cases. }
      * exists row'. split.
        { rewrite list_lookup_insert_ne by congruence. exact Hrow'. }
        split; [exact Hrowlen' |]. rewrite Hval. f_equal. index_cases.
Qed.

(** The inner loop from the column [s] on. *)
Lemma mutual_heating_row_run (i : nat) (a : CableGroup.CablePosition)
  (k : nat) :
  CableGroup.cables self !! i = Some a ->
  forall (s : nat) (R_matrix : list (list R)),
  (s + k = length (CableGroup.cables self))%nat ->
  CableGroup.filled self i s R_matrix ->
  exists R_matrix' : list (list R),
    for_in (seq s k) (CableGroup.mutual_heating_entry i) R_matrix self
      = (Ok R_matrix', self) /\
    CableGroup.filled self i (s + k) R_matrix'.
Proof.
  intros Ha. induction k as [| k IH]; intros s R_matrix Hsk Hfill.
  - exists R_matrix. split; [reflexivity |].
    replace (s + 0)%nat with s by lia. exact Hfill.
  - assert (Hs : is_Some (CableGroup.cables self !! s))
      by (apply lookup_lt_is_Some; lia).
    destruct Hs as [b Hb].
    destruct (mutual_heating_entry_run i s a b R_matrix Ha Hb Hfill)
      as (R1 & Hstep & Hfill1).
    cbn [seq for_in]. rewrite (bind_ok _ _ _ _ _ Hstep).
    destruct (IH (S s) R1 ltac:(lia) Hfill1) as (R2 & Hrun & Hfill2).
    exists R2. split; [exact Hrun |].
    replace (s + S k)%nat with (S s + k)%nat by lia. exact Hfill2.
Qed.

(** A full row is the start of the next one. *)
Lemma filled_next_row (i : nat) (R_matrix : list (list R)) :
  CableGroup.filled self i (length (CableGroup.cables self)) R_matrix ->
  CableGroup.filled self (S i) 0 R_matrix.
Proof.
  intros [Hlen Hfill]. split; [exact Hlen |].
  intros i' j' a b Ha Hb.
  destruct (Hfill i' j' a b Ha Hb) as (row & Hrow & Hrowlen & Hval).
  exists row. split; [exact Hrow |]. split; [exact Hrowlen |].
  rewrite Hval. f_equal. apply lookup_lt_Some in Hb. index_cases.
Qed.

(** The outer loop from the row [s] on. *)
Lemma mutual_heating_rows_run (k : nat) :
  forall (s : nat) (R_matrix : list (list R)),
  (s + k = length (CableGroup.cables self))%nat ->
  CableGroup.filled self s 0 R_matrix ->
  exists R_matrix' : list (list R),
    for_in (seq s k)
      (fun i R_matrix =>
         R_matrix <- for_in (range (length (CableGroup.cables self)))
                       (CableGroup.mutual_heating_entry i) R_matrix ;;
         ret (Next, R_matrix))
      R_matrix self = (Ok R_matrix', self) /\
    CableGroup.filled self (s + k) 0 R_matrix'.
Proof.
  induction k as [| k IH]; intros s R_matrix Hsk Hfill.
  - exists R_matrix. split; [reflexivity |].
    replace (s + 0)%nat with s by lia. exact Hfill.
  - assert (Hs : is_Some (CableGroup.cables self !! s))
      by (apply lookup_lt_is_Some; lia).
    destruct Hs as [a Ha].
    destruct (mutual_heating_row_run s a (length (CableGroup.cables self)) Ha
                0%nat R_matrix eq_refl Hfill) as (R1 & Hrow & Hfill1).
    cbn [Nat.add] in Hfill1. apply filled_next_row in Hfill1.
    cbn [seq for_in]. unfold range.
    rewrite (bind_ok _ _ _ _ _ (bind_ok _ _ _ _ _ Hrow)).
    unfold ret at 1.
    destruct (IH (S s) R1 ltac:(lia) Hfill1) as (R2 & Hrun & Hfill2).
    exists R2. split; [exact Hrun |].
    replace (s + S k)%nat with (S s + k)%nat by lia. exact Hfill2.
Qed.

Lemma calculate_mutual_heating_matrix_run :
  exists R_matrix : list (list R),
    CableGroup.calculate_mutual_heating_matrix self = (Ok R_matrix, self) /\
    CableGroup.filled self (length (CableGroup.cables self)) 0 R_matrix.
Proof.
  assert (Hzero : CableGroup.filled self 0 0
                    (CableGroup.zeros (length (CableGroup.cables self))
                       (length (CableGroup.cables self)))).
  { split; [apply length_replicate |].
    intros i' j' a b Ha Hb.
    apply lookup_lt_Some in Ha. apply lookup_lt_Some in Hb.
    exists (replicate (length (CableGroup.cables self)) 0).
    split; [apply lookup_replicate_2; exact Ha |].
    split; [apply length_replicate |].
    rewrite lookup_replicate_2 by exact Hb. f_equal. index_cases. }
  destruct (mutual_heating_rows_run (length (CableGroup.cables self)) 0%nat
              _ eq_refl Hzero) as (R_matrix & Hrun & Hfill).
  exists R_matrix. split; [| exact Hfill].
  unfold CableGroup.calculate_mutual_heating_matrix, gets.
  unfold bind at 1. exact Hrun.
Qed.

End MutualHeating.

(** X30: [calculate_mutual_heating_matrix] of a group whose cables all
    lie at a positive depth returns, leaving the group as it is, a square
    matrix with one row per cable, whose entries are never negative, zero
    on the diagonal, elsewhere the mutual resistance
    [max(0, rho / (2 pi) ln(2 y_i / d_ij))] seen from the depth of the
    cable of the row (zero for two cables at the same place), and equal
    across the diagonal for two cables at the same depth. *)
Theorem calculate_mutual_heating_matrix_entries
  (self : CableGroup.CableGroupConfiguration) :
  Forall (fun c => 0 < CableGroup.y c) (CableGroup.cables self) ->
  exists R_matrix : list (list R),
    CableGroup.calculate_mutual_heating_matrix self = (Ok R_matrix, self) /\
    length R_matrix = length (CableGroup.cables self) /\
    forall (i j : nat) (a b : CableGroup.CablePosition),
      CableGroup.cables self !! i = Some a ->
      CableGroup.cables self !! j = Some b ->
      exists (row row' : list R) (r : R),
        R_matrix !! i = Some row /\
        length row = length (CableGroup.cables self) /\
        row !! j = Some r /\
        0 <= r /\
        (i = j -> r = 0) /\
        (i <> j ->
         r = CableGroup.mutual_resistance (CableGroup.soil_resistivity self)
               a b) /\
        R_matrix !! j = Some row' /\
        (CableGroup.y a = CableGroup.y b -> row' !! i = Some r).
Proof.
  intros Hburied.
  destruct (calculate_mutual_heating_matrix_run self Hburied)
    as (R_matrix & Hrun & Hlen & Hfill).
  exists R_matrix. split; [exact Hrun |]. split; [exact Hlen |].
  intros i j a b Ha Hb.
  destruct (Hfill i j a b Ha Hb) as (row & Hrow & Hrowlen & Hval).
  destruct (Hfill j i b a Hb Ha) as (row' & Hrow' & _ & Hval').
  pose proof (lookup_lt_Some _ _ _ Ha) as Hi.
  pose proof (lookup_lt_Some _ _ _ Hb) as Hj.
  destruct (Nat.ltb_spec i (length (CableGroup.cables self))) as [_ |];
    [| lia].
  destruct (Nat.ltb_spec j (length (CableGroup.cables self))) as [_ |];
    [| lia].
  cbn [orb andb] in Hval, Hval'.
  eexists row, row', _. split; [exact Hrow |]. split; [exact Hrowlen |].
  split; [exact Hval |].
  destruct (Nat.eqb_spec i j) as [Heq | Hne]; cbn [negb].
  - subst j. rewrite Nat.eqb_refl in Hval'. cbn [negb] in Hval'.
    split; [lra |]. split; [reflexivity |]. split; [congruence |].
    split; [exact Hrow' |]. intros _. exact Hval'.
  - split; [apply mutual_resistance_nonneg |].
    split; [congruence |]. split; [reflexivity |].
    split; [exact Hrow' |]. intros Hy. rewrite Hval'.
    destruct (Nat.eqb_spec j i) as [Heq | _]; [congruence |]. cbn [negb].
    f_equal. symmetry. apply mutual_resistance_sym, Hy.
Qed.

Lemma calculate_mutual_heating_matrix_entries_witness :
  exists R_matrix : list (list R),
    CableGroup.calculate_mutual_heating_matrix Groups.pair_of_cables
      = (Ok R_matrix, Groups.pair_of_cables) /\
    length R_matrix = length (CableGroup.cables Groups.pair_of_cables) /\
    forall (i j : nat) (a b : CableGroup.CablePosition),
      CableGroup.cables Groups.pair_of_cables !! i = Some a ->
      CableGroup.cables Groups.pair_of_cables !! j = Some b ->
      exists (row row' : list R) (r : R),
        R_matrix !! i = Some row /\
        length row = length (CableGroup.cables Groups.pair_of_cables) /\
        row !! j = Some r /\
        0 <= r /\
        (i = j -> r = 0) /\
        (i <> j ->
         r = CableGroup.mutual_resistance
               (CableGroup.soil_resistivity Groups.pair_of_cables) a b) /\
        R_matrix !! j = Some row' /\
        (CableGroup.y a = CableGroup.y b -> row' !! i = Some r).
Proof.
  apply calculate_mutual_heating_matrix_entries.
  repeat constructor; cbn; lra.
Defined.


(** ** The ampacity search: which half is kept *)

Lemma ln_le_minus_one (x : R) : 0 < x -> ln x <= x - 1.
Proof.
  intros Hx. pose proof (exp_ineq1_le (ln x)) as H.
  rewrite exp_ln in H by exact Hx. lra.
Qed.

Section Bisection.

Variable base : CableConfiguration.
Variable conductor : CableLayer.
Variable rest : list CableLayer.
Hypothesis has_conductor : layers base = conductor :: rest.
Hypothesis all_conducting :
  Forall conducting (layers base ++ external_layers base).

(** The solver returns at every current. *)
Lemma temperature_at_any (i : R) : exists t : R, temperature_at base i t.
Proof.
  destruct (calculate_conductor_temperature_run (set_current i base)
              conductor rest has_conductor all_conducting) as [P HP].
  cbn zeta in HP. eexists. eexists. exact HP.
Qed.

Lemma temperature_at_unique (i t t' : R) :
  temperature_at base i t -> temperature_at base i t' -> t = t'.
Proof. intros [d Hd] [d' Hd']. congruence. Qed.

(** At the start of a pass the solver's temperature is at most the rated
    temperature at the lower end of the bracket and at least that at the
    upper end. *)
Let crosses (v : SearchLocals) (margin : R) : Prop :=
  i_min v <= i_max v /\
  exists t_lo t_hi : R,
    temperature_at base (i_min v) t_lo /\
    temperature_at base (i_max v) t_hi /\
    t_lo <= max_conductor_temp base <= t_hi /\
    margin <= t_hi - t_lo.

(** One pass: the probe meets the tolerance and the loop stops, or the
    half of the bracket that still crosses the rated temperature is
    kept, its new end at least 0.5 K away from that temperature. *)
Lemma search_step_crossing (a : nat) (v : SearchLocals) (x margin : R) :
  crosses v margin ->
  let probe := (i_min v + i_max v) / 2 in
  exists t : R,
    temperature_at base probe t /\
    ((Rabs (t - max_conductor_temp base) < 0.5 /\
      search_step a v (set_current x base)
        = (Ok (Break, v), set_current probe base))
     \/ exists v' : SearchLocals,
          search_step a v (set_current x base)
            = (Ok (Next, v'), set_current probe base) /\
          crosses v' 0.5 /\
          i_min v <= i_min v' /\ i_max v' <= i_max v /\
          i_max v' - i_min v' = (i_max v - i_min v) / 2 /\
          (probe = i_min v' \/ probe = i_max v')).
Proof.
  intros (Horder & t_lo & t_hi & Hlo & Hhi & Hcross & _) probe.
  destruct (temperature_at_any probe) as [t Ht].
  exists t. split; [exact Ht |].
  destruct Ht as [d Hd].
  pose proof (search_step_run a v (set_current x base) _ t d Hd) as Hstep.
  fold probe in Hstep.
  change (max_conductor_temp (set_current probe base))
    with (max_conductor_temp base) in Hstep.
  unfold abs, gt, lt in Hstep.
  destruct (Rlt_dec (Rabs (t - max_conductor_temp base)) 0.5)
    as [Hnear | Hfar].
  - left. split; [exact Hnear | exact Hstep].
  - right. apply Rnot_lt_le in Hfar.
    destruct (Rlt_dec (max_conductor_temp base) t) as [Hhot | Hcool].
    + exists (mkSearchLocals (i_min v) probe).
      split; [exact Hstep |]. cbn [i_min i_max].
      assert (Hup : max_conductor_temp base + 0.5 <= t).
      { rewrite Rabs_right in Hfar by lra. lra. }
      split.
      * split; [cbn [i_min i_max]; unfold probe; lra |].
        exists t_lo, t. cbn [i_min i_max]. split; [exact Hlo |].
        split; [exists d; exact Hd |]. split; lra.
      * repeat split; unfold probe; lra.
    + exists (mkSearchLocals probe (i_max v)).
      split; [exact Hstep |]. cbn [i_min i_max].
      apply Rnot_lt_le in Hcool.
      assert (Hdown : t <= max_conductor_temp base - 0.5).
      { rewrite Rabs_left1 in Hfar by lra. lra. }
      split.
      * split; [cbn [i_min i_max]; unfold probe; lra |].
        exists t, t_hi. cbn [i_min i_max]. split; [exists d; exact Hd |].
        split; [exact Hhi |]. split; lra.
      * repeat split; unfold probe; lra.
Qed.

(** The loop: a probe met the tolerance and the configuration is left at
    it; or every pass has halved the bracket, keeping the half in which
    the solver's temperature crosses the rated temperature, and the
    configuration is left at the last probe, an end of the final
    bracket. *)
Lemma search_loop_crossing (n : nat) :
  forall (a : nat) (v : SearchLocals) (x margin : R),
    crosses v margin ->
    exists (v' : SearchLocals) (i : R),
      for_in (seq a (S n)) search_step v (set_current x base)
        = (Ok v', set_current i base) /\
      i_min v <= i_min v' /\ i_max v' <= i_max v /\
      ((exists t : R,
           temperature_at base i t /\
           Rabs (t - max_conductor_temp base) < 0.5)
       \/ (crosses v' 0.5 /\
           i_max v' - i_min v' = (i_max v - i_min v) / 2 ^ S n /\
           (i = i_min v' \/ i = i_max v'))).
Proof.
  induction n as [| n IH]; intros a v x margin Hv.
  - destruct (search_step_crossing a v x margin Hv)
      as (t & Ht & [[Hnear Hstep] | (v' & Hstep & Hv' & Hlo & Hhi & Hw & He)]).
    + exists v, ((i_min v + i_max v) / 2). cbn [seq for_in].
      rewrite (bind_ok _ _ _ _ _ Hstep). split; [reflexivity |].
      split; [lra |]. split; [lra |]. left. exists t. split; assumption.
    + exists v', ((i_min v + i_max v) / 2). cbn [seq for_in].
      rewrite (bind_ok _ _ _ _ _ Hstep). split; [reflexivity |].
      split; [exact Hlo |]. split; [exact Hhi |]. right.
      split; [exact Hv' |]. split; [rewrite Hw; cbn [pow]; lra | exact He].
  - destruct (search_step_crossing a v x margin Hv)
      as (t & Ht & [[Hnear Hstep] | (v1 & Hstep & Hv1 & Hlo & Hhi & Hw & _)]).
    + exists v, ((i_min v + i_max v) / 2).
      change (seq a (S (S n))) with (a :: seq (S a) (S n)). cbn [for_in].
      rewrite (bind_ok _ _ _ _ _ Hstep). split; [reflexivity |].
      split; [lra |]. split; [lra |]. left. exists t. split; assumption.
    + destruct (IH (S a) v1 ((i_min v + i_max v) / 2) 0.5 Hv1)
        as (v' & i & Hrun & Hlo' & Hhi' & Hout).
      exists v', i.
      change (seq a (S (S n))) with (a :: seq (S a) (S n)). cbn [for_in].
      rewrite (bind_ok _ _ _ _ _ Hstep). split; [exact Hrun |].
      split; [lra |]. split; [lra |].
      destruct Hout as [Hnear | (Hv' & Hw' & He)]; [left; exact Hnear |].
      right. split; [exact Hv' |]. split; [| exact He].
      rewrite Hw', Hw. change (2 ^ S (S n)) with (2 * 2 ^ S n).
      field. apply pow_nonzero. lra.
Qed.

End Bisection.

(** C5 (as the code has it): on a configuration with a conductor and no
    zero conductivity, cooler outside than its rating and too hot at
    10000 A, [calculate_max_current] returns a current, of which the
    solver's temperature is within 0.5 K of [max_conductor_temp] unless
    the bisection has run out of its 20 probes on a jump: then the
    returned current is an end of the final bracket, [10000 / 2^20] A
    wide, and between the two ends of that bracket the solver's
    temperature goes from at most [max_conductor_temp] to at least that,
    rising by 0.5 K or more.  The half of the bracket kept at each probe
    is the one in which the temperature crosses the rated one. *)
Theorem calculate_max_current_converges_or_jumps
  (cfg : CableConfiguration) (conductor : CableLayer)
  (rest : list CableLayer) :
  layers cfg = conductor :: rest ->
  Forall conducting (layers cfg ++ external_layers cfg) ->
  ambient_temp cfg < max_conductor_temp cfg ->
  (exists t : R,
      temperature_at cfg 10000 t /\ max_conductor_temp cfg < t) ->
  exists (i : R) (d : Details) (t : R),
    calculate_max_current cfg = (Ok (i, d), set_current i cfg) /\
    temperature_at cfg i t /\
    (Rabs (t - max_conductor_temp cfg) < 0.5
     \/ exists lo hi t_lo t_hi : R,
          0 <= lo /\ hi <= 10000 /\ hi - lo = 10000 / 2 ^ 20 /\
          (i = lo \/ i = hi) /\
          temperature_at cfg lo t_lo /\ temperature_at cfg hi t_hi /\
          t_lo <= max_conductor_temp cfg <= t_hi /\
          0.5 <= t_hi - t_lo).
Proof.
  intros Hc Hall Hamb (t_top & Htop & Hhot).
  assert (Hzero : exists t0 : R,
             temperature_at cfg 0 t0 /\ t0 <= max_conductor_temp cfg).
  { destruct (calculate_conductor_temperature_idle (set_current 0 cfg)
                conductor rest Hc Hall eq_refl) as (d0 & Hd0 & _).
    change (ambient_temp (set_current 0 cfg)) with (ambient_temp cfg) in Hd0.
    change (max_conductor_temp (set_current 0 cfg))
      with (max_conductor_temp cfg) in Hd0.
    eexists. split; [exists d0; exact Hd0 |].
    destruct (lt _ 0.1); lra. }
  destruct Hzero as (t0 & Hzero & Hcool).
  assert (Hstart : cfg = set_current (current cfg) cfg)
    by (destruct cfg; reflexivity).
  destruct (search_loop_crossing cfg conductor rest Hc Hall 19 0%nat
              (mkSearchLocals 0 10000) (current cfg) (t_top - t0))
    as (v & i & Hloop & Hlo & Hhi & Hout).
  { split; [cbn; lra |]. exists t0, t_top. cbn [i_min i_max].
    split; [exact Hzero |]. split; [exact Htop |]. split; lra. }
  cbn [i_min i_max] in Hlo, Hhi.
  rewrite <- Hstart in Hloop.
  destruct (temperature_at_any cfg conductor rest Hc Hall i) as [t [d Hd]].
  exists i, (set_max_current_A i d), t.
  split.
  - exact (calculate_max_current_run cfg _ _ v t d Hloop Hd).
  - split; [exists d; exact Hd |].
    destruct Hout as [(t' & Ht' & Hnear) | (Hv & Hw & He)].
    + left.
      rewrite (temperature_at_unique cfg i t t' (ex_intro _ d Hd) Ht').
      exact Hnear.
    + right. destruct Hv as (_ & t_lo & t_hi & Hlo' & Hhi' & Hcross & Hjump).
      exists (i_min v), (i_max v), t_lo, t_hi.
      split; [exact Hlo |]. split; [exact Hhi |].
      split; [rewrite Hw; cbn [i_min i_max]; lra |].
      split; [exact He |]. split; [exact Hlo' |]. split; [exact Hhi' |].
      split; [exact Hcross | exact Hjump].
Qed.

(** Without temperature coefficient the solver's temperature at any
    current is the steady state, or the rated temperature when the steady
    state is within 0.1 K of it. *)
Lemma temperature_at_no_coefficient (cfg : CableConfiguration)
  (conductor : CableLayer) (rest : list CableLayer) (i t : R) :
  layers cfg = conductor :: rest ->
  Forall conducting (layers cfg ++ external_layers cfg) ->
  resistive conductor -> temp_coefficient conductor = 0 ->
  temperature_at cfg i t ->
  t = if lt (Rabs (ambient_temp cfg
                   + i ^ 2 * R_20 conductor
                     * series_resistance (layers cfg ++ external_layers cfg)
                   - max_conductor_temp cfg)) 0.1
      then max_conductor_temp cfg
      else ambient_temp cfg
           + i ^ 2 * R_20 conductor
             * series_resistance (layers cfg ++ external_layers cfg).
Proof.
  intros Hc Hall Hres Halpha [d Hd].
  destruct (calculate_conductor_temperature_run (set_current i cfg)
              conductor rest Hc Hall) as [P HP].
  cbn zeta in HP.
  change (current (set_current i cfg)) with i in HP.
  change (ambient_temp (set_current i cfg)) with (ambient_temp cfg) in HP.
  change (max_conductor_temp (set_current i cfg))
    with (max_conductor_temp cfg) in HP.
  change (layers (set_current i cfg)) with (layers cfg) in HP.
  change (external_layers (set_current i cfg))
    with (external_layers cfg) in HP.
  rewrite (fixed_point_constant _ _ _ _
             (ambient_temp cfg
              + i ^ 2 * R_20 conductor
                * series_resistance (layers cfg ++ external_layers cfg)))
    in HP.
  - rewrite Hd in HP. destruct (lt _ 0.1); cbn [fst] in HP; congruence.
  - intros T. unfold update.
    rewrite (conductor_resistance_resistive conductor T Hres).
    unfold R_at. rewrite Halpha. ring.
Qed.

Lemma quotient_bounds (x d lo hi : R) :
  0 < d -> lo * d <= x <= hi * d -> lo <= x / d <= hi.
Proof.
  intros Hd [Hlo Hhi].
  split; apply Rmult_le_reg_r with d; try assumption;
    unfold Rdiv; rewrite Rmult_assoc, Rinv_l by lra; lra.
Qed.

(** The rise of the hollow cable, in K / A^2. *)
Lemma hollow_cable_rise :
  0.000003
  <= R_20 (mkCableLayer "Conductor (Cu)" "Copper" 4 8.7 380 0.0175 0)
     * series_resistance
         (layers Cables.hollow_cable ++ external_layers Cables.hollow_cable)
  <= 0.001.
Proof.
  unfold R_20, series_resistance. cbn [Cables.hollow_cable].
  change (layers Cables.hollow_cable ++ external_layers Cables.hollow_cable)
    with [mkCableLayer "Conductor (Cu)" "Copper" 4 8.7 380 0.0175 0;
          mkCableLayer "Insulation (XLPE)" "XLPE" 8.7 14.9 0.286 0 0].
  cbn [fold_right resistivity inner_radius outer_radius].
  unfold layer_resistance, shell_resistance.
  cbn [inner_radius outer_radius thermal_conductivity].
  rewrite !le_false by lra. cbn [orb].
  pose proof PI2_3_2 as Hpi3. pose proof PI_4 as Hpi4.
  assert (Hpi : 3 < PI <= 4) by lra.
  assert (Hl1 : 0 < ln (8.7 / 4) <= 1.2).
  { split.
    - rewrite <- ln_1. apply ln_increasing; lra.
    - pose proof (ln_le_minus_one (8.7 / 4) ltac:(lra)). lra. }
  assert (Hl2 : 0.25 <= ln (14.9 / 8.7) <= 0.72).
  { split.
    - assert (Hsq : ln 2 < ln ((14.9 / 8.7) ^ 2))
        by (apply ln_increasing; lra).
      rewrite ln_pow in Hsq by lra. cbn [INR] in Hsq.
      pose proof ln_lt_2. lra.
    - pose proof (ln_le_minus_one (14.9 / 8.7) ltac:(lra)). lra. }
  set (a := ln (8.7 / 4)) in *. set (b := ln (14.9 / 8.7)) in *.
  assert (Hr20 : 0.00007 <= 0.0175 * 1 / (PI * (8.7 ^ 2 - 4 ^ 2)) <= 0.0001)
    by (apply quotient_bounds; nra).
  assert (Ht1 : 0 <= a / (2 * PI * 380) <= 0.001)
    by (apply quotient_bounds; nra).
  assert (Ht2 : 0.1 <= b / (2 * PI * 0.286) <= 0.5)
    by (apply quotient_bounds; nra).
  set (r20 := 0.0175 * 1 / (PI * (8.7 ^ 2 - 4 ^ 2))) in *.
  set (t1 := a / (2 * PI * 380)) in *.
  set (t2 := b / (2 * PI * 0.286)) in *.
  split; nra.
Qed.

(** The search on the hollow cable: the first probe, 5000 A, is far too
    hot, the search bisects, and the current it returns gives a
    temperature within 0.5 K of the rated 90 degC. *)
Lemma calculate_max_current_converges_or_jumps_witness :
  exists (i : R) (d : Details) (t : R),
    calculate_max_current Cables.hollow_cable
      = (Ok (i, d), set_current i Cables.hollow_cable) /\
    temperature_at Cables.hollow_cable i t /\
    Rabs (t - max_conductor_temp Cables.hollow_cable) < 0.5 /\
    i <> 5000.
Proof.
  set (cfg := Cables.hollow_cable).
  set (c := mkCableLayer "Conductor (Cu)" "Copper" 4 8.7 380 0.0175 0).
  pose proof hollow_cable_rise as Hrise. fold c in Hrise.
  set (k := R_20 c
            * series_resistance
                (layers Cables.hollow_cable
                 ++ external_layers Cables.hollow_cable)) in *.
  assert (Hat : forall i t : R,
             temperature_at cfg i t ->
             t = if lt (Rabs (20 + i ^ 2 * k - 90)) 0.1
                 then 90 else 20 + i ^ 2 * k).
  { intros i t Ht.
    rewrite (temperature_at_no_coefficient cfg c _ i t eq_refl
               hollow_cable_conducting hollow_conductor_resistive eq_refl Ht).
    change (ambient_temp cfg) with 20.
    change (max_conductor_temp cfg) with 90.
    unfold k. rewrite !Rmult_assoc. reflexivity. }
  assert (Hnear : forall i t : R,
             temperature_at cfg i t -> Rabs (t - (20 + i ^ 2 * k)) < 0.1).
  { intros i t Ht. rewrite (Hat i t Ht). unfold lt.
    destruct (Rlt_dec (Rabs (20 + i ^ 2 * k - 90)) 0.1) as [Hsnap | _].
    - rewrite Rabs_minus_sym. exact Hsnap.
    - replace (20 + i ^ 2 * k - (20 + i ^ 2 * k)) with 0 by ring.
      rewrite Rabs_R0. lra. }
  destruct (calculate_max_current_converges_or_jumps cfg c _ eq_refl
              hollow_cable_conducting) as (i & d & t & Hrun & Ht & Hout).
  - change (ambient_temp cfg) with 20.
    change (max_conductor_temp cfg) with 90. lra.
  - destruct (temperature_at_any cfg c _ eq_refl hollow_cable_conducting
                10000) as [t Ht].
    exists t. split; [exact Ht |].
    change (max_conductor_temp cfg) with 90.
    pose proof (Hnear _ _ Ht) as Hn. apply Rabs_def2 in Hn. nra.
  - change (max_conductor_temp cfg) with 90 in Hout.
    assert (Hconv : Rabs (t - 90) < 0.5).
    { destruct Hout as [Hconv | Hjump]; [exact Hconv |]. exfalso.
      destruct Hjump as (lo & hi & t_lo & t_hi & Hlo & Hhi & Hw & _ & Hl & Hh
                         & _ & Hgap).
      pose proof (Hnear _ _ Hl) as Hnl. apply Rabs_def2 in Hnl.
      pose proof (Hnear _ _ Hh) as Hnh. apply Rabs_def2 in Hnh.
      assert (Hw' : hi - lo <= 0.01).
      { rewrite Hw. apply Rmult_le_reg_r with (2 ^ 20); [lra |].
        unfold Rdiv. rewrite Rmult_assoc, Rinv_l by lra. lra. }
      assert (Hord : 0 <= hi - lo).
      { rewrite Hw. apply Rlt_le, Rdiv_lt_0_compat; lra. }
      assert (Hsq : hi ^ 2 * k - lo ^ 2 * k <= 0.2).
      { replace (hi ^ 2 * k - lo ^ 2 * k)
          with (k * ((hi - lo) * (hi + lo))) by ring.
        assert (0 <= (hi - lo) * (hi + lo) <= 200) by nra.
        nra. }
      lra. }
    exists i, d, t. split; [exact Hrun |]. split; [exact Ht |].
    split; [change (max_conductor_temp Cables.hollow_cable) with 90;
            exact Hconv |].
    intros Hi. subst i.
    pose proof (Hnear _ _ Ht) as Hn. apply Rabs_def2 in Hn.
    apply Rabs_def2 in Hconv. nra.
Defined.
